(** * Hermes metadata manager: a shallow embedding and its properties

    The development follows [src/metadata_management.cc] and
    [src/api/bucket.cc], and the page mapper of the stdio adapter.
    Identifiers are 64-bit unions, the shared memory
    of every node is an explicit state, and a remote procedure call runs the
    [Local*] variant of an operation on the state of the target node. *)

From Stdlib Require Import ZArith Lia String Ascii List.
From stdpp Require Import base option list gmap strings pretty.

Local Open Scope Z_scope.

(** ** Machine integers *)

Definition to_u8 (x : Z) : Z := x mod 2 ^ 8.
Definition to_u32 (x : Z) : Z := x mod 2 ^ 32.
Definition to_u64 (x : Z) : Z := x mod 2 ^ 64.

(** Two's-complement reading of the low 32 bits ([int], [i32]). *)
Definition to_i32 (x : Z) : Z :=
  let y := x mod 2 ^ 32 in if y <? 2 ^ 31 then y else y - 2 ^ 32.

(** Two's-complement reading of the low 64 bits ([i64]). *)
Definition to_i64 (x : Z) : Z :=
  let y := x mod 2 ^ 64 in if y <? 2 ^ 63 then y else y - 2 ^ 64.

(** ** Identifiers

    [union { struct { u32 index; u32 node_id; } bits; u64 as_int; }] on a
    little-endian machine: an id is its [as_int]; the first member of
    [bits] is the low half and the second the high half.  [BlobID] has
    [u32 buffer_ids_offset] and a signed [i32 node_id]. *)

Abbreviation BucketID := Z (only parsing).
Abbreviation VBucketID := Z (only parsing).
Abbreviation BlobID := Z (only parsing).
Abbreviation BufferID := Z (only parsing).
Abbreviation TargetID := Z (only parsing).

Module Bits.
Definition low (as_int : Z) : Z := as_int mod 2 ^ 32.
Definition high (as_int : Z) : Z := as_int / 2 ^ 32.
Definition set_low (as_int v : Z) : Z := high as_int * 2 ^ 32 + to_u32 v.
Definition set_high (as_int v : Z) : Z := to_u32 v * 2 ^ 32 + low as_int.

Definition index (id : BucketID) : Z := low id.
Definition node_id (id : BucketID) : Z := high id.
Definition buffer_ids_offset (id : BlobID) : Z := low id.
(** [BlobID::bits.node_id] is an [i32]. *)
Definition blob_node_id (id : BlobID) : Z := to_i32 (high id).
End Bits.

(** ** Constants and functions that live outside the verified files

    The name-size constants come from [hermes_types.h] and the storage hash
    from [metadata_storage.cc]; the operations below take them as
    parameters. *)

Record RpcContext := {
  node_id : Z;      (* u32, nodes are numbered from 1 *)
  num_nodes : Z     (* u32 *)
}.

Class HermesParams := {
  kMaxBucketNameSize : Z;
  kMaxVBucketNameSize : Z;
  kMaxBlobNameSize : Z;
  (** the node that owns a key, a [u32] *)
  HashStringForStorage : RpcContext -> string -> Z
}.

(** Modelled from the spec: the size of [BucketID], which section 3 fixes
    ("every id is a 64-bit value"); its declaration is in [hermes_types.h]. *)
Definition sizeof_BucketID : nat := 8.

(** Modelled from the spec: [kBucketIdStringSize = 2 * sizeof(BucketID)]
    (section 4.E); its declaration is in [hermes_types.h]. *)
Definition kBucketIdStringSize : nat := 2 * sizeof_BucketID.

(** ** Name validation *)

Definition size (s : string) : Z := Z.of_nat (String.length s).

(** [std::string::c_str()] as a callee reads it: the characters before the
    first NUL.  [size()] counts every character, but the hash and the maps
    get [name.c_str()]; the operations below take the name they are given
    as the key, which is what the source does for a name that is its own
    [c_str()], and the statements about names ask for that. *)
Fixpoint c_str (s : string) : string :=
  match s with
  | EmptyString => EmptyString
  | String c s' => if Ascii.eqb c Ascii.zero then EmptyString else String c (c_str s')
  end.

Definition IsNameTooLong (name : string) (max : Z) : bool :=
  if size name + 1 >=? max then true else false.

Section NameChecks.
Context `{HermesParams}.

Definition IsBlobNameTooLong (name : string) : bool :=
  IsNameTooLong name kMaxBlobNameSize.

Definition IsBucketNameTooLong (name : string) : bool :=
  IsNameTooLong name kMaxBucketNameSize.

Definition IsVBucketNameTooLong (name : string) : bool :=
  IsNameTooLong name kMaxVBucketNameSize.
End NameChecks.

Definition IsNullId (id : Z) : bool := id =? 0.
Definition IsNullBucketId (id : BucketID) : bool := IsNullId id.
Definition IsNullVBucketId (id : VBucketID) : bool := IsNullId id.
Definition IsNullBlobId (id : BlobID) : bool := IsNullId id.
Definition IsNullTargetId (id : TargetID) : bool := IsNullId id.

Definition GetBlobNodeId (id : BlobID) : Z :=
  to_u32 (Z.abs (Bits.blob_node_id id)).

Definition BlobIsInSwap (id : BlobID) : bool := Bits.blob_node_id id <? 0.

(** ** Internal blob names *)

(** The digits [std::hex] prints, lower case. *)
Definition hex_digit (d : Z) : ascii :=
  nth (Z.to_nat d) (list_ascii_of_string "0123456789abcdef") "0"%char.

(** [ss << std::hex << v] for a non-negative [int]: the shortest run of
    digits, most significant first (an [int] has at most eight). *)
Fixpoint hex_digits (fuel : nat) (v : Z) : list ascii :=
  match fuel with
  | O => []
  | S fuel' =>
      if v <? 16 then [hex_digit v]
      else hex_digits fuel' (v / 16) ++ [hex_digit (v mod 16)]
  end.

(** [std::setw(w) << std::setfill(c)] applied to the next item. *)
Definition setw_setfill (w : nat) (c : ascii) (item : list ascii) : list ascii :=
  repeat c (w - length item) ++ item.

(** [*(((u8 * )&id.as_int) + i)], little-endian. *)
Definition byte_at (as_int : Z) (i : Z) : Z := to_u8 (as_int / 2 ^ (8 * i)).

Definition put_hex_byte (ss : string) (byte : Z) : string :=
  (ss +:+ string_of_list_ascii (setw_setfill 2 "0"%char (hex_digits 8 byte)))%string.

(** [for (int i = sizeof(BucketID) - 1; i >= 0; --i)], [n] bytes to go. *)
Fixpoint MakeInternalBlobName_loop (n : nat) (as_int : Z) (ss : string) : string :=
  match n with
  | O => ss
  | S i =>
      MakeInternalBlobName_loop i as_int (put_hex_byte ss (byte_at as_int (Z.of_nat i)))
  end.

Definition MakeInternalBlobName (name : string) (id : BucketID) : string :=
  (MakeInternalBlobName_loop sizeof_BucketID id "" +:+ name)%string.

(** Lookup table for [HexStringToU64]. *)
Definition hextable : list Z :=
  [ 0; 0; 0; 0; 0; 0; 0; 0; 0; 0; 0; 0; 0; 0; 0; 0; 0; 0; 0; 0; 0; 0; 0;
    0; 0; 0; 0; 0; 0; 0; 0; 0; 0; 0; 0; 0; 0; 0; 0; 0; 0; 0; 0; 0; 0; 0;
    0; 0; 0; 1; 2; 3; 4; 5; 6; 7; 8; 9; 0; 0; 0; 0; 0; 0; 0; 10; 11; 12;
    13; 14; 15; 0; 0; 0; 0; 0; 0; 0; 0; 0; 0; 0; 0; 0; 0; 0; 0; 0; 0; 0;
    0; 0; 0; 0; 0; 0; 0; 10; 11; 12; 13; 14; 15; 0; 0; 0; 0; 0; 0; 0; 0;
    0; 0; 0; 0; 0; 0; 0; 0; 0; 0; 0; 0; 0; 0; 0; 0; 0; 0; 0; 0; 0; 0; 0;
    0; 0; 0; 0; 0; 0; 0; 0; 0; 0; 0; 0; 0; 0; 0; 0; 0; 0; 0; 0; 0; 0; 0;
    0; 0; 0; 0; 0; 0; 0; 0; 0; 0; 0; 0; 0; 0; 0; 0; 0; 0; 0; 0; 0; 0; 0;
    0; 0; 0; 0; 0; 0; 0; 0; 0; 0; 0; 0; 0; 0; 0; 0; 0; 0; 0; 0; 0; 0; 0;
    0; 0; 0; 0; 0; 0; 0; 0; 0; 0; 0; 0; 0; 0; 0; 0; 0; 0; 0; 0; 0; 0; 0;
    0; 0; 0; 0; 0; 0; 0; 0; 0; 0; 0; 0; 0; 0; 0; 0; 0; 0; 0; 0; 0; 0; 0;
    0; 0; 0; 0; 0; 0; 0 ].

(** [s[i]]: the character at [i], and the terminating NUL at [i = size]. *)
Definition char_at (s : string) (i : nat) : ascii :=
  match String.get i s with Some c => c | None => Ascii.zero end.

(** [(int)s[i]], for the characters below 128 that the table is meant
    for. *)
Definition char_code (c : ascii) : nat := nat_of_ascii c.

(** One turn of the loop: [result = (result << 4) | hextable[(int)c]]. *)
Definition hex_step (result : Z) (c : ascii) : Z :=
  Z.lor (to_u64 (Z.shiftl result 4)) (nth (char_code c) hextable 0).

(** [for (size_t i = 0; i < kBucketIdStringSize; ++i)], [n] turns to go. *)
Fixpoint HexStringToU64_loop (s : string) (i n : nat) (result : Z) : Z :=
  match n with
  | O => result
  | S n' => HexStringToU64_loop s (S i) n' (hex_step result (char_at s i))
  end.

Definition HexStringToU64 (s : string) : Z :=
  HexStringToU64_loop s 0 kBucketIdStringSize 0.

(** [s.substr(pos, std::string::npos)] for [pos <= s.size()]. *)
Fixpoint substr_from (pos : nat) (s : string) : string :=
  match pos, s with
  | O, _ => s
  | S p, String _ s' => substr_from p s'
  | S _, EmptyString => EmptyString
  end.

(** ** Swap records

    Modelled from the spec: [SwapBlob] and [SwapBlobMembers] are declared in
    [hermes_types.h]; section 4.C gives the record as
    [SwapBlob{node, offset, size, bucket}] packed, in that order, into a
    four-entry [BufferID] list. *)

Record SwapBlob := {
  swap_node_id : Z;          (* u32 *)
  swap_offset : Z;           (* u64 *)
  swap_size : Z;             (* u64 *)
  swap_bucket_id : BucketID
}.

Definition SwapBlobMembers_NodeId : nat := 0.
Definition SwapBlobMembers_Offset : nat := 1.
Definition SwapBlobMembers_Size : nat := 2.
Definition SwapBlobMembers_BucketId : nat := 3.
Definition SwapBlobMembers_Count : nat := 4.

Definition SwapBlob_zero : SwapBlob :=
  {| swap_node_id := 0; swap_offset := 0; swap_size := 0; swap_bucket_id := 0 |}.

Definition SwapBlobToVec (swap_blob : SwapBlob) : list BufferID :=
  let result := replicate SwapBlobMembers_Count 0 in
  let result := <[SwapBlobMembers_NodeId := swap_node_id swap_blob]> result in
  let result := <[SwapBlobMembers_Offset := swap_offset swap_blob]> result in
  let result := <[SwapBlobMembers_Size := swap_size swap_blob]> result in
  let result := <[SwapBlobMembers_BucketId := swap_bucket_id swap_blob]> result in
  result.

(** [HERMES_NOT_IMPLEMENTED_YET] only logs; the zeroed record is returned. *)
Definition VecToSwapBlob (vec : list BufferID) : SwapBlob :=
  if Nat.eqb (length vec) SwapBlobMembers_Count then
    {| swap_node_id := to_u32 (nth SwapBlobMembers_NodeId vec 0);
       swap_offset := nth SwapBlobMembers_Offset vec 0;
       swap_size := nth SwapBlobMembers_Size vec 0;
       swap_bucket_id := nth SwapBlobMembers_BucketId vec 0 |}
  else SwapBlob_zero.

(** ** A state monad with failure

    [None] stands for a run that does not return: a failed [assert], an
    access outside an array, or a call to a node that does not exist. *)

Definition St (S A : Type) : Type := S -> option (A * S).

Definition ret {S A} (a : A) : St S A := fun s => Some (a, s).

Definition bind {S A B} (m : St S A) (k : A -> St S B) : St S B :=
  fun s => match m s with
           | Some (a, s') => k a s'
           | None => None
           end.

Definition abort {S A} : St S A := fun _ => None.
Definition get {S} : St S S := fun s => Some (s, s).
Definition put {S} (s : S) : St S unit := fun _ => Some (tt, s).
Definition assert {S} (b : bool) : St S unit := if b then ret tt else abort.

Declare Scope st_scope.
Delimit Scope st_scope with st.
Notation "x <- m ;; k" := (bind m (fun x => k))
  (at level 100, m at next level, right associativity) : st_scope.
Notation "m ;;; k" := (bind m (fun _ => k))
  (at level 100, right associativity) : st_scope.
Local Open Scope st_scope.

(** ** Shared memory of one node *)

Record BucketInfo := {
  next_free : BucketID;
  blobs : list BlobID;
  stats : Z;
  ref_count : Z;             (* std::atomic<int> *)
  active : bool
}.

Definition BucketInfo_zero : BucketInfo :=
  {| next_free := 0; blobs := []; stats := 0; ref_count := 0; active := false |}.

Record SystemViewState := {
  svs_num_devices : Z;
  bytes_available : list Z   (* std::atomic<u64> per device *)
}.

Record MetadataManager := {
  bucket_map : gmap string Z;
  vbucket_map : gmap string Z;
  blob_map : gmap string Z;
  blob_reverse_map : gmap Z string;
  id_lists : list (list BufferID);
  bucket_info : list BucketInfo;
  first_free_bucket : BucketID;
  num_buckets : Z;           (* u32 *)
  max_buckets : Z;           (* u32 *)
  system_view_state : SystemViewState;
  global_system_view_state : option SystemViewState;
  global_system_view_state_node_id : Z;
  system_view_state_update_interval_ms : Z;
  map_seed : Z
}.

Record BufferPool := {
  capacity_adjustments : list Z;   (* std::atomic<i64> per device *)
  num_devices : Z
}.

(** What a [SharedMemoryContext *] gives access to on one node. *)
Record SharedMemoryContext := {
  mdm : MetadataManager;
  pool : BufferPool;
  node_targets : list TargetID
}.

Definition GetMetadataManagerFromContext (context : SharedMemoryContext) :
  MetadataManager := mdm context.

Definition GetBufferPoolFromContext (context : SharedMemoryContext) :
  BufferPool := pool context.

Definition set_mdm (context : SharedMemoryContext) (m : MetadataManager) :=
  {| mdm := m; pool := pool context; node_targets := node_targets context |}.

Definition set_pool (context : SharedMemoryContext) (p : BufferPool) :=
  {| mdm := mdm context; pool := p; node_targets := node_targets context |}.

Definition set_maps (m : MetadataManager)
    (b v bl : gmap string Z) (r : gmap Z string) : MetadataManager :=
  {| bucket_map := b; vbucket_map := v; blob_map := bl; blob_reverse_map := r;
     id_lists := id_lists m; bucket_info := bucket_info m;
     first_free_bucket := first_free_bucket m; num_buckets := num_buckets m;
     max_buckets := max_buckets m; system_view_state := system_view_state m;
     global_system_view_state := global_system_view_state m;
     global_system_view_state_node_id := global_system_view_state_node_id m;
     system_view_state_update_interval_ms := system_view_state_update_interval_ms m;
     map_seed := map_seed m |}.

Definition set_id_lists (m : MetadataManager) (l : list (list BufferID)) :=
  {| bucket_map := bucket_map m; vbucket_map := vbucket_map m;
     blob_map := blob_map m; blob_reverse_map := blob_reverse_map m;
     id_lists := l; bucket_info := bucket_info m;
     first_free_bucket := first_free_bucket m; num_buckets := num_buckets m;
     max_buckets := max_buckets m; system_view_state := system_view_state m;
     global_system_view_state := global_system_view_state m;
     global_system_view_state_node_id := global_system_view_state_node_id m;
     system_view_state_update_interval_ms := system_view_state_update_interval_ms m;
     map_seed := map_seed m |}.

Definition set_slots (m : MetadataManager) (infos : list BucketInfo)
    (first_free : BucketID) (num : Z) : MetadataManager :=
  {| bucket_map := bucket_map m; vbucket_map := vbucket_map m;
     blob_map := blob_map m; blob_reverse_map := blob_reverse_map m;
     id_lists := id_lists m; bucket_info := infos;
     first_free_bucket := first_free; num_buckets := num;
     max_buckets := max_buckets m; system_view_state := system_view_state m;
     global_system_view_state := global_system_view_state m;
     global_system_view_state_node_id := global_system_view_state_node_id m;
     system_view_state_update_interval_ms := system_view_state_update_interval_ms m;
     map_seed := map_seed m |}.

Definition set_global_system_view_state (m : MetadataManager)
    (g : option SystemViewState) : MetadataManager :=
  {| bucket_map := bucket_map m; vbucket_map := vbucket_map m;
     blob_map := blob_map m; blob_reverse_map := blob_reverse_map m;
     id_lists := id_lists m; bucket_info := bucket_info m;
     first_free_bucket := first_free_bucket m; num_buckets := num_buckets m;
     max_buckets := max_buckets m; system_view_state := system_view_state m;
     global_system_view_state := g;
     global_system_view_state_node_id := global_system_view_state_node_id m;
     system_view_state_update_interval_ms := system_view_state_update_interval_ms m;
     map_seed := map_seed m |}.

(** ** Metadata storage

    Modelled from the spec: [PutToStorage], [GetFromStorage],
    [DeleteFromStorage] and [ReverseGetFromStorage] are defined in
    [metadata_storage.cc].  Section 3 describes three maps from strings to
    64-bit ids, a lookup yielding the id or null, and for blobs alone a
    reverse association from the id to the key. *)

Inductive MapType := kMapType_Bucket | kMapType_VBucket | kMapType_Blob.

Definition PutToStorage (m : MetadataManager) (key : string) (val : Z)
    (map_type : MapType) : MetadataManager :=
  match map_type with
  | kMapType_Bucket =>
      set_maps m (<[key := val]> (bucket_map m)) (vbucket_map m) (blob_map m)
        (blob_reverse_map m)
  | kMapType_VBucket =>
      set_maps m (bucket_map m) (<[key := val]> (vbucket_map m)) (blob_map m)
        (blob_reverse_map m)
  | kMapType_Blob =>
      let r := match blob_map m !! key with
               | Some old => delete old (blob_reverse_map m)
               | None => blob_reverse_map m
               end in
      set_maps m (bucket_map m) (vbucket_map m) (<[key := val]> (blob_map m))
        (<[val := key]> r)
  end.

Definition GetFromStorage (m : MetadataManager) (key : string)
    (map_type : MapType) : Z :=
  match map_type with
  | kMapType_Bucket => default 0 (bucket_map m !! key)
  | kMapType_VBucket => default 0 (vbucket_map m !! key)
  | kMapType_Blob => default 0 (blob_map m !! key)
  end.

Definition DeleteFromStorage (m : MetadataManager) (key : string)
    (map_type : MapType) : MetadataManager :=
  match map_type with
  | kMapType_Bucket =>
      set_maps m (delete key (bucket_map m)) (vbucket_map m) (blob_map m)
        (blob_reverse_map m)
  | kMapType_VBucket =>
      set_maps m (bucket_map m) (delete key (vbucket_map m)) (blob_map m)
        (blob_reverse_map m)
  | kMapType_Blob =>
      let r := match blob_map m !! key with
               | Some old => delete old (blob_reverse_map m)
               | None => blob_reverse_map m
               end in
      set_maps m (bucket_map m) (vbucket_map m) (delete key (blob_map m)) r
  end.

Definition ReverseGetFromStorage (m : MetadataManager) (id : Z)
    (map_type : MapType) : string :=
  match map_type with
  | kMapType_Blob => default EmptyString (blob_reverse_map m !! id)
  | _ => EmptyString
  end.

(** ** Operations on the shared memory of one node

    [BeginTicketMutex] and [EndTicketMutex] bracket a critical section; in
    this sequential model every operation runs to its end, so they do not
    appear. *)

Definition LocalPut (key : string) (val : Z) (map_type : MapType) :
  St SharedMemoryContext unit :=
  fun context =>
    Some (tt, set_mdm context (PutToStorage (mdm context) key val map_type)).

Definition LocalGet (key : string) (map_type : MapType) :
  St SharedMemoryContext Z :=
  fun context => Some (GetFromStorage (mdm context) key map_type, context).

Definition LocalDelete (key : string) (map_type : MapType) :
  St SharedMemoryContext unit :=
  fun context =>
    Some (tt, set_mdm context (DeleteFromStorage (mdm context) key map_type)).

Definition LocalGetBucketId (name : string) : St SharedMemoryContext BucketID :=
  LocalGet name kMapType_Bucket.

Definition LocalPutBucketId (name : string) (id : BucketID) :
  St SharedMemoryContext unit :=
  LocalPut name id kMapType_Bucket.

(** [info_array + index]; reading outside the array does not return. *)
Definition LocalGetBucketInfoByIndex (m : MetadataManager) (index : Z) :
  option BucketInfo :=
  bucket_info m !! Z.to_nat index.

Definition LocalGetBucketInfoById (m : MetadataManager) (id : BucketID) :
  option BucketInfo :=
  LocalGetBucketInfoByIndex m (Bits.index id).

Definition set_ref_count (info : BucketInfo) (n : Z) : BucketInfo :=
  {| next_free := next_free info; blobs := blobs info; stats := stats info;
     ref_count := n; active := active info |}.

Definition set_blobs (info : BucketInfo) (l : list BlobID) : BucketInfo :=
  {| next_free := next_free info; blobs := l; stats := stats info;
     ref_count := ref_count info; active := active info |}.

(** A write through the pointer [LocalGetBucketInfoByIndex] returned. *)
Definition store_bucket_info (index : Z) (info : BucketInfo) :
  St SharedMemoryContext unit :=
  fun context =>
    let m := mdm context in
    Some (tt, set_mdm context
                (set_slots m (<[Z.to_nat index := info]> (bucket_info m))
                   (first_free_bucket m) (num_buckets m))).

Definition LocalGetNextFreeBucketId (name : string) :
  St SharedMemoryContext BucketID :=
  context <- get ;;
  let m := GetMetadataManagerFromContext context in
  result <-
    (if num_buckets m <? max_buckets m then
       let result := first_free_bucket m in
       if negb (IsNullBucketId result) then
         match LocalGetBucketInfoByIndex m (Bits.index result) with
         | Some info =>
             let info' := {| next_free := next_free info; blobs := [];
                             stats := 0; ref_count := 1; active := true |} in
             put (set_mdm context
                    (set_slots m
                       (<[Z.to_nat (Bits.index result) := info']> (bucket_info m))
                       (next_free info) (to_u32 (num_buckets m + 1)))) ;;;
             ret result
         | None => abort
         end
       else ret result
     else
       (* LOG(ERROR): exceeded max allowed buckets *)
       ret 0) ;;
  (if negb (IsNullBucketId result) then LocalPutBucketId name result
   else ret tt) ;;;
  ret result.

Definition LocalIncrementRefcount (id : BucketID) : St SharedMemoryContext unit :=
  context <- get ;;
  match LocalGetBucketInfoById (mdm context) id with
  | Some info =>
      store_bucket_info (Bits.index id)
        (set_ref_count info (to_i32 (ref_count info + 1)))
  | None => abort
  end.

Definition LocalDecrementRefcount (id : BucketID) : St SharedMemoryContext unit :=
  context <- get ;;
  match LocalGetBucketInfoById (mdm context) id with
  | Some info =>
      let n := to_i32 (ref_count info - 1) in
      store_bucket_info (Bits.index id) (set_ref_count info n) ;;;
      assert (n >=? 0)
  | None => abort
  end.

Definition LocalGetOrCreateBucketId (name : string) :
  St SharedMemoryContext BucketID :=
  result <- LocalGetBucketId name ;;
  if negb (result =? 0) then
    LocalIncrementRefcount result ;;; ret result
  else
    LocalGetNextFreeBucketId name.

Definition LocalGetBlobNameFromId (blob_id : BlobID) :
  St SharedMemoryContext string :=
  context <- get ;;
  let blob_name := ReverseGetFromStorage (mdm context) blob_id kMapType_Blob in
  ret (if size blob_name >? Z.of_nat kBucketIdStringSize
       then substr_from kBucketIdStringSize blob_name
       else EmptyString).

Definition LocalGetBucketIdFromBlobId (id : BlobID) :
  St SharedMemoryContext BucketID :=
  context <- get ;;
  let internal_name := ReverseGetFromStorage (mdm context) id kMapType_Blob in
  ret (if size internal_name >? Z.of_nat kBucketIdStringSize
       then HexStringToU64 internal_name
       else 0).

(** Modelled from the spec: [LocalAllocateBufferIdList] is defined in
    [metadata_storage.cc].  Section 3: a BlobID's low half is "an offset
    into the per-node buffer-id-list pool"; the pool is a table of lists
    and the offset the position of the new list. *)
Definition LocalAllocateBufferIdList (buffer_ids : list BufferID) :
  St SharedMemoryContext Z :=
  fun context =>
    let m := mdm context in
    Some (to_u32 (Z.of_nat (length (id_lists m))),
          set_mdm context (set_id_lists m (id_lists m ++ [buffer_ids]))).

(** Modelled from the spec: [LocalGetBufferIdList] is defined in
    [metadata_storage.cc]; it decodes the offset of a BlobID in the pool of
    its node. *)
Definition LocalGetBufferIdList (blob_id : BlobID) :
  St SharedMemoryContext (list BufferID) :=
  fun context =>
    match id_lists (mdm context) !! Z.to_nat (Bits.buffer_ids_offset blob_id) with
    | Some l => Some (l, context)
    | None => None
    end.

(** Modelled from the spec: [LocalAddBlobIdToBucket] is defined in
    [metadata_storage.cc]; section 4.E: "appends id to bucket's blob
    list". *)
Definition LocalAddBlobIdToBucket (bucket_id : BucketID) (blob_id : BlobID) :
  St SharedMemoryContext unit :=
  context <- get ;;
  match LocalGetBucketInfoById (mdm context) bucket_id with
  | Some info =>
      store_bucket_info (Bits.index bucket_id)
        (set_blobs info (blobs info ++ [blob_id]))
  | None => abort
  end.

(** Modelled from the spec: [LocalDestroyBucket] is defined in
    [metadata_storage.cc].  Section 3, invariant 4: "a bucket may be
    destroyed only when its ref-count is zero"; section 4.E: it "releases
    the slot and deletes the name mapping" and "refuses if ref-count > 0";
    section 8, scenario 3: "the slot index reappears at
    first_free_bucket". *)
Definition LocalDestroyBucket (name : string) (bucket_id : BucketID) :
  St SharedMemoryContext bool :=
  context <- get ;;
  let m := mdm context in
  match LocalGetBucketInfoById m bucket_id with
  | Some info =>
      if ref_count info =? 0 then
        let info' := {| next_free := first_free_bucket m; blobs := [];
                        stats := 0; ref_count := 0; active := false |} in
        put (set_mdm context
               (set_slots m
                  (<[Z.to_nat (Bits.index bucket_id) := info']> (bucket_info m))
                  bucket_id (to_u32 (num_buckets m - 1)))) ;;;
        LocalDelete name kMapType_Bucket ;;;
        ret true
      else ret false
  | None => abort
  end.

(** Modelled from the spec: [LocalGetNodeTargets] is defined in
    [buffer_pool.cc]; it returns the targets of the node it runs on. *)
Definition LocalGetNodeTargets : St SharedMemoryContext (list TargetID) :=
  fun context => Some (node_targets context, context).

Definition GetGlobalSystemViewState : St SharedMemoryContext SystemViewState :=
  fun context =>
    match global_system_view_state (mdm context) with
    | Some state => Some (state, context)
    | None => None     (* assert((u8 * )result != (u8 * )mdm) *)
    end.

(** [state->bytes_available[i].fetch_add(a)] on a [u64]. *)
Definition fetch_add_bytes_available (i : nat) (a : Z) :
  St SharedMemoryContext unit :=
  fun context =>
    match global_system_view_state (mdm context) with
    | Some state =>
        match bytes_available state !! i with
        | Some old =>
            let state' :=
              {| svs_num_devices := svs_num_devices state;
                 bytes_available :=
                   <[i := to_u64 (old + a)]> (bytes_available state) |} in
            Some (tt, set_mdm context
                        (set_global_system_view_state (mdm context) (Some state')))
        | None => None
        end
    | None => None
    end.

(** [for (size_t i = 0; i < adjustments.size(); ++i)], [n] turns to go. *)
Fixpoint LocalUpdateGlobalSystemViewState_loop (i n : nat) (adjustments : list Z) :
  St SharedMemoryContext unit :=
  match n with
  | O => ret tt
  | S n' =>
      _ <- GetGlobalSystemViewState ;;
      match adjustments !! i with
      | Some a =>
          (if negb (a =? 0) then fetch_add_bytes_available i a else ret tt) ;;;
          LocalUpdateGlobalSystemViewState_loop (S i) n' adjustments
      | None => abort
      end
  end.

Definition LocalUpdateGlobalSystemViewState (adjustments : list Z) :
  St SharedMemoryContext unit :=
  LocalUpdateGlobalSystemViewState_loop 0 (length adjustments) adjustments.

(** The first loop of [UpdateGlobalSystemViewState]:
    [adjustments[i] = pool->capacity_adjustments[i].exchange(0)]. *)
Fixpoint exchange_adjustments (i n : nat) (adjustments : list Z)
    (update_needed : bool) : St SharedMemoryContext (list Z * bool) :=
  match n with
  | O => ret (adjustments, update_needed)
  | S n' =>
      context <- get ;;
      let p := GetBufferPoolFromContext context in
      match capacity_adjustments p !! i with
      | Some old =>
          put (set_pool context
                 {| capacity_adjustments := <[i := 0]> (capacity_adjustments p);
                    num_devices := num_devices p |}) ;;;
          exchange_adjustments (S i) n' (<[i := old]> adjustments)
            (if negb (old =? 0) then true else update_needed)
      | None => abort
      end
  end.

(** ** Initialisation *)

Record Config := {
  capacities : list Z;
  cfg_num_devices : Z;
  max_buckets_per_node : Z;                          (* u32 *)
  max_vbuckets_per_node : Z;                         (* u32 *)
  cfg_system_view_state_update_interval_ms : Z
}.

Definition CreateSystemViewState (config : Config) : SystemViewState :=
  {| svs_num_devices := cfg_num_devices config;
     bytes_available :=
       map (fun i => nth i (capacities config) 0)
         (seq 0 (Z.to_nat (cfg_num_devices config))) |}.

(** The body of the loop over the [BucketInfo] array. *)
Definition init_bucket_info (config : Config) (node_id : Z) (i : Z)
    (info : BucketInfo) : BucketInfo :=
  {| next_free :=
       if i =? to_u32 (max_buckets_per_node config - 1) then 0
       else Bits.set_low (Bits.set_high (next_free info) node_id) (i + 1);
     blobs := blobs info; stats := stats info; ref_count := ref_count info;
     active := false |}.

(** [for (u32 i = 0; i < config->max_buckets_per_node; ++i)], [n] turns to
    go. *)
Fixpoint InitMetadataManager_buckets (config : Config) (node_id : Z)
    (i n : nat) (buckets : list BucketInfo) : list BucketInfo :=
  match n with
  | O => buckets
  | S n' =>
      InitMetadataManager_buckets config node_id (S i) n'
        (alter (init_bucket_info config node_id (Z.of_nat i)) i buckets)
  end.

(** The arena hands out cleared memory: [PushArray] yields zeroed slots,
    and the maps start empty.  The [VBucketInfo] table is initialised by a
    second loop of the same shape and is left out. *)
Definition InitMetadataManager (config : Config) (node_id : Z) : MetadataManager :=
  let max := Z.to_nat (max_buckets_per_node config) in
  {| bucket_map := ∅; vbucket_map := ∅; blob_map := ∅; blob_reverse_map := ∅;
     id_lists := [];
     bucket_info :=
       InitMetadataManager_buckets config node_id 0 max
         (replicate max BucketInfo_zero);
     first_free_bucket := Bits.set_low (Bits.set_high 0 node_id) 0;
     num_buckets := 0;
     max_buckets := max_buckets_per_node config;
     system_view_state := CreateSystemViewState config;
     global_system_view_state :=
       if node_id =? 1 then Some (CreateSystemViewState config) else None;
     global_system_view_state_node_id := 1;
     system_view_state_update_interval_ms :=
       cfg_system_view_state_update_interval_ms config;
     map_seed := 0x4E58E5DF |}.

(** ** The installation: one shared memory per node

    Node [k] (numbered from 1) is the entry [k - 1]. *)

Abbreviation Cluster := (list SharedMemoryContext).

Definition node_slot (node : Z) : nat := Z.to_nat (node - 1).

Definition on_node {A} (node : Z) (f : St SharedMemoryContext A) : St Cluster A :=
  fun c =>
    if node <=? 0 then None
    else
      match c !! node_slot node with
      | Some context =>
          match f context with
          | Some (a, context') => Some (a, <[node_slot node := context']> c)
          | None => None
          end
      | None => None
      end.

(** The caller runs an operation on its own shared memory. *)
Definition Local {A} (rpc : RpcContext) (f : St SharedMemoryContext A) :
  St Cluster A :=
  on_node (node_id rpc) f.

(** Modelled from the spec: [RpcCall] is defined in [rpc.h]; section 4.E:
    "the same-named Remote RPC is dispatched" and "the local and remote
    paths are behaviorally identical", so the handler is the [Local*]
    variant, run on the shared memory of the target node. *)
Definition RpcCall {A} (rpc : RpcContext) (target_node : Z)
    (handler : St SharedMemoryContext A) : St Cluster A :=
  on_node target_node handler.

Section Directory.
Context `{HermesParams}.

Definition HashString (rpc : RpcContext) (str : string) : Z :=
  HashStringForStorage rpc str.

Definition GetId (rpc : RpcContext) (name : string) (map_type : MapType) :
  St Cluster Z :=
  let target_node := HashString rpc name in
  if target_node =? node_id rpc then Local rpc (LocalGet name map_type)
  else RpcCall rpc target_node (LocalGet name map_type).

Definition GetBucketId (rpc : RpcContext) (name : string) : St Cluster BucketID :=
  GetId rpc name kMapType_Bucket.

Definition GetBlobId (rpc : RpcContext) (name : string) (bucket_id : BucketID) :
  St Cluster BlobID :=
  let internal_name := MakeInternalBlobName name bucket_id in
  GetId rpc internal_name kMapType_Blob.

Definition PutId (rpc : RpcContext) (name : string) (id : Z)
    (map_type : MapType) : St Cluster unit :=
  let target_node := HashString rpc name in
  if target_node =? node_id rpc then Local rpc (LocalPut name id map_type)
  else RpcCall rpc target_node (LocalPut name id map_type).

Definition PutBlobId (rpc : RpcContext) (name : string) (id : BlobID)
    (bucket_id : BucketID) : St Cluster unit :=
  let internal_name := MakeInternalBlobName name bucket_id in
  PutId rpc internal_name id kMapType_Blob.

Definition GetOrCreateBucketId (rpc : RpcContext) (name : string) :
  St Cluster BucketID :=
  let target_node := HashString rpc name in
  if target_node =? node_id rpc then Local rpc (LocalGetOrCreateBucketId name)
  else RpcCall rpc target_node (LocalGetOrCreateBucketId name).

Definition AddBlobIdToBucket (rpc : RpcContext) (blob_id : BlobID)
    (bucket_id : BucketID) : St Cluster unit :=
  let target_node := Bits.node_id bucket_id in
  if target_node =? node_id rpc then
    Local rpc (LocalAddBlobIdToBucket bucket_id blob_id)
  else RpcCall rpc target_node (LocalAddBlobIdToBucket bucket_id blob_id).

Definition AllocateBufferIdList (rpc : RpcContext) (target_node : Z)
    (buffer_ids : list BufferID) : St Cluster Z :=
  if target_node =? node_id rpc then
    Local rpc (LocalAllocateBufferIdList buffer_ids)
  else RpcCall rpc target_node (LocalAllocateBufferIdList buffer_ids).

Definition GetBufferIdList (rpc : RpcContext) (blob_id : BlobID) :
  St Cluster (list BufferID) :=
  let target_node := GetBlobNodeId blob_id in
  if target_node =? node_id rpc then Local rpc (LocalGetBufferIdList blob_id)
  else RpcCall rpc target_node (LocalGetBufferIdList blob_id).

(** The BlobID that [AttachBlobToBucket] synthesises is also its result
    here, so that statements can name it. *)
Definition AttachBlobToBucket (rpc : RpcContext) (blob_name : string)
    (bucket_id : BucketID) (buffer_ids : list BufferID) (is_swap_blob : bool) :
  St Cluster BlobID :=
  let target_node := to_i32 (HashString rpc blob_name) in
  let blob_id := 0 in
  (* a negative node_id indicates a swap blob *)
  let blob_id :=
    Bits.set_high blob_id (if is_swap_blob then - target_node else target_node) in
  offset <- AllocateBufferIdList rpc (to_u32 target_node) buffer_ids ;;
  let blob_id := Bits.set_low blob_id offset in
  PutBlobId rpc blob_name blob_id bucket_id ;;;
  AddBlobIdToBucket rpc blob_id bucket_id ;;;
  ret blob_id.

Definition GetBlobNameFromId (rpc : RpcContext) (blob_id : BlobID) :
  St Cluster string :=
  let target_node := GetBlobNodeId blob_id in
  if target_node =? node_id rpc then Local rpc (LocalGetBlobNameFromId blob_id)
  else RpcCall rpc target_node (LocalGetBlobNameFromId blob_id).

End Directory.

Definition GetBucketIdFromBlobId (rpc : RpcContext) (id : BlobID) :
  St Cluster BucketID :=
  let target_node := GetBlobNodeId id in
  if target_node =? node_id rpc then Local rpc (LocalGetBucketIdFromBlobId id)
  else RpcCall rpc target_node (LocalGetBucketIdFromBlobId id).

Definition DestroyBucket (rpc : RpcContext) (name : string)
    (bucket_id : BucketID) : St Cluster bool :=
  let target_node := Bits.node_id bucket_id in
  if target_node =? node_id rpc then Local rpc (LocalDestroyBucket name bucket_id)
  else RpcCall rpc target_node (LocalDestroyBucket name bucket_id).

Definition DecrementRefcount (rpc : RpcContext) (id : BucketID) : St Cluster unit :=
  let target_node := Bits.node_id id in
  if target_node =? node_id rpc then Local rpc (LocalDecrementRefcount id)
  else RpcCall rpc target_node (LocalDecrementRefcount id).

Definition UpdateGlobalSystemViewState (rpc : RpcContext) : St Cluster unit :=
  context <- Local rpc get ;;
  let m := GetMetadataManagerFromContext context in
  let p := GetBufferPoolFromContext context in
  let adjustments := replicate (Z.to_nat (num_devices p)) 0 in
  r <- Local rpc (exchange_adjustments 0 (length adjustments) adjustments false) ;;
  let '(adjustments, update_needed) := r in
  if update_needed : bool then
    let target_node := global_system_view_state_node_id m in
    if target_node =? node_id rpc then
      Local rpc (LocalUpdateGlobalSystemViewState adjustments)
    else RpcCall rpc target_node (LocalUpdateGlobalSystemViewState adjustments)
  else ret tt.

(** ** Neighbourhoods *)

Definition GetRelativeNodeId {S} (rpc : RpcContext) (offset : Z) : St S Z :=
  let result := to_i32 (to_u32 (node_id rpc + offset)) in
  assert (result >=? 0) ;;;
  assert (result <=? to_i32 (to_u32 (num_nodes rpc + 1))) ;;;
  let result :=
    if result >? to_i32 (num_nodes rpc) then 1
    else if result =? 0 then to_i32 (num_nodes rpc)
    else result in
  ret (to_u32 result).

Definition GetNextNode {S} (rpc : RpcContext) : St S Z := GetRelativeNodeId rpc 1.

Definition GetPreviousNode {S} (rpc : RpcContext) : St S Z :=
  GetRelativeNodeId rpc (-1).

Definition GetNodeTargets (rpc : RpcContext) (target_node : Z) :
  St Cluster (list TargetID) :=
  if target_node =? node_id rpc then Local rpc LocalGetNodeTargets
  else RpcCall rpc target_node LocalGetNodeTargets.

Definition GetNeighborhoodTargets (rpc : RpcContext) : St Cluster (list TargetID) :=
  if num_nodes rpc =? 1 then
    (* no neighbors *)
    ret []
  else if num_nodes rpc =? 2 then
    (* one neighbor *)
    next_node <- GetNextNode rpc ;;
    GetNodeTargets rpc next_node
  else
    (* two neighbors *)
    next_node <- GetNextNode rpc ;;
    next_targets <- GetNodeTargets rpc next_node ;;
    prev_node <- GetPreviousNode rpc ;;
    prev_targets <- GetNodeTargets rpc prev_node ;;
    ret (next_targets ++ prev_targets).

(** ** The Bucket API ([src/api/bucket.cc]) *)

Inductive Status :=
  | HERMES_SUCCESS
  | INVALID_BLOB
  | BLOB_NAME_TOO_LONG
  | BUCKET_NAME_TOO_LONG
  | BUCKET_IN_USE.

(** A handle: [hermes_] gives the caller's [rpc_]; its [context_] is the
    caller's entry of the installation. *)
Record Bucket := {
  name_ : string;
  id_ : BucketID;
  rpc_ : RpcContext
}.

Definition set_id_ (b : Bucket) (id : BucketID) : Bucket :=
  {| name_ := name_ b; id_ := id; rpc_ := rpc_ b |}.

Definition Bucket_IsValid (b : Bucket) : bool := negb (IsNullBucketId (id_ b)).

Inductive Thrown := length_error | runtime_error.

Section BucketApi.
Context `{HermesParams}.

(** [Bucket::Bucket]: the handle, or the exception the constructor
    throws. *)
Definition Bucket_new (initial_name : string) (h : RpcContext) :
  St Cluster (Thrown + Bucket) :=
  let this := {| name_ := initial_name; id_ := 0; rpc_ := h |} in
  if IsBucketNameTooLong (name_ this) then
    ret (inl length_error)
  else
    id <- GetOrCreateBucketId (rpc_ this) (name_ this) ;;
    let this := set_id_ this id in
    if negb (Bucket_IsValid this) then ret (inl runtime_error)
    else ret (inr this).
End BucketApi.

Definition Bucket_Close (this : Bucket) : St Cluster (Status * Bucket) :=
  let ret_ := HERMES_SUCCESS in
  if Bucket_IsValid this then
    DecrementRefcount (rpc_ this) (id_ this) ;;;
    ret (ret_, set_id_ this 0)
  else ret (ret_, this).

Definition Bucket_Destroy (this : Bucket) : St Cluster (Status * Bucket) :=
  let result := HERMES_SUCCESS in
  if Bucket_IsValid this then
    destroyed <- DestroyBucket (rpc_ this) (name_ this) (id_ this) ;;
    if destroyed : bool then ret (result, set_id_ this 0)
    else ret (BUCKET_IN_USE, this)
  else ret (result, this).

(** ** Searching a target list *)

Section TargetSearch.
(** [TargetID::bits.device_id]; the layout of the union is declared in
    [hermes_types.h], so the accessor is a parameter. *)
Variable bits_device_id : TargetID -> Z.

(** The loop stops at the first match ([break]); without a match the
    zero-initialised [result] is returned. *)
Fixpoint FindTargetIdFromDeviceId (targets : list TargetID) (device_id : Z) :
  TargetID :=
  match targets with
  | [] => 0
  | target :: rest =>
      if bits_device_id target =? device_id then target
      else FindTargetIdFromDeviceId rest device_id
  end.
End TargetSearch.

(** ** Further operations of the directory

    Keys are C strings in the source ([name.c_str()]); a name here is the
    string up to its terminator. *)

Section DirectoryMore.
Context `{HermesParams}.

Definition PutBucketId (rpc : RpcContext) (name : string) (id : BucketID) :
  St Cluster unit :=
  PutId rpc name id kMapType_Bucket.

Definition DeleteId (rpc : RpcContext) (name : string) (map_type : MapType) :
  St Cluster unit :=
  let target_node := HashString rpc name in
  if target_node =? node_id rpc then Local rpc (LocalDelete name map_type)
  else RpcCall rpc target_node (LocalDelete name map_type).

Definition DeleteBucketId (rpc : RpcContext) (name : string) : St Cluster unit :=
  DeleteId rpc name kMapType_Bucket.

Definition DeleteBlobId (rpc : RpcContext) (name : string) (bucket_id : BucketID) :
  St Cluster unit :=
  let internal_name := MakeInternalBlobName name bucket_id in
  DeleteId rpc internal_name kMapType_Blob.

Definition RenameBlob (rpc : RpcContext) (old_name new_name : string)
    (bucket_id : BucketID) : St Cluster unit :=
  blob_id <- GetBlobId rpc old_name bucket_id ;;
  if negb (IsNullBlobId blob_id) then
    DeleteBlobId rpc old_name bucket_id ;;;
    PutBlobId rpc new_name blob_id bucket_id
  else ret tt.

Definition LocalRenameBucket (rpc : RpcContext) (id : BucketID)
    (old_name new_name : string) : St Cluster unit :=
  DeleteBucketId rpc old_name ;;;
  PutBucketId rpc new_name id.

(** Modelled from the spec: the handler of [RemoteRenameBucket] is
    registered outside [src/]; by section 4.E the remote path is the
    [Local] variant, so the target node runs [LocalRenameBucket] with its
    own [RpcContext]. *)
Definition RenameBucket (rpc : RpcContext) (id : BucketID)
    (old_name new_name : string) : St Cluster unit :=
  let target_node := Bits.node_id id in
  if target_node =? node_id rpc then LocalRenameBucket rpc id old_name new_name
  else
    RpcCall rpc target_node (ret tt) ;;;
    LocalRenameBucket {| node_id := target_node; num_nodes := num_nodes rpc |}
      id old_name new_name.

Definition Bucket_RenameBlob (this : Bucket) (old_name new_name : string) :
  St Cluster Status :=
  if IsBlobNameTooLong new_name then ret BLOB_NAME_TOO_LONG
  else
    RenameBlob (rpc_ this) old_name new_name (id_ this) ;;;
    ret HERMES_SUCCESS.

Definition Bucket_Rename (this : Bucket) (new_name : string) : St Cluster Status :=
  if IsBucketNameTooLong new_name then ret BUCKET_NAME_TOO_LONG
  else
    RenameBucket (rpc_ this) (id_ this) (name_ this) new_name ;;;
    ret HERMES_SUCCESS.

Definition Bucket_BlobIsInSwap (this : Bucket) (name : string) : St Cluster bool :=
  blob_id <- GetBlobId (rpc_ this) name (id_ this) ;;
  ret (BlobIsInSwap blob_id).
End DirectoryMore.

(** [result[i] = global_svs->bytes_available[i].load()], [n] turns to go. *)
Fixpoint LocalGetGlobalDeviceCapacities_loop (i n : nat) (global_svs : SystemViewState)
    (result : list Z) : option (list Z) :=
  match n with
  | O => Some result
  | S n' =>
      match bytes_available global_svs !! i with
      | Some v =>
          LocalGetGlobalDeviceCapacities_loop (S i) n' global_svs (<[i := v]> result)
      | None => None
      end
  end.

Definition LocalGetGlobalDeviceCapacities : St SharedMemoryContext (list Z) :=
  global_svs <- GetGlobalSystemViewState ;;
  let result := replicate (Z.to_nat (svs_num_devices global_svs)) 0 in
  match LocalGetGlobalDeviceCapacities_loop 0 (length result) global_svs result with
  | Some result => ret result
  | None => abort
  end.

Definition GetGlobalDeviceCapacities (rpc : RpcContext) : St Cluster (list Z) :=
  context <- Local rpc get ;;
  let target_node :=
    global_system_view_state_node_id (GetMetadataManagerFromContext context) in
  if target_node =? node_id rpc then Local rpc LocalGetGlobalDeviceCapacities
  else RpcCall rpc target_node LocalGetGlobalDeviceCapacities.

(** ** Removing and finding blobs

    [ReleaseBuffers] is declared in [buffer_pool.h] and defined outside
    [src/]; [LocalFreeBufferIdList], [LocalRemoveBlobFromBucketInfo] and
    [LocalContainsBlob] are defined in [metadata_storage.cc].  They are
    parameters here: what follows holds whatever they do. *)

Section BlobRemoval.
Context `{HermesParams}.
Variable ReleaseBuffers : RpcContext -> list BufferID -> St Cluster unit.
Variable LocalFreeBufferIdList : BlobID -> St SharedMemoryContext unit.
Variable LocalRemoveBlobFromBucketInfo :
  BucketID -> BlobID -> St SharedMemoryContext unit.
Variable LocalContainsBlob : BucketID -> BlobID -> St SharedMemoryContext bool.

Definition FreeBufferIdList (rpc : RpcContext) (blob_id : BlobID) : St Cluster unit :=
  let target_node := GetBlobNodeId blob_id in
  if target_node =? node_id rpc then Local rpc (LocalFreeBufferIdList blob_id)
  else RpcCall rpc target_node (LocalFreeBufferIdList blob_id).

Definition LocalDestroyBlobByName (rpc : RpcContext) (blob_name : string)
    (blob_id : BlobID) (bucket_id : BucketID) : St Cluster unit :=
  (if negb (BlobIsInSwap blob_id) then
     buffer_ids <- GetBufferIdList rpc blob_id ;;
     ReleaseBuffers rpc buffer_ids
   else ret tt) ;;;
  FreeBufferIdList rpc blob_id ;;;
  DeleteBlobId rpc blob_name bucket_id.

Definition RemoveBlobFromBucketInfo (rpc : RpcContext) (bucket_id : BucketID)
    (blob_id : BlobID) : St Cluster unit :=
  let target_node := Bits.node_id bucket_id in
  if target_node =? node_id rpc then
    Local rpc (LocalRemoveBlobFromBucketInfo bucket_id blob_id)
  else RpcCall rpc target_node (LocalRemoveBlobFromBucketInfo bucket_id blob_id).

(** Modelled from the spec: the handler of [RemoteDestroyBlobByName] is
    registered outside [src/]; by section 4.E the remote path is the
    [Local] variant, which the target node runs with its own
    [RpcContext]. *)
Definition DestroyBlobByName (rpc : RpcContext) (bucket_id : BucketID)
    (blob_name : string) : St Cluster unit :=
  blob_id <- GetBlobId rpc blob_name bucket_id ;;
  if negb (IsNullBlobId blob_id) then
    let blob_id_target_node := GetBlobNodeId blob_id in
    (if blob_id_target_node =? node_id rpc then
       LocalDestroyBlobByName rpc blob_name blob_id bucket_id
     else
       RpcCall rpc blob_id_target_node (ret tt) ;;;
       LocalDestroyBlobByName
         {| node_id := blob_id_target_node; num_nodes := num_nodes rpc |}
         blob_name blob_id bucket_id) ;;;
    RemoveBlobFromBucketInfo rpc bucket_id blob_id
  else ret tt.

Definition ContainsBlob (rpc : RpcContext) (bucket_id : BucketID)
    (blob_name : string) : St Cluster bool :=
  blob_id <- GetBlobId rpc blob_name bucket_id ;;
  let result := false in
  if negb (IsNullBlobId blob_id) then
    let target_node := Bits.node_id bucket_id in
    if target_node =? node_id rpc then
      Local rpc (LocalContainsBlob bucket_id blob_id)
    else RpcCall rpc target_node (LocalContainsBlob bucket_id blob_id)
  else ret result.

Definition Bucket_DeleteBlob (this : Bucket) (name : string) : St Cluster Status :=
  DestroyBlobByName (rpc_ this) (id_ this) name ;;;
  ret HERMES_SUCCESS.

Definition Bucket_ContainsBlob (this : Bucket) (name : string) : St Cluster bool :=
  ContainsBlob (rpc_ this) (id_ this) name.
End BlobRemoval.

(** ** The balanced page mapper
    ([adapter/src/hermes/adapter/stdio/mapper/balanced_mapper.cpp])

    [FileStruct], [HermesStruct], [FileID] and [PAGE_SIZE] are declared in
    headers outside [src/]: the records have the members that
    [BalancedMapper::map] reads and writes, as [size_t]; the type of a file
    id, the value its default constructor leaves, its [std::hash] and the
    page size are parameters. *)

Section Mapper.
Variable FileID : Type.
Variable FileID_default : FileID.
Variable file_hash_t : FileID -> Z.
Variable PAGE_SIZE : Z.

Record FileStruct := {
  file_id_ : FileID;
  offset_ : Z;                                       (* size_t *)
  size_ : Z                                          (* size_t *)
}.

Record HermesStruct := {
  blob_name_ : string;
  hermes_offset_ : Z;                                (* size_t *)
  hermes_size_ : Z                                   (* size_t *)
}.

(** [std::to_string] of a [size_t]. *)
Definition to_string (x : Z) : string := pretty (Z.to_N x).

(** [while (file_op.size_ > size_mapped)], with at most [fuel] turns; a
    division by a zero [PAGE_SIZE] does not return. *)
Fixpoint BalancedMapper_map_loop (fuel : nat) (file_op : FileStruct)
    (file_hash size_mapped : Z) (mapper_return : list (FileStruct * HermesStruct)) :
  option (list (FileStruct * HermesStruct)) :=
  if size_ file_op >? size_mapped then
    match fuel with
    | O => None
    | S fuel' =>
        if PAGE_SIZE =? 0 then None
        else
          let file_offset := to_u64 (offset_ file_op + size_mapped) in
          let page_index := file_offset / PAGE_SIZE in
          let hermes_offset := file_offset mod PAGE_SIZE in
          let hermes_size := to_u64 ((page_index + 1) * PAGE_SIZE - hermes_offset) in
          let file := {| file_id_ := FileID_default; offset_ := file_offset;
                         size_ := hermes_size |} in
          let hermes :=
            {| blob_name_ :=
                 (to_string file_hash +:+ "_" +:+ to_string page_index)%string;
               hermes_offset_ := hermes_offset;
               hermes_size_ := hermes_size |} in
          BalancedMapper_map_loop fuel' file_op file_hash
            (to_u64 (size_mapped + hermes_size)) (mapper_return ++ [(file, hermes)])
    end
  else Some mapper_return.

Definition BalancedMapper_map (fuel : nat) (file_op : FileStruct) :
  option (list (FileStruct * HermesStruct)) :=
  let mapper_return := [] in
  let size_mapped := 0 in
  let file_hash := file_hash_t (file_id_ file_op) in
  BalancedMapper_map_loop fuel file_op file_hash size_mapped mapper_return.
End Mapper.

Arguments file_id_ {FileID} _.
Arguments offset_ {FileID} _.
Arguments size_ {FileID} _.

(** ** Readings of the state used in the statements *)

(** The loop of [HexStringToU64] over the characters it consumes. *)
Fixpoint hex_fold (cs : string) (result : Z) : Z :=
  match cs with
  | EmptyString => result
  | String c cs' => hex_fold cs' (hex_step result c)
  end.

(** The sixteen digits [MakeInternalBlobName] writes for the [n] low bytes. *)
Fixpoint hex_prefix (n : nat) (as_int : Z) : string :=
  match n with
  | O => EmptyString
  | S i =>
      let b := byte_at as_int (Z.of_nat i) in
      String (hex_digit (b / 16)) (String (hex_digit (b mod 16)) (hex_prefix i as_int))
  end.

(** The id with the given halves. *)
Definition make_id (node index : Z) : Z := node * 2 ^ 32 + index.

(** The BlobID that [AttachBlobToBucket] synthesises for a blob whose name
    hashes to [owner] and whose buffer-id list sits at [offset]. *)
Definition new_blob_id (owner : Z) (is_swap_blob : bool) (offset : Z) : BlobID :=
  Bits.set_low (Bits.set_high 0 (if is_swap_blob then - owner else owner)) offset.

(** The targets of node [node], and the neighbours of the caller on the
    ring. *)
Definition targets_of (c : Cluster) (node : Z) : list TargetID :=
  match c !! node_slot node with
  | Some context => node_targets context
  | None => []
  end.

Definition ring_next (rpc : RpcContext) : Z :=
  if node_id rpc =? num_nodes rpc then 1 else node_id rpc + 1.

Definition ring_prev (rpc : RpcContext) : Z :=
  if node_id rpc =? 1 then num_nodes rpc else node_id rpc - 1.

(** The pending adjustment of device [i] on a node, and what the global
    view on a node holds for device [i]. *)
Definition pending_adjustment (c : Cluster) (node : Z) (i : nat) : Z :=
  match c !! node_slot node with
  | Some context => default 0 (capacity_adjustments (pool context) !! i)
  | None => 0
  end.

Definition global_bytes_available (c : Cluster) (node : Z) (i : nat) : Z :=
  match c !! node_slot node with
  | Some context =>
      match global_system_view_state (mdm context) with
      | Some state => default 0 (bytes_available state !! i)
      | None => 0
      end
  | None => 0
  end.

(** A shared memory whose slot [index] holds [info]. *)
Definition with_bucket_info (context : SharedMemoryContext) (index : Z)
    (info : BucketInfo) : SharedMemoryContext :=
  set_mdm context
    (set_slots (mdm context)
       (<[Z.to_nat index := info]> (bucket_info (mdm context)))
       (first_free_bucket (mdm context)) (num_buckets (mdm context))).

(** The ref-count of the bucket [id] in the table of node [node]. *)
Definition bucket_ref_count (c : Cluster) (node : Z) (id : BucketID) : option Z :=
  match c !! node_slot node with
  | Some context =>
      match LocalGetBucketInfoById (mdm context) id with
      | Some info => Some (ref_count info)
      | None => None
      end
  | None => None
  end.

(** The id that the bucket map of node [node] holds for [name]. *)
Definition bucket_id_of (c : Cluster) (node : Z) (name : string) : BucketID :=
  match c !! node_slot node with
  | Some context => GetFromStorage (mdm context) name kMapType_Bucket
  | None => 0
  end.

(** The shared memory after the first free slot was handed to [name]. *)
Definition with_new_bucket (context : SharedMemoryContext) (name : string)
    (info : BucketInfo) : SharedMemoryContext :=
  let m := mdm context in
  set_mdm context
    (PutToStorage
       (set_slots m
          (<[Z.to_nat (Bits.index (first_free_bucket m)) :=
               {| next_free := next_free info; blobs := []; stats := 0;
                  ref_count := 1; active := true |}]> (bucket_info m))
          (next_free info) (to_u32 (num_buckets m + 1)))
       name (first_free_bucket m) kMapType_Bucket).

(** One [LocalGetOrCreateBucketId] per name, in order. *)
Fixpoint LocalGetOrCreateBucketIds (names : list string) :
  St SharedMemoryContext (list BucketID) :=
  match names with
  | [] => ret []
  | name :: rest =>
      id <- LocalGetOrCreateBucketId name ;;
      ids <- LocalGetOrCreateBucketIds rest ;;
      ret (id :: ids)
  end.

(** The slot pool of node [node] after [k] buckets, those of [opened], were
    created on a fresh table of [max] slots: slots [k], [k + 1], ... are
    chained in order and the last one ends the chain. *)
Definition slots_free_from (node max : Z) (k : nat) (opened : list string)
    (m : MetadataManager) : Prop :=
  num_buckets m = Z.of_nat k /\
  max_buckets m = max /\
  length (bucket_info m) = Z.to_nat max /\
  (Z.of_nat k < max -> first_free_bucket m = make_id node (Z.of_nat k)) /\
  (forall (j : nat) (info : BucketInfo),
     (k <= j)%nat -> Z.of_nat j + 1 < max -> bucket_info m !! j = Some info ->
     next_free info = make_id node (Z.of_nat j + 1)) /\
  (forall s : string, s ∉ opened -> bucket_map m !! s = None).

(** ** A sample installation *)

(** A sample installation: the name maxima of a usual build, and a hash
    that adds up the bytes of the key. *)
Fixpoint sum_of_bytes (s : string) : Z :=
  match s with
  | EmptyString => 0
  | String c s' => Z.of_nat (nat_of_ascii c) + sum_of_bytes s'
  end.

Definition sample_params : HermesParams :=
  {| kMaxBucketNameSize := 256;
     kMaxVBucketNameSize := 256;
     kMaxBlobNameSize := 64;
     HashStringForStorage := fun rpc s => sum_of_bytes s mod num_nodes rpc + 1 |}.

Definition name_of_size (n : nat) : string := string_of_list_ascii (repeat "x"%char n).

Definition sample_swap_blob : SwapBlob :=
  {| swap_node_id := 3; swap_offset := 4096; swap_size := 100;
     swap_bucket_id := 2 ^ 32 + 5 |}.

Definition sample_config : Config :=
  {| capacities := [1000; 2000]; cfg_num_devices := 2;
     max_buckets_per_node := 2; max_vbuckets_per_node := 2;
     cfg_system_view_state_update_interval_ms := 100 |}.

Definition sample_context (node : Z) (targets : list TargetID)
    (adjustments : list Z) : SharedMemoryContext :=
  {| mdm := InitMetadataManager sample_config node;
     pool := {| capacity_adjustments := adjustments; num_devices := 2 |};
     node_targets := targets |}.

Definition sample_cluster3 : Cluster :=
  [sample_context 1 [11; 12] [0; 0];
   sample_context 2 [21; 22] [-100; 50];
   sample_context 3 [31; 32] [0; 0]].

Definition sample_rpc : RpcContext := {| node_id := 1; num_nodes := 3 |}.

(** The sample installation after node 1 has opened the bucket ["b"], which
    the sample hash places on node 3. *)
Definition sample_open_cluster : Cluster :=
  match @GetOrCreateBucketId sample_params sample_rpc "b" sample_cluster3 with
  | Some (_, c) => c
  | None => []
  end.

Definition sample_bucket : Bucket :=
  {| name_ := "b"; id_ := 3 * 2 ^ 32; rpc_ := sample_rpc |}.

Definition sample_open_context : SharedMemoryContext :=
  nth 2 sample_open_cluster (sample_context 3 [] []).

Definition sample_open_info : BucketInfo :=
  nth 0 (bucket_info (mdm sample_open_context)) BucketInfo_zero.

(** The sample installation after node 1 has created the bucket ["c"],
    which the sample hash places on node 1 itself. *)
Definition sample_cluster_c : Cluster :=
  match @GetOrCreateBucketId sample_params sample_rpc "c" sample_cluster3 with
  | Some (_, c) => c
  | None => []
  end.

(** What [AttachBlobToBucket] does to the shared memory [x] of the node in
    slot [s], giving [z]: the owner of the blob name ([so]) gets the
    buffer-id list, the owner of the internal name ([sk]) the binding of the
    key, the node of the bucket ([sb]) the new entry of the blob list, and
    nothing else changes. *)
Definition AttachEffect (so sk sb : nat) (key : string) (blob_id : BlobID)
    (buffer_ids : list BufferID) (bucket_id : BucketID) (binfo : BucketInfo)
    (s : nat) (x z : SharedMemoryContext) : Prop :=
  pool z = pool x /\
  node_targets z = node_targets x /\
  bucket_map (mdm z) = bucket_map (mdm x) /\
  vbucket_map (mdm z) = vbucket_map (mdm x) /\
  id_lists (mdm z) =
    (if decide (s = so) then id_lists (mdm x) ++ [buffer_ids] else id_lists (mdm x)) /\
  blob_map (mdm z) =
    (if decide (s = sk) then <[key := blob_id]> (blob_map (mdm x))
     else blob_map (mdm x)) /\
  blob_reverse_map (mdm z) !! blob_id =
    (if decide (s = sk) then Some key else blob_reverse_map (mdm x) !! blob_id) /\
  bucket_info (mdm z) =
    (if decide (s = sb)
     then <[Z.to_nat (Bits.index bucket_id) :=
              set_blobs binfo (blobs binfo ++ [blob_id])]> (bucket_info (mdm x))
     else bucket_info (mdm x)).
(** The blob list of the bucket [id] in the table of node [node]. *)
Definition bucket_blobs (c : Cluster) (node : Z) (id : BucketID) :
  option (list BlobID) :=
  match c !! node_slot node with
  | Some context =>
      match LocalGetBucketInfoById (mdm context) id with
      | Some info => Some (blobs info)
      | None => None
      end
  | None => None
  end.

(** The [RpcContext] under which the handler of a call to [target_node]
    runs: the caller's own when the call is local, that of the target
    otherwise. *)
Definition handler_rpc (rpc : RpcContext) (target_node : Z) : RpcContext :=
  if target_node =? node_id rpc then rpc
  else {| node_id := target_node; num_nodes := num_nodes rpc |}.

(** An installation whose every node has just been initialised from
    [config]. *)
Definition freshly_initialised (config : Config) (c : Cluster) : Prop :=
  forall (k : nat) (context : SharedMemoryContext),
    c !! k = Some context ->
    mdm context = InitMetadataManager config (Z.of_nat k + 1).

(** Where a list of pieces ends when each piece begins where the one
    before it ended, the first at [start]. *)
Fixpoint chain_end {FileID : Type} (start : Z)
    (pieces : list (FileStruct FileID * HermesStruct)) : option Z :=
  match pieces with
  | [] => Some start
  | (file, _) :: rest =>
      if offset_ file =? start then chain_end (start + size_ file) rest else None
  end.

(** What [BalancedMapper::map] makes of the piece that begins at file
    offset [offset_ file]: the piece begins in page [p] at the offset of the
    file offset in that page and ends with page [2 * p]. *)
Definition piece_of_page {FileID : Type} (PAGE_SIZE file_hash : Z)
    (piece : FileStruct FileID * HermesStruct) : Prop :=
  let (file, hermes) := piece in
  let p := offset_ file / PAGE_SIZE in
  hermes_offset_ hermes = offset_ file mod PAGE_SIZE /\
  hermes_size_ hermes = size_ file /\
  0 < size_ file /\
  offset_ file + size_ file = (2 * p + 1) * PAGE_SIZE /\
  blob_name_ hermes = (to_string file_hash +:+ "_" +:+ to_string p)%string.

(** The sample installation with bucket ["b"] open, after node 1 has
    attached the blob ["k"] to it. *)
Definition sample_blob_cluster : Cluster :=
  match @AttachBlobToBucket sample_params sample_rpc "k" (3 * 2 ^ 32) [7; 8] false
          sample_open_cluster with
  | Some (_, c) => c
  | None => []
  end.

(** Every character is below 128: [(int)s[i]] is then not negative, whether
    [char] is signed or not. *)
Definition seven_bit (s : string) : bool :=
  forallb (fun c => Nat.ltb (nat_of_ascii c) 128) (list_ascii_of_string s).

(** * Properties *)

(** ** Machine integers in range *)

Lemma to_u32_small x : 0 <= x < 2 ^ 32 -> to_u32 x = x.
Proof. intros Hx. unfold to_u32. apply Z.mod_small. exact Hx. Qed.

Lemma to_u64_small x : 0 <= x < 2 ^ 64 -> to_u64 x = x.
Proof. intros Hx. unfold to_u64. apply Z.mod_small. exact Hx. Qed.

Lemma to_i32_small x : 0 <= x < 2 ^ 31 -> to_i32 x = x.
Proof.
  intros Hx. unfold to_i32. rewrite Z.mod_small by lia.
  destruct (Z.ltb_spec x (2 ^ 31)); lia.
Qed.

Lemma to_i32_neg x : - 2 ^ 31 <= x < 0 -> to_i32 x = x.
Proof.
  intros Hx. unfold to_i32.
  replace (x mod 2 ^ 32) with (x + 2 ^ 32).
  - destruct (Z.ltb_spec (x + 2 ^ 32) (2 ^ 31)); lia.
  - apply Z.mod_unique with (q := -1); lia.
Qed.

Lemma to_i32_to_u32 (v : Z) : - 2 ^ 31 <= v < 2 ^ 31 -> to_i32 (to_u32 v) = v.
Proof.
  intros Hv. unfold to_u32, to_i32. rewrite Z.mod_mod by lia.
  destruct (Z.lt_ge_cases v 0).
  - fold (to_i32 v). apply to_i32_neg. lia.
  - fold (to_i32 v). apply to_i32_small. lia.
Qed.

Lemma to_u32_range (v : Z) : 0 <= to_u32 v < 2 ^ 32.
Proof. unfold to_u32. apply Z.mod_pos_bound. lia. Qed.

Lemma to_u64_idem x : to_u64 (to_u64 x) = to_u64 x.
Proof. unfold to_u64. apply Z.mod_mod. lia. Qed.

(** ** Fields of identifiers *)

Lemma Bits_index_make_id (node index : Z) :
  0 <= index < 2 ^ 32 -> Bits.index (make_id node index) = index.
Proof.
  intros Hi. unfold Bits.index, Bits.low, make_id.
  rewrite Z.add_comm, Z.mod_add by lia. apply Z.mod_small. exact Hi.
Qed.

Lemma Bits_node_id_make_id (node index : Z) :
  0 <= index < 2 ^ 32 -> Bits.node_id (make_id node index) = node.
Proof.
  intros Hi. unfold Bits.node_id, Bits.high, make_id.
  rewrite Z.div_add_l by lia. rewrite Z.div_small by exact Hi. lia.
Qed.

Lemma make_id_nonzero (node index : Z) :
  1 <= node -> 0 <= index -> make_id node index <> 0.
Proof. unfold make_id. lia. Qed.

Lemma set_fields_make_id (old node index : Z) :
  0 <= node < 2 ^ 32 -> 0 <= index < 2 ^ 32 ->
  Bits.set_low (Bits.set_high old node) index = make_id node index.
Proof.
  intros Hn Hi. unfold Bits.set_low, Bits.set_high, Bits.high, Bits.low, make_id.
  rewrite !to_u32_small by assumption.
  rewrite Z.div_add_l by lia.
  rewrite Z.div_small by (apply Z.mod_pos_bound; lia). lia.
Qed.

Lemma Bits_low_set_low (x v : Z) : Bits.low (Bits.set_low x v) = to_u32 v.
Proof.
  unfold Bits.low, Bits.set_low. rewrite Z.add_comm, Z.mod_add by lia.
  apply Z.mod_small, to_u32_range.
Qed.

Lemma Bits_high_set_low (x v : Z) : Bits.high (Bits.set_low x v) = Bits.high x.
Proof.
  unfold Bits.high at 1. unfold Bits.set_low. rewrite Z.div_add_l by lia.
  rewrite (Z.div_small (to_u32 v)) by apply to_u32_range. lia.
Qed.

Lemma Bits_high_set_high_0 (v : Z) : Bits.high (Bits.set_high 0 v) = to_u32 v.
Proof.
  unfold Bits.high, Bits.set_high, Bits.low. rewrite Z.div_add_l by lia.
  change (0 mod 2 ^ 32 / 2 ^ 32) with 0. lia.
Qed.

Lemma new_blob_id_node (owner : Z) (is_swap_blob : bool) (offset : Z) :
  1 <= owner < 2 ^ 31 ->
  Bits.blob_node_id (new_blob_id owner is_swap_blob offset)
  = if is_swap_blob then - owner else owner.
Proof.
  intros Ho. unfold Bits.blob_node_id, new_blob_id.
  rewrite Bits_high_set_low, Bits_high_set_high_0.
  apply to_i32_to_u32. destruct is_swap_blob; lia.
Qed.

Lemma GetBlobNodeId_new_blob_id (owner : Z) (is_swap_blob : bool) (offset : Z) :
  1 <= owner < 2 ^ 31 ->
  GetBlobNodeId (new_blob_id owner is_swap_blob offset) = owner.
Proof.
  intros Ho. unfold GetBlobNodeId. rewrite new_blob_id_node by exact Ho.
  destruct is_swap_blob; rewrite ?Z.abs_opp, Z.abs_eq by lia; apply to_u32_small; lia.
Qed.

Lemma BlobIsInSwap_new_blob_id (owner : Z) (is_swap_blob : bool) (offset : Z) :
  1 <= owner < 2 ^ 31 ->
  BlobIsInSwap (new_blob_id owner is_swap_blob offset) = is_swap_blob.
Proof.
  intros Ho. unfold BlobIsInSwap. rewrite new_blob_id_node by exact Ho.
  destruct is_swap_blob; [apply Z.ltb_lt | apply Z.ltb_ge]; lia.
Qed.

Lemma new_blob_id_offset (owner : Z) (is_swap_blob : bool) (offset : Z) :
  0 <= offset < 2 ^ 32 ->
  Bits.buffer_ids_offset (new_blob_id owner is_swap_blob offset) = offset.
Proof.
  intros Ho. unfold Bits.buffer_ids_offset, new_blob_id.
  rewrite Bits_low_set_low. apply to_u32_small. exact Ho.
Qed.

(** ** Name validation *)

Lemma IsNameTooLong_true_iff name max :
  IsNameTooLong name max = true <-> max - 1 <= size name.
Proof.
  unfold IsNameTooLong. destruct (Z.geb_spec (size name + 1) max); split; intros; try lia; try discriminate; reflexivity.
Qed.

Lemma IsNameTooLong_false_iff name max :
  IsNameTooLong name max = false <-> size name <= max - 2.
Proof.
  unfold IsNameTooLong. destruct (Z.geb_spec (size name + 1) max); split; intros; try lia; try discriminate; reflexivity.
Qed.

Section NameBoundary.
Context `{HermesParams}.

(** C1, as the code decides it: a bucket name of exactly
    [kMaxBucketNameSize - 1] bytes is reported too long, and the [Bucket]
    constructor throws [length_error] without touching the installation. *)
Theorem bucket_name_one_below_maximum_is_rejected
    (name : string) (h : RpcContext) (c : Cluster) :
  size name = kMaxBucketNameSize - 1 ->
  IsBucketNameTooLong name = true /\
  Bucket_new name h c = Some (inl length_error, c).
Proof.
  intros Hsize.
  assert (Hlong : IsBucketNameTooLong name = true)
    by (apply IsNameTooLong_true_iff; lia).
  split; [exact Hlong|]. unfold Bucket_new. cbn [name_]. rewrite Hlong. reflexivity.
Qed.

Lemma vbucket_name_one_below_maximum_is_rejected (name : string) :
  size name = kMaxVBucketNameSize - 1 -> IsVBucketNameTooLong name = true.
Proof. intros Hsize. apply IsNameTooLong_true_iff. lia. Qed.

Lemma blob_name_one_below_maximum_is_rejected (name : string) :
  size name = kMaxBlobNameSize - 1 -> IsBlobNameTooLong name = true.
Proof. intros Hsize. apply IsNameTooLong_true_iff. lia. Qed.

Lemma bucket_name_two_below_maximum_passes (name : string) :
  size name = kMaxBucketNameSize - 2 -> IsBucketNameTooLong name = false.
Proof. intros Hsize. apply IsNameTooLong_false_iff. lia. Qed.

Lemma bucket_name_of_maximum_is_rejected (name : string) :
  size name = kMaxBucketNameSize -> IsBucketNameTooLong name = true.
Proof. intros Hsize. apply IsNameTooLong_true_iff. lia. Qed.
End NameBoundary.

Lemma bucket_name_one_below_maximum_is_rejected_witness :
  size (name_of_size 255) = @kMaxBucketNameSize sample_params - 1 /\
  @IsBucketNameTooLong sample_params (name_of_size 255) = true /\
  @Bucket_new sample_params (name_of_size 255) {| node_id := 1; num_nodes := 3 |}
    sample_cluster3 = Some (inl length_error, sample_cluster3).
Proof.
  split; [reflexivity|].
  apply (@bucket_name_one_below_maximum_is_rejected sample_params). reflexivity.
Defined.

(** ** Internal blob names round-trip *)

Lemma small_cases (P : Z -> Prop) (n : nat) :
  (forall k : nat, (k < n)%nat -> P (Z.of_nat k)) ->
  forall d, 0 <= d < Z.of_nat n -> P d.
Proof.
  intros HP d Hd. rewrite <- (Z2Nat.id d) by lia. apply HP. lia.
Qed.

Lemma hextable_hex_digit d :
  0 <= d < 16 -> nth (char_code (hex_digit d)) hextable 0 = d.
Proof.
  revert d. apply (small_cases _ 16). intros k Hk.
  do 16 (destruct k as [|k]; [reflexivity|]). lia.
Qed.

Lemma put_hex_byte_digits ss b :
  0 <= b < 256 ->
  put_hex_byte ss b =
  (ss +:+ String (hex_digit (b / 16)) (String (hex_digit (b mod 16)) EmptyString))%string.
Proof.
  intros Hb. unfold put_hex_byte. f_equal.
  cbn [hex_digits]. destruct (Z.ltb_spec b 16) as [Hlt|Hge].
  - rewrite Z.div_small, Z.mod_small by lia. reflexivity.
  - destruct (Z.ltb_spec (b / 16) 16) as [_|Hbig].
    + reflexivity.
    + exfalso. assert (b / 16 < 16) by (apply Z.div_lt_upper_bound; lia). lia.
Qed.

Lemma testbit_small d n : 0 <= d < 16 -> 4 <= n -> Z.testbit d n = false.
Proof.
  intros Hd Hn. apply Z.testbit_false; [lia|].
  rewrite Z.div_small; [reflexivity|]. split; [lia|].
  apply Z.lt_le_trans with (2 ^ 4); [lia|]. apply Z.pow_le_mono_r; lia.
Qed.

Lemma land_shiftl_small r d : 0 <= d < 16 -> Z.land (Z.shiftl r 4) d = 0.
Proof.
  intros Hd. apply Z.bits_inj'. intros n Hn. rewrite Z.land_spec, Z.bits_0.
  destruct (Z.ltb_spec n 4) as [Hlt|Hge].
  - rewrite Z.shiftl_spec_low by lia. reflexivity.
  - rewrite (testbit_small d n) by lia. apply andb_false_r.
Qed.

Lemma hex_step_digit r d :
  0 <= r < 2 ^ 60 -> 0 <= d < 16 -> hex_step r (hex_digit d) = 16 * r + d.
Proof.
  intros Hr Hd. unfold hex_step. rewrite hextable_hex_digit by assumption.
  unfold to_u64. rewrite Z.mod_small by (rewrite Z.shiftl_mul_pow2; lia).
  rewrite <- Z.lxor_lor, <- Z.add_nocarry_lxor by (apply land_shiftl_small; assumption).
  rewrite Z.shiftl_mul_pow2; lia.
Qed.

Lemma hex_step_byte r b :
  0 <= r < 2 ^ 56 -> 0 <= b < 256 ->
  hex_step (hex_step r (hex_digit (b / 16))) (hex_digit (b mod 16)) = 256 * r + b.
Proof.
  intros Hr Hb.
  assert (0 <= b / 16 < 16) by (split; [apply Z.div_pos; lia | apply Z.div_lt_upper_bound; lia]).
  assert (0 <= b mod 16 < 16) by (apply Z.mod_pos_bound; lia).
  rewrite (hex_step_digit r) by lia. rewrite hex_step_digit by lia.
  pose proof (Z.div_mod b 16). lia.
Qed.

Lemma byte_at_range x i : 0 <= byte_at x i < 256.
Proof. unfold byte_at, to_u8. apply Z.mod_pos_bound. lia. Qed.

Lemma hex_fold_prefix as_int n :
  (n <= 8)%nat ->
  forall r, 0 <= r < 256 ^ (8 - Z.of_nat n) ->
  hex_fold (hex_prefix n as_int) r = r * 256 ^ Z.of_nat n + as_int mod 256 ^ Z.of_nat n.
Proof.
  induction n as [|i IH]; intros Hn r Hr.
  - cbn. rewrite Z.mod_1_r. lia.
  - cbn [hex_prefix hex_fold].
    pose proof (byte_at_range as_int (Z.of_nat i)) as Hb.
    assert (H56 : 256 ^ (8 - Z.of_nat (S i)) <= 2 ^ 56).
    { change (2 ^ 56) with (256 ^ 7). apply Z.pow_le_mono_r; lia. }
    assert (Hpow : 256 ^ (8 - Z.of_nat i) = 256 * 256 ^ (8 - Z.of_nat (S i))).
    { replace (8 - Z.of_nat i) with (Z.succ (8 - Z.of_nat (S i))) by lia.
      apply Z.pow_succ_r. lia. }
    rewrite hex_step_byte by lia.
    rewrite IH by lia.
    replace (Z.of_nat (S i)) with (Z.succ (Z.of_nat i)) by lia.
    rewrite Z.pow_succ_r by lia.
    rewrite (Z.mul_comm 256 (256 ^ Z.of_nat i)).
    rewrite Z.rem_mul_r by lia.
    unfold byte_at, to_u8.
    replace (2 ^ (8 * Z.of_nat i)) with (256 ^ Z.of_nat i).
    2:{ change 256 with (2 ^ 8). rewrite <- Z.pow_mul_r by lia. reflexivity. }
    change (2 ^ 8) with 256. lia.
Qed.

Lemma append_nil_l (s : string) : (EmptyString +:+ s)%string = s.
Proof. reflexivity. Qed.

Lemma append_cons (x : ascii) (a b : string) :
  (String x a +:+ b)%string = String x (a +:+ b).
Proof. reflexivity. Qed.

Lemma append_nil_r (s : string) : (s +:+ EmptyString)%string = s.
Proof.
  induction s as [|x s IH]; [reflexivity|]. rewrite append_cons, IH. reflexivity.
Qed.

Lemma append_assoc (a b c : string) :
  ((a +:+ b) +:+ c = a +:+ (b +:+ c))%string.
Proof.
  induction a as [|x a IH]; [reflexivity|]. rewrite !append_cons, IH. reflexivity.
Qed.

Lemma append_length (a b : string) :
  String.length (a +:+ b) = (String.length a + String.length b)%nat.
Proof.
  induction a as [|x a IH]; [reflexivity|].
  rewrite append_cons. cbn [String.length]. rewrite IH. reflexivity.
Qed.

Lemma char_at_append (p : string) (c : ascii) (q : string) :
  char_at (p +:+ String c q) (String.length p) = c.
Proof.
  unfold char_at. induction p as [|x p IH]; [reflexivity|].
  rewrite append_cons. exact IH.
Qed.

Lemma HexStringToU64_loop_append (cs p rest : string) (r : Z) :
  HexStringToU64_loop (p +:+ cs +:+ rest) (String.length p) (String.length cs) r =
  hex_fold cs r.
Proof.
  revert p r. induction cs as [|c cs IH]; intros p r; [reflexivity|].
  rewrite append_cons. cbn [String.length HexStringToU64_loop hex_fold].
  rewrite char_at_append.
  specialize (IH (p +:+ String c EmptyString)%string (hex_step r c)).
  rewrite append_assoc, append_length, append_cons, append_nil_l in IH.
  cbn [String.length] in IH. rewrite Nat.add_1_r in IH. exact IH.
Qed.

Lemma MakeInternalBlobName_loop_prefix as_int n ss :
  MakeInternalBlobName_loop n as_int ss = (ss +:+ hex_prefix n as_int)%string.
Proof.
  revert ss. induction n as [|i IH]; intros ss; cbn [MakeInternalBlobName_loop hex_prefix].
  - rewrite append_nil_r. reflexivity.
  - rewrite IH. rewrite put_hex_byte_digits by apply byte_at_range.
    rewrite append_assoc, !append_cons, append_nil_l. reflexivity.
Qed.

Lemma hex_prefix_length as_int n : String.length (hex_prefix n as_int) = (2 * n)%nat.
Proof. induction n as [|i IH]; cbn [hex_prefix String.length]; lia. Qed.

Lemma MakeInternalBlobName_prefix name id :
  MakeInternalBlobName name id = (hex_prefix sizeof_BucketID id +:+ name)%string.
Proof.
  unfold MakeInternalBlobName. rewrite MakeInternalBlobName_loop_prefix. reflexivity.
Qed.

Lemma substr_from_append (p s : string) :
  substr_from (String.length p) (p +:+ s) = s.
Proof.
  induction p as [|x p IH]; [destruct s; reflexivity|]. rewrite append_cons. exact IH.
Qed.

(** C4: for every 64-bit BucketID and every blob name, the internal name
    splits back into its components: dropping the first
    [kBucketIdStringSize] characters leaves the blob name, and
    [HexStringToU64] on the internal name returns the id. *)
Theorem MakeInternalBlobName_splits (name : string) (id : BucketID) :
  0 <= id < 2 ^ 64 ->
  substr_from kBucketIdStringSize (MakeInternalBlobName name id) = name /\
  HexStringToU64 (MakeInternalBlobName name id) = id.
Proof.
  intros Hid. rewrite MakeInternalBlobName_prefix. split.
  - replace kBucketIdStringSize with (String.length (hex_prefix sizeof_BucketID id))
      by apply hex_prefix_length.
    apply substr_from_append.
  - unfold HexStringToU64.
    replace kBucketIdStringSize with (String.length (hex_prefix sizeof_BucketID id))
      by apply hex_prefix_length.
    pose proof (HexStringToU64_loop_append (hex_prefix sizeof_BucketID id)
                  EmptyString name 0) as Hloop.
    rewrite append_nil_l in Hloop. cbn [String.length] in Hloop. rewrite Hloop.
    assert (Hr : 0 <= 0 < 256 ^ (8 - Z.of_nat sizeof_BucketID))
      by (change (8 - Z.of_nat sizeof_BucketID) with 0; lia).
    rewrite (hex_fold_prefix id sizeof_BucketID (Nat.le_refl 8) 0 Hr).
    change (256 ^ Z.of_nat sizeof_BucketID) with (2 ^ 64).
    rewrite Z.mod_small by lia. lia.
Qed.

Lemma MakeInternalBlobName_splits_witness :
  substr_from kBucketIdStringSize (MakeInternalBlobName "blob" 0xDEADBEEF01234567)
    = "blob"%string /\
  HexStringToU64 (MakeInternalBlobName "blob" 0xDEADBEEF01234567) = 0xDEADBEEF01234567.
Proof. apply MakeInternalBlobName_splits. lia. Defined.

(** ** Swap records *)

(** C8: [SwapBlobToVec] yields exactly [SwapBlobMembers_Count] entries,
    [VecToSwapBlob] after [SwapBlobToVec] returns the record unchanged
    (node id, offset, size and bucket id), and [BlobIsInSwap] holds exactly
    when the [node_id] field of the BlobID is negative, which is the case
    exactly for the ids that [AttachBlobToBucket] makes for swap blobs. *)
Theorem SwapBlob_round_trip (s : SwapBlob) :
  0 <= swap_node_id s < 2 ^ 32 ->
  length (SwapBlobToVec s) = SwapBlobMembers_Count /\
  VecToSwapBlob (SwapBlobToVec s) = s /\
  (forall id : BlobID, BlobIsInSwap id = true <-> Bits.blob_node_id id < 0) /\
  (forall (owner : Z) (is_swap_blob : bool) (offset : Z),
     1 <= owner < 2 ^ 31 ->
     BlobIsInSwap (new_blob_id owner is_swap_blob offset) = is_swap_blob).
Proof.
  intros Hnode. split; [reflexivity|]. split; [|split].
  - destruct s as [n o sz b]. cbn in *. unfold VecToSwapBlob. cbn.
    unfold to_u32. rewrite Z.mod_small by lia. reflexivity.
  - intros id. unfold BlobIsInSwap. apply Z.ltb_lt.
  - intros owner is_swap_blob offset Howner.
    apply BlobIsInSwap_new_blob_id. exact Howner.
Qed.

Lemma SwapBlob_round_trip_witness :
  length (SwapBlobToVec sample_swap_blob) = SwapBlobMembers_Count /\
  VecToSwapBlob (SwapBlobToVec sample_swap_blob) = sample_swap_blob /\
  (forall id : BlobID, BlobIsInSwap id = true <-> Bits.blob_node_id id < 0) /\
  (forall (owner : Z) (is_swap_blob : bool) (offset : Z),
     1 <= owner < 2 ^ 31 ->
     BlobIsInSwap (new_blob_id owner is_swap_blob offset) = is_swap_blob).
Proof. apply SwapBlob_round_trip. cbn. lia. Defined.

(** ** Running an operation on a node *)

Lemma on_node_run {A} (node : Z) (f : St SharedMemoryContext A) (c : Cluster)
    (context context' : SharedMemoryContext) (a : A) :
  0 < node -> c !! node_slot node = Some context -> f context = Some (a, context') ->
  on_node node f c = Some (a, <[node_slot node := context']> c).
Proof.
  intros Hpos Hlook Hf. unfold on_node.
  destruct (Z.leb_spec node 0); [lia|]. rewrite Hlook, Hf. reflexivity.
Qed.

Lemma on_node_read {A} (node : Z) (f : St SharedMemoryContext A) (c : Cluster)
    (context : SharedMemoryContext) (a : A) :
  0 < node -> c !! node_slot node = Some context -> f context = Some (a, context) ->
  on_node node f c = Some (a, c).
Proof.
  intros Hpos Hlook Hf. rewrite (on_node_run node f c context context a) by assumption.
  rewrite list_insert_id by assumption. reflexivity.
Qed.

(** Whether the target is the caller or another node, the operation runs on
    the shared memory of the target. *)
Lemma dispatch_on_target {A} (rpc : RpcContext) (target_node : Z)
    (f : St SharedMemoryContext A) :
  (if target_node =? node_id rpc then Local rpc f else RpcCall rpc target_node f)
  = on_node target_node f.
Proof.
  unfold Local, RpcCall. destruct (Z.eqb_spec target_node (node_id rpc)) as [->|]; reflexivity.
Qed.

Lemma node_slot_inj (a b : Z) : 0 < a -> 0 < b -> node_slot a = node_slot b -> a = b.
Proof. unfold node_slot. lia. Qed.

(** ** Neighbourhood targets *)

Lemma GetNodeTargets_run (rpc : RpcContext) (node : Z) (c : Cluster) :
  0 < node <= Z.of_nat (length c) ->
  GetNodeTargets rpc node c = Some (targets_of c node, c).
Proof.
  intros Hnode. unfold GetNodeTargets. rewrite dispatch_on_target.
  destruct (lookup_lt_is_Some_2 c (node_slot node)) as [context Hctx].
  { unfold node_slot. lia. }
  unfold targets_of. rewrite Hctx.
  apply (on_node_read node _ c context); [lia | exact Hctx | reflexivity].
Qed.

Lemma GetNextNode_run {S} (rpc : RpcContext) (s : S) :
  1 <= node_id rpc <= num_nodes rpc -> num_nodes rpc + 1 < 2 ^ 31 ->
  GetNextNode rpc s = Some (ring_next rpc, s).
Proof.
  intros Hid Hn. unfold GetNextNode, GetRelativeNodeId, ring_next, bind, assert, ret, abort.
  rewrite (to_u32_small (node_id rpc + 1)), (to_u32_small (num_nodes rpc + 1)) by lia.
  rewrite (to_i32_small (node_id rpc + 1)), (to_i32_small (num_nodes rpc + 1)),
    (to_i32_small (num_nodes rpc)) by lia.
  destruct (Z.geb_spec (node_id rpc + 1) 0); [|lia].
  destruct (Z.leb_spec (node_id rpc + 1) (num_nodes rpc + 1)); [|lia].
  destruct (Z.gtb_spec (node_id rpc + 1) (num_nodes rpc)),
    (Z.eqb_spec (node_id rpc) (num_nodes rpc)); try lia.
  - reflexivity.
  - destruct (Z.eqb_spec (node_id rpc + 1) 0); [lia|].
    rewrite to_u32_small by lia. reflexivity.
Qed.

Lemma GetPreviousNode_run {S} (rpc : RpcContext) (s : S) :
  1 <= node_id rpc <= num_nodes rpc -> num_nodes rpc + 1 < 2 ^ 31 ->
  GetPreviousNode rpc s = Some (ring_prev rpc, s).
Proof.
  intros Hid Hn. unfold GetPreviousNode, GetRelativeNodeId, ring_prev, bind, assert, ret, abort.
  rewrite (to_u32_small (node_id rpc + -1)), (to_u32_small (num_nodes rpc + 1)) by lia.
  rewrite (to_i32_small (node_id rpc + -1)), (to_i32_small (num_nodes rpc + 1)),
    (to_i32_small (num_nodes rpc)) by lia.
  destruct (Z.geb_spec (node_id rpc + -1) 0); [|lia].
  destruct (Z.leb_spec (node_id rpc + -1) (num_nodes rpc + 1)); [|lia].
  destruct (Z.gtb_spec (node_id rpc + -1) (num_nodes rpc)); [lia|].
  destruct (Z.eqb_spec (node_id rpc + -1) 0), (Z.eqb_spec (node_id rpc) 1); try lia.
  - rewrite to_u32_small by lia. reflexivity.
  - rewrite to_u32_small by lia. reflexivity.
Qed.

(** C3, amended: the result holds the targets of the next node followed by
    those of the previous node of the ring (node 1 follows node [num_nodes]),
    and none of the caller's own; with two nodes it holds the targets of the
    one neighbour, and with a single node it is empty. *)
Theorem GetNeighborhoodTargets_neighbours (rpc : RpcContext) (c : Cluster) :
  1 <= node_id rpc <= num_nodes rpc ->
  num_nodes rpc = Z.of_nat (length c) ->
  num_nodes rpc + 1 < 2 ^ 31 ->
  GetNeighborhoodTargets rpc c =
  Some (if num_nodes rpc =? 1 then []
        else if num_nodes rpc =? 2 then targets_of c (ring_next rpc)
        else targets_of c (ring_next rpc) ++ targets_of c (ring_prev rpc),
        c).
Proof.
  intros Hid Hlen Hn.
  assert (Hnext : 0 < ring_next rpc <= Z.of_nat (length c)).
  { unfold ring_next. destruct (Z.eqb_spec (node_id rpc) (num_nodes rpc)); lia. }
  assert (Hprev : 0 < ring_prev rpc <= Z.of_nat (length c)).
  { unfold ring_prev. destruct (Z.eqb_spec (node_id rpc) 1); lia. }
  unfold GetNeighborhoodTargets.
  destruct (Z.eqb_spec (num_nodes rpc) 1); [reflexivity|].
  destruct (Z.eqb_spec (num_nodes rpc) 2).
  - unfold bind. rewrite GetNextNode_run by assumption.
    apply GetNodeTargets_run. exact Hnext.
  - unfold bind. rewrite GetNextNode_run by assumption.
    rewrite GetNodeTargets_run by exact Hnext.
    rewrite GetPreviousNode_run by assumption.
    rewrite GetNodeTargets_run by exact Hprev. reflexivity.
Qed.

Lemma GetNeighborhoodTargets_neighbours_witness :
  (1 <= 1 <= 3 /\ 3 = Z.of_nat (length sample_cluster3) /\ 3 + 1 < 2 ^ 31) /\
  GetNeighborhoodTargets {| node_id := 1; num_nodes := 3 |} sample_cluster3 =
  Some ([21; 22; 31; 32], sample_cluster3).
Proof.
  split; [cbn; lia|].
  apply (GetNeighborhoodTargets_neighbours {| node_id := 1; num_nodes := 3 |}
           sample_cluster3); cbn; lia.
Defined.

(** C3 as stated fails: on three nodes the caller's own targets are not in
    the result. *)
Lemma GetNeighborhoodTargets_omits_own_targets :
  exists result,
    GetNeighborhoodTargets {| node_id := 1; num_nodes := 3 |} sample_cluster3 =
      Some (result, sample_cluster3) /\
    targets_of sample_cluster3 1 = [11; 12] /\
    ~ In 11 result /\ ~ In 12 result.
Proof.
  exists [21; 22; 31; 32]. split; [vm_compute; reflexivity|].
  split; [reflexivity|]. cbn. lia.
Qed.

(** ** Reconciling the global system view *)

Lemma set_pool_same (context : SharedMemoryContext) :
  set_pool context
    {| capacity_adjustments := capacity_adjustments (pool context);
       num_devices := num_devices (pool context) |} = context.
Proof. destruct context as [m [adj n] t]. reflexivity. Qed.

Lemma exchange_adjustments_run (n : nat) :
  forall (i : nat) (adjustments : list Z) (update_needed : bool)
         (context : SharedMemoryContext),
    let cap := capacity_adjustments (pool context) in
    (i + n <= length cap)%nat -> (i + n <= length adjustments)%nat ->
    exists adjustments' update_needed' cap',
      exchange_adjustments i n adjustments update_needed context =
        Some ((adjustments', update_needed'),
              set_pool context {| capacity_adjustments := cap';
                                  num_devices := num_devices (pool context) |}) /\
      length cap' = length cap /\
      length adjustments' = length adjustments /\
      (forall j, (i <= j < i + n)%nat ->
                 cap' !! j = Some 0 /\ adjustments' !! j = cap !! j) /\
      (forall j, ~ (i <= j < i + n)%nat ->
                 cap' !! j = cap !! j /\ adjustments' !! j = adjustments !! j) /\
      (update_needed' = true <->
       update_needed = true \/
       exists j v, (i <= j < i + n)%nat /\ cap !! j = Some v /\ v <> 0).
Proof.
  induction n as [|n IH]; intros i adjustments update_needed context cap Hcap Hadj.
  - exists adjustments, update_needed, cap. cbn [exchange_adjustments].
    unfold ret. subst cap. rewrite set_pool_same.
    split; [reflexivity|]. split; [reflexivity|]. split; [reflexivity|].
    split; [intros j Hj; lia|]. split; [intros j Hj; split; reflexivity|].
    split; [intros Hu; left; exact Hu|].
    intros [Hu | (j & v & Hj & _)]; [exact Hu | lia].
  - destruct (lookup_lt_is_Some_2 cap i) as [old Hold]; [lia|].
    cbn [exchange_adjustments]. unfold bind, get, put, GetBufferPoolFromContext.
    fold cap. rewrite Hold.
    set (context1 := set_pool context _).
    specialize (IH (S i) (<[i := old]> adjustments)
                  (if negb (old =? 0) then true else update_needed) context1).
    cbn zeta in IH.
    assert (Hcap1 : capacity_adjustments (pool context1) = <[i := 0]> cap)
      by (subst context1; destruct context; reflexivity).
    rewrite Hcap1 in IH. rewrite !length_insert in IH.
    destruct IH as (adjustments' & update_needed' & cap' & Hrun & Hlc & Hla & Hin & Hout & Hflag);
      [lia | lia |].
    exists adjustments', update_needed', cap'. rewrite Hrun.
    split; [subst context1; destruct context; reflexivity|].
    split; [exact Hlc|]. split; [exact Hla|].
    split; [|split].
    + intros j Hj. destruct (decide (j = i)) as [->|Hne].
      * destruct (Hout i) as [Hc Ha]; [lia|]. rewrite Hc, Ha.
        rewrite !list_lookup_insert_eq by lia. split; [reflexivity|]. symmetry. exact Hold.
      * destruct (Hin j) as [Hc Ha]; [lia|]. rewrite Hc, Ha.
        rewrite list_lookup_insert_ne by lia. split; reflexivity.
    + intros j Hj. destruct (Hout j) as [Hc Ha]; [lia|]. rewrite Hc, Ha.
      rewrite !list_lookup_insert_ne by lia. split; reflexivity.
    + rewrite Hflag. split.
      * intros [Hu | (j & v & Hj & Hv & Hnz)].
        -- destruct (Z.eqb_spec old 0) as [Hz|Hnz]; cbn in Hu.
           ++ left. exact Hu.
           ++ right. exists i, old. split; [lia|]. split; assumption.
        -- right. exists j, v. split; [lia|]. split; [|exact Hnz].
           rewrite list_lookup_insert_ne in Hv by lia. exact Hv.
      * intros [Hu | (j & v & Hj & Hv & Hnz)].
        -- left. rewrite Hu. destruct (negb (old =? 0)); reflexivity.
        -- destruct (decide (j = i)) as [->|Hne].
           ++ left. rewrite Hold in Hv. injection Hv as ->.
              destruct (Z.eqb_spec v 0); [contradiction | reflexivity].
           ++ right. exists j, v. split; [lia|]. split; [|exact Hnz].
              rewrite list_lookup_insert_ne by lia. exact Hv.
Qed.

Lemma set_global_system_view_state_same (context : SharedMemoryContext)
    (state : SystemViewState) :
  global_system_view_state (mdm context) = Some state ->
  set_mdm context
    (set_global_system_view_state (mdm context)
       (Some {| svs_num_devices := svs_num_devices state;
                bytes_available := bytes_available state |})) = context.
Proof.
  destruct context as [m p t]. destruct m. destruct state. cbn. intros ->. reflexivity.
Qed.

Lemma set_global_system_view_state_twice (context : SharedMemoryContext)
    (g1 g2 : option SystemViewState) :
  let context1 := set_mdm context (set_global_system_view_state (mdm context) g1) in
  set_mdm context1 (set_global_system_view_state (mdm context1) g2) =
  set_mdm context (set_global_system_view_state (mdm context) g2).
Proof. destruct context as [m p t]. destruct m. reflexivity. Qed.

Lemma LocalUpdateGlobalSystemViewState_loop_run (n : nat) :
  forall (i : nat) (adjustments : list Z) (context : SharedMemoryContext)
         (state : SystemViewState),
    global_system_view_state (mdm context) = Some state ->
    (i + n <= length adjustments)%nat ->
    (i + n <= length (bytes_available state))%nat ->
    exists bytes',
      LocalUpdateGlobalSystemViewState_loop i n adjustments context =
        Some (tt, set_mdm context
                    (set_global_system_view_state (mdm context)
                       (Some {| svs_num_devices := svs_num_devices state;
                                bytes_available := bytes' |}))) /\
      length bytes' = length (bytes_available state) /\
      (forall j a old, (i <= j < i + n)%nat ->
         adjustments !! j = Some a -> bytes_available state !! j = Some old ->
         bytes' !! j = Some (if a =? 0 then old else to_u64 (old + a))) /\
      (forall j, ~ (i <= j < i + n)%nat -> bytes' !! j = bytes_available state !! j).
Proof.
  induction n as [|n IH]; intros i adjustments context state Hstate Hadj Hbytes.
  - exists (bytes_available state). cbn [LocalUpdateGlobalSystemViewState_loop].
    unfold ret. rewrite set_global_system_view_state_same by exact Hstate.
    split; [reflexivity|]. split; [reflexivity|].
    split; [intros j a old Hj; lia | intros j _; reflexivity].
  - destruct (lookup_lt_is_Some_2 adjustments i) as [a Ha]; [lia|].
    destruct (lookup_lt_is_Some_2 (bytes_available state) i) as [old Hold]; [lia|].
    cbn [LocalUpdateGlobalSystemViewState_loop].
    unfold bind at 1. unfold GetGlobalSystemViewState. rewrite Hstate, Ha.
    destruct (Z.eqb_spec a 0) as [Hz|Hnz]; cbn [negb].
    + unfold bind, ret.
      destruct (IH (S i) adjustments context state Hstate) as (bytes' & Hrun & Hlen & Hin & Hout);
        [lia | lia |].
      exists bytes'. rewrite Hrun. split; [reflexivity|]. split; [exact Hlen|].
      split.
      * intros j a' old' Hj Ha' Hold'. destruct (decide (j = i)) as [->|Hne].
        -- rewrite Hout by lia. rewrite Ha in Ha'. injection Ha' as <-.
           rewrite Hz. cbn. exact Hold'.
        -- apply Hin; [lia | assumption | assumption].
      * intros j Hj. apply Hout. lia.
    + unfold bind. unfold fetch_add_bytes_available. rewrite Hstate, Hold.
      set (state1 := {| svs_num_devices := svs_num_devices state;
                        bytes_available := <[i := to_u64 (old + a)]> (bytes_available state) |}).
      set (context1 := set_mdm context _).
      assert (Hstate1 : global_system_view_state (mdm context1) = Some state1)
        by (subst context1; destruct context as [m p t]; destruct m; reflexivity).
      destruct (IH (S i) adjustments context1 state1 Hstate1) as (bytes' & Hrun & Hlen & Hin & Hout).
      { lia. }
      { subst state1. cbn. rewrite length_insert. lia. }
      exists bytes'. rewrite Hrun. subst context1.
      rewrite set_global_system_view_state_twice.
      split; [reflexivity|].
      subst state1. cbn [bytes_available] in *. rewrite length_insert in Hlen.
      split; [exact Hlen|]. split.
      * intros j a' old' Hj Ha' Hold'. destruct (decide (j = i)) as [->|Hne].
        -- rewrite Hout by lia. rewrite list_lookup_insert_eq by lia.
           rewrite Ha in Ha'. injection Ha' as <-. rewrite Hold in Hold'. injection Hold' as <-.
           destruct (Z.eqb_spec a 0); [contradiction | reflexivity].
        -- apply Hin; [lia | assumption |].
           rewrite list_lookup_insert_ne by lia. exact Hold'.
      * intros j Hj. rewrite Hout by lia. apply list_lookup_insert_ne. lia.
Qed.

(** C9: one call exchanges every per-device adjustment of the caller for 0
    and adds exactly the exchanged values to the global [bytes_available]
    (a [u64] [fetch_add]), so for each device the sum of the global
    [bytes_available] and the pending adjustment is the same after the call
    as before it; when every adjustment is zero nothing is sent and the
    whole installation is unchanged. *)
Theorem UpdateGlobalSystemViewState_preserves_sum
    (rpc : RpcContext) (c : Cluster) (context gcontext : SharedMemoryContext)
    (state : SystemViewState) :
  0 < node_id rpc ->
  c !! node_slot (node_id rpc) = Some context ->
  0 < global_system_view_state_node_id (mdm context) ->
  c !! node_slot (global_system_view_state_node_id (mdm context)) = Some gcontext ->
  global_system_view_state (mdm gcontext) = Some state ->
  (Z.to_nat (num_devices (pool context)) <= length (capacity_adjustments (pool context)))%nat ->
  (Z.to_nat (num_devices (pool context)) <= length (bytes_available state))%nat ->
  exists c',
    UpdateGlobalSystemViewState rpc c = Some (tt, c') /\
    (forall i, (i < Z.to_nat (num_devices (pool context)))%nat ->
       pending_adjustment c' (node_id rpc) i = 0 /\
       global_bytes_available c' (global_system_view_state_node_id (mdm context)) i =
         (if pending_adjustment c (node_id rpc) i =? 0
          then global_bytes_available c (global_system_view_state_node_id (mdm context)) i
          else to_u64 (global_bytes_available c (global_system_view_state_node_id (mdm context)) i
                       + pending_adjustment c (node_id rpc) i)) /\
       to_u64 (global_bytes_available c' (global_system_view_state_node_id (mdm context)) i
               + pending_adjustment c' (node_id rpc) i) =
       to_u64 (global_bytes_available c (global_system_view_state_node_id (mdm context)) i
               + pending_adjustment c (node_id rpc) i)) /\
    ((forall i, (i < Z.to_nat (num_devices (pool context)))%nat ->
        pending_adjustment c (node_id rpc) i = 0) -> c' = c).
Proof.
  set (g := global_system_view_state_node_id (mdm context)).
  set (nd := Z.to_nat (num_devices (pool context))).
  set (cap := capacity_adjustments (pool context)).
  intros Hme Hctx Hg Hgctx Hstate Hcap Hbytes.
  destruct (exchange_adjustments_run nd 0 (replicate nd 0) false context)
    as (adjs & flag & cap' & Hrun & Hlc & Hla & Hin & Hout & Hflag).
  { cbn. exact Hcap. }
  { rewrite length_replicate. lia. }
  fold cap in Hlc, Hin, Hout, Hflag. rewrite length_replicate in Hla.
  set (context1 := set_pool context _) in Hrun.
  assert (Hpend : forall i, pending_adjustment c (node_id rpc) i = default 0 (cap !! i))
    by (intros i; unfold pending_adjustment; rewrite Hctx; reflexivity).
  assert (Hgb : forall i, global_bytes_available c g i
                          = default 0 (bytes_available state !! i))
    by (intros i; unfold global_bytes_available; rewrite Hgctx, Hstate; reflexivity).
  assert (Hslot : (node_slot (node_id rpc) < length c)%nat)
    by (apply lookup_lt_is_Some_1; eauto).
  assert (Hgslot : (node_slot g < length c)%nat)
    by (apply lookup_lt_is_Some_1; eauto).
  (* the run up to the exchange *)
  assert (Hprefix :
    UpdateGlobalSystemViewState rpc c =
    (if flag then
       on_node g (LocalUpdateGlobalSystemViewState adjs)
         (<[node_slot (node_id rpc) := context1]> c)
     else Some (tt, <[node_slot (node_id rpc) := context1]> c))).
  { unfold UpdateGlobalSystemViewState, bind, Local.
    rewrite (on_node_read (node_id rpc) get c context context) by (assumption || reflexivity).
    unfold GetBufferPoolFromContext, GetMetadataManagerFromContext.
    fold nd. rewrite length_replicate.
    rewrite (on_node_run (node_id rpc) _ c context context1 (adjs, flag)) by assumption.
    destruct flag; [|reflexivity]. fold g. unfold RpcCall.
    destruct (Z.eqb_spec g (node_id rpc)) as [Heq|_]; [rewrite <- Heq|]; reflexivity. }
  assert (Hzero : flag = false -> context1 = context).
  { intros ->. assert (Hsame : cap' = cap).
    { apply list_eq. intros j. destruct (decide (j < nd)%nat) as [Hj|Hj].
      - destruct (Hin j) as [Hc _]; [lia|]. rewrite Hc.
        destruct (lookup_lt_is_Some_2 cap j) as [v Hv]; [lia|]. rewrite Hv. f_equal.
        destruct (Z.eq_dec v 0) as [->|Hnz]; [reflexivity|].
        assert (false = true); [|discriminate].
        apply Hflag. right. exists j, v. split; [lia|]. split; assumption.
      - destruct (Hout j) as [Hc _]; [lia|]. exact Hc. }
    subst context1. rewrite Hsame. apply set_pool_same. }
  destruct flag.
  - (* an update is sent *)
    set (c1 := <[node_slot (node_id rpc) := context1]> c) in *.
    assert (Hg1 : exists gcontext1,
               c1 !! node_slot g = Some gcontext1 /\
               mdm gcontext1 = mdm gcontext /\
               (node_slot g = node_slot (node_id rpc) -> gcontext1 = context1)).
    { destruct (decide (node_slot g = node_slot (node_id rpc))) as [Heq|Hne].
      - exists context1. subst c1. rewrite Heq, list_lookup_insert_eq by lia.
        split; [reflexivity|]. split; [|reflexivity].
        rewrite Heq, Hctx in Hgctx. injection Hgctx as <-.
        subst context1. destruct context. reflexivity.
      - exists gcontext. subst c1. rewrite list_lookup_insert_ne by congruence.
        split; [exact Hgctx|]. split; [reflexivity | contradiction]. }
    destruct Hg1 as (gcontext1 & Hgc1 & Hmdm1 & Hsame).
    destruct (LocalUpdateGlobalSystemViewState_loop_run (length adjs) 0 adjs gcontext1 state)
      as (bytes' & Hrun' & Hlb & Hbin & _).
    { rewrite Hmdm1. exact Hstate. } { lia. } { lia. }
    set (gcontext2 := set_mdm gcontext1 _) in Hrun'.
    exists (<[node_slot g := gcontext2]> c1).
    split.
    { rewrite Hprefix. apply (on_node_run g _ c1 gcontext1); assumption. }
    assert (Hp' : forall i, (i < nd)%nat ->
              pending_adjustment (<[node_slot g := gcontext2]> c1) (node_id rpc) i = 0).
    { intros i Hi. unfold pending_adjustment.
      destruct (Hin i) as [Hc _]; [lia|].
      destruct (decide (node_slot g = node_slot (node_id rpc))) as [Heq|Hne].
      - rewrite <- Heq, list_lookup_insert_eq by (subst c1; rewrite length_insert; lia).
        subst gcontext2. rewrite (Hsame Heq). subst context1.
        destruct context. cbn. rewrite Hc. reflexivity.
      - rewrite list_lookup_insert_ne by congruence. subst c1.
        rewrite list_lookup_insert_eq by lia. subst context1.
        destruct context. cbn. rewrite Hc. reflexivity. }
    assert (Hg' : forall i, (i < nd)%nat ->
              global_bytes_available (<[node_slot g := gcontext2]> c1) g i =
              if pending_adjustment c (node_id rpc) i =? 0
              then global_bytes_available c g i
              else to_u64 (global_bytes_available c g i + pending_adjustment c (node_id rpc) i)).
    { intros i Hi. unfold global_bytes_available at 1.
      rewrite list_lookup_insert_eq by (subst c1; rewrite length_insert; lia).
      subst gcontext2. destruct gcontext1 as [m1 p1 t1]. destruct m1. cbn.
      destruct (Hin i) as [_ Ha]; [lia|].
      destruct (lookup_lt_is_Some_2 cap i) as [v Hv]; [lia|].
      destruct (lookup_lt_is_Some_2 (bytes_available state) i) as [old Hold]; [lia|].
      rewrite (Hbin i v old) by (lia || congruence).
      rewrite Hpend, Hgb, Hv, Hold. reflexivity. }
    split.
    + intros i Hi. rewrite Hp', Hg' by exact Hi. split; [reflexivity|]. split; [reflexivity|].
      destruct (Z.eqb_spec (pending_adjustment c (node_id rpc) i) 0) as [->|_].
      * reflexivity.
      * rewrite Z.add_0_r. apply to_u64_idem.
    + intros Hall. assert (true = true -> False); [|tauto].
      intros _. destruct (proj1 Hflag eq_refl) as [Hf | (j & v & Hj & Hv & Hnz)]; [discriminate|].
      specialize (Hall j ltac:(lia)). rewrite Hpend, Hv in Hall. contradiction.
  - (* nothing to send *)
    rewrite (Hzero eq_refl) in Hprefix. rewrite list_insert_id in Hprefix by exact Hctx.
    exists c. split; [exact Hprefix|].
    assert (Hall : forall i, (i < nd)%nat -> pending_adjustment c (node_id rpc) i = 0).
    { intros i Hi. rewrite Hpend.
      destruct (lookup_lt_is_Some_2 cap i) as [v Hv]; [lia|]. rewrite Hv. cbn.
      destruct (Z.eq_dec v 0) as [->|Hnz]; [reflexivity|].
      assert (false = true); [|discriminate].
      apply Hflag. right. exists i, v. split; [lia|]. split; assumption. }
    split; [|reflexivity].
    intros i Hi. rewrite (Hall i Hi). cbn. split; [reflexivity|]. split; reflexivity.
Qed.

Lemma UpdateGlobalSystemViewState_preserves_sum_witness :
  exists c',
    UpdateGlobalSystemViewState {| node_id := 2; num_nodes := 3 |} sample_cluster3 =
      Some (tt, c') /\
    pending_adjustment sample_cluster3 2 0 = -100 /\
    global_bytes_available sample_cluster3 1 0 = 1000 /\
    pending_adjustment c' 2 0 = 0 /\
    global_bytes_available c' 1 0 = 900.
Proof.
  destruct (UpdateGlobalSystemViewState_preserves_sum
              {| node_id := 2; num_nodes := 3 |} sample_cluster3
              (sample_context 2 [21; 22] [-100; 50])
              (sample_context 1 [11; 12] [0; 0])
              (CreateSystemViewState sample_config))
    as (c' & Hrun & Hdev & _);
    try reflexivity; try (cbn; lia).
  exists c'. split; [exact Hrun|]. split; [reflexivity|]. split; [reflexivity|].
  destruct (Hdev 0%nat) as (Hp & Hg & _); [cbn; lia|].
  split; [exact Hp|].
  change (global_system_view_state_node_id (mdm (sample_context 2 [21; 22] [-100; 50])))
    with 1 in Hg.
  rewrite Hg. reflexivity.
Defined.

(** ** Opening and creating buckets *)

Lemma LocalGetNextFreeBucketId_fresh (name : string) (context : SharedMemoryContext)
    (info : BucketInfo) :
  num_buckets (mdm context) < max_buckets (mdm context) ->
  first_free_bucket (mdm context) <> 0 ->
  LocalGetBucketInfoById (mdm context) (first_free_bucket (mdm context)) = Some info ->
  LocalGetNextFreeBucketId name context =
  Some (first_free_bucket (mdm context), with_new_bucket context name info).
Proof.
  intros Hnum Hfree Hinfo.
  unfold LocalGetNextFreeBucketId, bind, get, GetMetadataManagerFromContext.
  destruct (Z.ltb_spec (num_buckets (mdm context)) (max_buckets (mdm context))); [|lia].
  unfold IsNullBucketId, IsNullId.
  destruct (Z.eqb_spec (first_free_bucket (mdm context)) 0) as [|_]; [contradiction|].
  cbn [negb]. unfold LocalGetBucketInfoById in Hinfo. unfold Bits.index in *.
  rewrite Hinfo. unfold put, ret.
  destruct (Z.eqb_spec (first_free_bucket (mdm context)) 0) as [|_]; [contradiction|].
  cbn [negb]. unfold LocalPutBucketId, LocalPut, with_new_bucket.
  destruct context as [m p t]. reflexivity.
Qed.

Lemma LocalGetNextFreeBucketId_exhausted (name : string) (context : SharedMemoryContext) :
  max_buckets (mdm context) <= num_buckets (mdm context) ->
  LocalGetNextFreeBucketId name context = Some (0, context).
Proof.
  intros Hnum.
  unfold LocalGetNextFreeBucketId, bind, get, GetMetadataManagerFromContext.
  destruct (Z.ltb_spec (num_buckets (mdm context)) (max_buckets (mdm context))); [lia|].
  reflexivity.
Qed.

Lemma LocalGetOrCreateBucketId_new (name : string) (context : SharedMemoryContext) :
  GetFromStorage (mdm context) name kMapType_Bucket = 0 ->
  LocalGetOrCreateBucketId name context = LocalGetNextFreeBucketId name context.
Proof.
  intros Hnew. unfold LocalGetOrCreateBucketId, bind, LocalGetBucketId, LocalGet.
  rewrite Hnew. reflexivity.
Qed.

Lemma LocalGetOrCreateBucketId_existing (name : string) (context : SharedMemoryContext)
    (info : BucketInfo) :
  let id := GetFromStorage (mdm context) name kMapType_Bucket in
  id <> 0 ->
  LocalGetBucketInfoById (mdm context) id = Some info ->
  0 <= ref_count info < 2 ^ 31 - 1 ->
  LocalGetOrCreateBucketId name context =
  Some (id, with_bucket_info context (Bits.index id)
              (set_ref_count info (ref_count info + 1))).
Proof.
  intros id Hid Hinfo Hrc.
  unfold LocalGetOrCreateBucketId, bind, LocalGetBucketId, LocalGet. fold id.
  destruct (Z.eqb_spec id 0) as [|_]; [contradiction|]. cbn [negb].
  unfold LocalIncrementRefcount, bind, get. rewrite Hinfo.
  rewrite to_i32_small by lia. reflexivity.
Qed.

Lemma with_bucket_info_lookup (context : SharedMemoryContext) (id : BucketID)
    (old info : BucketInfo) :
  LocalGetBucketInfoById (mdm context) id = Some old ->
  LocalGetBucketInfoById (mdm (with_bucket_info context (Bits.index id) info)) id
  = Some info.
Proof.
  unfold LocalGetBucketInfoById, LocalGetBucketInfoByIndex. intros Hold.
  destruct context as [m p t]. destruct m. cbn in *.
  apply list_lookup_insert_eq. apply lookup_lt_is_Some_1. eauto.
Qed.

Lemma with_bucket_info_bucket_map (context : SharedMemoryContext) (index : Z)
    (info : BucketInfo) (name : string) :
  GetFromStorage (mdm (with_bucket_info context index info)) name kMapType_Bucket
  = GetFromStorage (mdm context) name kMapType_Bucket.
Proof. destruct context as [m p t]. destruct m. reflexivity. Qed.

Lemma with_new_bucket_lookup (context : SharedMemoryContext) (name : string)
    (info : BucketInfo) :
  LocalGetBucketInfoById (mdm context) (first_free_bucket (mdm context)) = Some info ->
  LocalGetBucketInfoById (mdm (with_new_bucket context name info))
    (first_free_bucket (mdm context))
  = Some {| next_free := next_free info; blobs := []; stats := 0;
            ref_count := 1; active := true |}.
Proof.
  unfold LocalGetBucketInfoById, LocalGetBucketInfoByIndex. intros Hold.
  destruct context as [m p t]. destruct m. cbn in *.
  apply list_lookup_insert_eq. apply lookup_lt_is_Some_1. eauto.
Qed.

Lemma with_new_bucket_bucket_map (context : SharedMemoryContext) (name : string)
    (info : BucketInfo) :
  GetFromStorage (mdm (with_new_bucket context name info)) name kMapType_Bucket
  = first_free_bucket (mdm context).
Proof.
  destruct context as [m p t]. destruct m. cbn. rewrite lookup_insert_eq. reflexivity.
Qed.

Section OpenTwice.
Context `{HermesParams}.

Lemma GetOrCreateBucketId_on_owner (rpc : RpcContext) (name : string) :
  GetOrCreateBucketId rpc name
  = on_node (HashString rpc name) (LocalGetOrCreateBucketId name).
Proof. unfold GetOrCreateBucketId. apply dispatch_on_target. Qed.

(** Any call that finds the name increments the ref-count by one and
    returns the id that is there. *)
Lemma GetOrCreateBucketId_reopen (rpc : RpcContext) (name : string) (c : Cluster)
    (n : Z) :
  let owner := HashString rpc name in
  let id := bucket_id_of c owner name in
  0 < owner -> id <> 0 ->
  bucket_ref_count c owner id = Some n ->
  0 <= n < 2 ^ 31 - 1 ->
  exists c',
    GetOrCreateBucketId rpc name c = Some (id, c') /\
    bucket_id_of c' owner name = id /\
    bucket_ref_count c' owner id = Some (n + 1).
Proof.
  intros owner id Howner Hid Hcount Hn. subst id.
  unfold bucket_id_of, bucket_ref_count in *.
  destruct (c !! node_slot owner) as [context|] eqn:Hctx; [|discriminate].
  set (id := GetFromStorage (mdm context) name kMapType_Bucket) in *.
  destruct (LocalGetBucketInfoById (mdm context) id) as [info|] eqn:Hinfo; [|discriminate].
  injection Hcount as <-.
  assert (Hslot : (node_slot owner < length c)%nat)
    by (apply lookup_lt_is_Some_1; eauto).
  exists (<[node_slot owner :=
              with_bucket_info context (Bits.index id)
                (set_ref_count info (ref_count info + 1))]> c).
  split; [|split].
  - rewrite GetOrCreateBucketId_on_owner. fold owner.
    apply (on_node_run owner _ c context _ id Howner Hctx).
    apply LocalGetOrCreateBucketId_existing; assumption.
  - rewrite list_lookup_insert_eq by exact Hslot.
    apply with_bucket_info_bucket_map.
  - rewrite list_lookup_insert_eq by exact Hslot.
    rewrite (with_bucket_info_lookup context id info) by exact Hinfo. reflexivity.
Qed.

(** C5: while a free slot remains, the first [GetOrCreateBucketId] for a
    name allocates the slot with ref-count 1 and returns its non-null id;
    the second call returns the same id and makes the ref-count 2, and
    so does every later call: the same id, the ref-count one higher.  The
    name has no embedded NUL, so that the key the code reads is the name. *)
Theorem GetOrCreateBucketId_twice (rpc : RpcContext) (name : string) (c : Cluster)
    (context : SharedMemoryContext) (info : BucketInfo) :
  c_str name = name ->
  0 < HashString rpc name ->
  c !! node_slot (HashString rpc name) = Some context ->
  IsBucketNameTooLong name = false ->
  GetFromStorage (mdm context) name kMapType_Bucket = 0 ->
  num_buckets (mdm context) < max_buckets (mdm context) ->
  first_free_bucket (mdm context) <> 0 ->
  LocalGetBucketInfoById (mdm context) (first_free_bucket (mdm context)) = Some info ->
  exists (id : BucketID) (c1 c2 : Cluster),
    GetOrCreateBucketId rpc name c = Some (id, c1) /\
    IsNullBucketId id = false /\
    bucket_ref_count c1 (HashString rpc name) id = Some 1 /\
    GetOrCreateBucketId rpc name c1 = Some (id, c2) /\
    bucket_ref_count c2 (HashString rpc name) id = Some 2 /\
    (forall (c' : Cluster) (n : Z),
       bucket_id_of c' (HashString rpc name) name = id ->
       bucket_ref_count c' (HashString rpc name) id = Some n ->
       0 <= n < 2 ^ 31 - 1 ->
       exists c'',
         GetOrCreateBucketId rpc name c' = Some (id, c'') /\
         bucket_id_of c'' (HashString rpc name) name = id /\
         bucket_ref_count c'' (HashString rpc name) id = Some (n + 1)).
Proof.
  intros _ Howner Hctx _ Hnew Hnum Hfree Hinfo.
  set (owner := HashString rpc name) in *.
  set (id := first_free_bucket (mdm context)) in *.
  set (c1 := <[node_slot owner := with_new_bucket context name info]> c).
  assert (Hslot : (node_slot owner < length c)%nat)
    by (apply lookup_lt_is_Some_1; eauto).
  assert (Hid1 : bucket_id_of c1 owner name = id).
  { unfold bucket_id_of. subst c1. rewrite list_lookup_insert_eq by exact Hslot.
    apply with_new_bucket_bucket_map. }
  assert (Hcount1 : bucket_ref_count c1 owner id = Some 1).
  { unfold bucket_ref_count. subst c1. rewrite list_lookup_insert_eq by exact Hslot.
    subst id. rewrite (with_new_bucket_lookup context name info) by exact Hinfo.
    reflexivity. }
  assert (Hagain : forall (c' : Cluster) (n : Z),
             bucket_id_of c' owner name = id ->
             bucket_ref_count c' owner id = Some n ->
             0 <= n < 2 ^ 31 - 1 ->
             exists c'',
               GetOrCreateBucketId rpc name c' = Some (id, c'') /\
               bucket_id_of c'' owner name = id /\
               bucket_ref_count c'' owner id = Some (n + 1)).
  { intros c' n Hid' Hcount' Hn.
    pose proof (GetOrCreateBucketId_reopen rpc name c' n) as Hre.
    cbn zeta in Hre. fold owner in Hre. rewrite Hid' in Hre.
    apply Hre; assumption. }
  destruct (Hagain c1 1 Hid1 Hcount1 ltac:(lia)) as (c2 & Hrun2 & _ & Hcount2).
  exists id, c1, c2. split; [|split; [|split; [|split; [|split]]]].
  - rewrite GetOrCreateBucketId_on_owner. fold owner.
    apply (on_node_run owner _ c context _ id Howner Hctx).
    rewrite LocalGetOrCreateBucketId_new by exact Hnew.
    apply LocalGetNextFreeBucketId_fresh; assumption.
  - unfold IsNullBucketId, IsNullId. apply Z.eqb_neq. exact Hfree.
  - exact Hcount1.
  - exact Hrun2.
  - exact Hcount2.
  - exact Hagain.
Qed.
End OpenTwice.

Lemma GetOrCreateBucketId_twice_witness :
  exists (id : BucketID) (c1 c2 : Cluster),
    @GetOrCreateBucketId sample_params sample_rpc "b" sample_cluster3 = Some (id, c1) /\
    IsNullBucketId id = false /\
    bucket_ref_count c1 3 id = Some 1 /\
    @GetOrCreateBucketId sample_params sample_rpc "b" c1 = Some (id, c2) /\
    bucket_ref_count c2 3 id = Some 2.
Proof.
  destruct (@GetOrCreateBucketId_twice sample_params sample_rpc "b" sample_cluster3
              (sample_context 3 [31; 32] [0; 0])
              (nth 0 (bucket_info (mdm (sample_context 3 [31; 32] [0; 0]))) BucketInfo_zero))
    as (id & c1 & c2 & H1 & H2 & H3 & H4 & H5 & _).
  - reflexivity.
  - vm_compute; reflexivity.
  - vm_compute; reflexivity.
  - vm_compute; reflexivity.
  - vm_compute; reflexivity.
  - vm_compute; reflexivity.
  - vm_compute; discriminate.
  - vm_compute; reflexivity.
  - exists id, c1, c2. repeat split; assumption.
Defined.

(** ** The slot pool *)

Lemma InitMetadataManager_buckets_lookup (config : Config) (node : Z) (n : nat) :
  forall (i : nat) (buckets : list BucketInfo) (j : nat),
    InitMetadataManager_buckets config node i n buckets !! j =
    if decide (i <= j < i + n)%nat
    then init_bucket_info config node (Z.of_nat j) <$> buckets !! j
    else buckets !! j.
Proof.
  induction n as [|n IH]; intros i buckets j; cbn [InitMetadataManager_buckets].
  - destruct (decide (i <= j < i + 0)%nat); [lia | reflexivity].
  - rewrite IH. destruct (decide (S i <= j < S i + n)%nat) as [Hin|Hout].
    + rewrite list_lookup_alter_ne by lia.
      destruct (decide (i <= j < i + S n)%nat); [reflexivity | lia].
    + destruct (decide (j = i)) as [->|Hne].
      * rewrite list_lookup_alter_eq.
        destruct (decide (i <= i < i + S n)%nat); [reflexivity | lia].
      * rewrite list_lookup_alter_ne by lia.
        destruct (decide (i <= j < i + S n)%nat); [lia | reflexivity].
Qed.

Lemma InitMetadataManager_buckets_length (config : Config) (node : Z) (n : nat) :
  forall (i : nat) (buckets : list BucketInfo),
    length (InitMetadataManager_buckets config node i n buckets) = length buckets.
Proof.
  induction n as [|n IH]; intros i buckets; cbn [InitMetadataManager_buckets];
    [reflexivity|]. rewrite IH. apply length_alter.
Qed.

Lemma InitMetadataManager_slots (config : Config) (node : Z) :
  0 <= max_buckets_per_node config < 2 ^ 32 ->
  1 <= node < 2 ^ 32 ->
  slots_free_from node (max_buckets_per_node config) 0 []
    (InitMetadataManager config node).
Proof.
  intros Hmax Hnode. unfold slots_free_from, InitMetadataManager. cbn.
  split; [reflexivity|]. split; [reflexivity|].
  split; [rewrite InitMetadataManager_buckets_length; apply length_replicate|].
  split; [|split].
  - intros _. apply set_fields_make_id; lia.
  - intros j info _ Hj. rewrite InitMetadataManager_buckets_lookup.
    destruct (decide (0 <= j < 0 + Z.to_nat (max_buckets_per_node config))%nat); [|lia].
    rewrite lookup_replicate_2 by lia. cbn. intros Hinfo. injection Hinfo as <-.
    cbn. rewrite (to_u32_small (max_buckets_per_node config - 1)) by lia.
    destruct (Z.eqb_spec (Z.of_nat j) (max_buckets_per_node config - 1)); [lia|].
    apply set_fields_make_id; lia.
  - intros s _. apply lookup_empty.
Qed.

Lemma LocalGetOrCreateBucketId_next_slot (node max : Z) (k : nat)
    (opened : list string) (name : string) (context : SharedMemoryContext) :
  1 <= node -> max < 2 ^ 32 ->
  slots_free_from node max k opened (mdm context) ->
  Z.of_nat k < max -> name ∉ opened ->
  exists context',
    LocalGetOrCreateBucketId name context = Some (make_id node (Z.of_nat k), context') /\
    slots_free_from node max (S k) (name :: opened) (mdm context') /\
    bucket_map (mdm context')
      = <[name := make_id node (Z.of_nat k)]> (bucket_map (mdm context)).
Proof.
  intros Hnode Hmax (Hnum & Hmaxb & Hlen & Hfree & Hchain & Hmap) Hk Hname.
  specialize (Hfree Hk).
  destruct (lookup_lt_is_Some_2 (bucket_info (mdm context)) k) as [info Hinfo]; [lia|].
  assert (Hinfo' : LocalGetBucketInfoById (mdm context) (first_free_bucket (mdm context))
                   = Some info).
  { unfold LocalGetBucketInfoById, LocalGetBucketInfoByIndex.
    rewrite Hfree, Bits_index_make_id by lia. rewrite Nat2Z.id. exact Hinfo. }
  exists (with_new_bucket context name info). split; [|split].
  - rewrite LocalGetOrCreateBucketId_new
      by (unfold GetFromStorage; rewrite (Hmap name Hname); reflexivity).
    rewrite <- Hfree. apply LocalGetNextFreeBucketId_fresh.
    + lia.
    + rewrite Hfree. apply make_id_nonzero; lia.
    + exact Hinfo'.
  - unfold slots_free_from, with_new_bucket.
    destruct context as [m p t]. destruct m. cbn in *.
    rewrite Hfree, Bits_index_make_id, Nat2Z.id by lia.
    split; [rewrite to_u32_small by lia; lia|]. split; [exact Hmaxb|].
    split; [rewrite length_insert; exact Hlen|]. split; [|split].
    + intros Hk'. rewrite (Hchain k info) by (lia || assumption). f_equal. lia.
    + intros j info' Hj Hj'. rewrite list_lookup_insert_ne by lia.
      apply Hchain; lia.
    + intros s Hs. rewrite lookup_insert_ne by (intros ->; apply Hs; left).
      apply Hmap. intros Hin. apply Hs. right. exact Hin.
  - rewrite <- Hfree. unfold with_new_bucket.
    destruct context as [m p t]. destruct m. reflexivity.
Qed.

Lemma LocalGetOrCreateBucketId_no_slot (node max : Z) (k : nat)
    (opened : list string) (name : string) (context : SharedMemoryContext) :
  slots_free_from node max k opened (mdm context) ->
  max <= Z.of_nat k -> name ∉ opened ->
  LocalGetOrCreateBucketId name context = Some (0, context).
Proof.
  intros (Hnum & Hmaxb & _ & _ & _ & Hmap) Hk Hname.
  rewrite LocalGetOrCreateBucketId_new
    by (unfold GetFromStorage; rewrite (Hmap name Hname); reflexivity).
  apply LocalGetNextFreeBucketId_exhausted. lia.
Qed.

Lemma LocalGetOrCreateBucketIds_run (node max : Z) (names : list string) :
  1 <= node -> max < 2 ^ 32 ->
  forall (k : nat) (opened : list string) (context : SharedMemoryContext),
    slots_free_from node max k opened (mdm context) ->
    NoDup names -> (forall s, s ∈ names -> s ∉ opened) ->
    Z.of_nat (k + length names) <= max ->
    exists ids context',
      LocalGetOrCreateBucketIds names context = Some (ids, context') /\
      ids = map (fun i => make_id node (Z.of_nat i)) (seq k (length names)) /\
      slots_free_from node max (k + length names) (rev names ++ opened) (mdm context') /\
      (forall (i : nat) (name : string),
         names !! i = Some name ->
         bucket_map (mdm context') !! name = Some (make_id node (Z.of_nat (k + i)))) /\
      (forall s : string,
         s ∉ names -> bucket_map (mdm context') !! s = bucket_map (mdm context) !! s).
Proof.
  intros Hnode Hmax. induction names as [|name rest IH];
    intros k opened context Hinv Hnodup Hfresh Hroom.
  - exists [], context. cbn. rewrite Nat.add_0_r.
    split; [reflexivity|]. split; [reflexivity|]. split; [exact Hinv|].
    split; [intros i name Hi; discriminate | intros s _; reflexivity].
  - apply NoDup_cons in Hnodup as [Hhead Hnodup]. cbn [length] in Hroom.
    destruct (LocalGetOrCreateBucketId_next_slot node max k opened name context)
      as (context1 & Hrun1 & Hinv1 & Hmap1); try assumption; [lia | apply Hfresh; left |].
    destruct (IH (S k) (name :: opened) context1)
      as (ids & context' & Hrun & Hids & Hinv' & Hbound & Hframe); try assumption.
    { intros s Hs [->|Hin]%elem_of_cons; [contradiction|].
      apply (Hfresh s); [right; exact Hs | exact Hin]. }
    { lia. }
    exists (make_id node (Z.of_nat k) :: ids), context'.
    cbn [LocalGetOrCreateBucketIds]. unfold bind. rewrite Hrun1. fold (@bind SharedMemoryContext).
    unfold bind. rewrite Hrun. unfold ret.
    split; [reflexivity|]. split; [cbn [length seq map]; rewrite Hids; reflexivity|].
    split; [|split].
    + cbn [rev length]. rewrite <- app_assoc. cbn [app].
      replace (k + S (length rest))%nat with (S k + length rest)%nat by lia.
      exact Hinv'.
    + intros [|i] s Hs; cbn in Hs.
      * injection Hs as <-. rewrite (Hframe name Hhead), Hmap1, Nat.add_0_r.
        apply lookup_insert_eq.
      * rewrite (Hbound i s Hs). do 3 f_equal. lia.
    + intros s Hs. apply not_elem_of_cons in Hs as [Hne Hs].
      rewrite (Hframe s Hs), Hmap1. apply lookup_insert_ne. congruence.
Qed.

(** C7: on a freshly initialised node, creating [max_buckets_per_node]
    buckets with distinct names returns a non-null id each time, the id of
    slot [i] of this node for the [i]-th name, and registers each name with
    its id; the next creation returns the null id and leaves the shared
    memory, and so every bucket in it, as it was.  The names have no
    embedded NUL, so that they are distinct as the keys the code reads. *)
Theorem bucket_slots_run_out (config : Config) (node : Z)
    (context : SharedMemoryContext) (names : list string) (extra : string) :
  0 <= max_buckets_per_node config < 2 ^ 32 ->
  1 <= node < 2 ^ 32 ->
  mdm context = InitMetadataManager config node ->
  Forall (fun name => c_str name = name) (extra :: names) ->
  NoDup names ->
  length names = Z.to_nat (max_buckets_per_node config) ->
  extra ∉ names ->
  exists (ids : list BucketID) (context' : SharedMemoryContext),
    LocalGetOrCreateBucketIds names context = Some (ids, context') /\
    length ids = Z.to_nat (max_buckets_per_node config) /\
    Forall (fun id => IsNullBucketId id = false) ids /\
    (forall (i : nat) (id : BucketID),
       ids !! i = Some id -> Bits.node_id id = node /\ Bits.index id = Z.of_nat i) /\
    (forall (i : nat) (name : string) (id : BucketID),
       names !! i = Some name -> ids !! i = Some id ->
       LocalGetBucketId name context' = Some (id, context')) /\
    LocalGetOrCreateBucketId extra context' = Some (0, context').
Proof.
  intros Hmax Hnode Hinit _ Hnodup Hlen Hextra.
  destruct (LocalGetOrCreateBucketIds_run node (max_buckets_per_node config) names
              ltac:(lia) ltac:(lia) 0%nat [] context)
    as (ids & context' & Hrun & Hids & Hinv & Hbound & _).
  - rewrite Hinit. apply InitMetadataManager_slots; assumption.
  - exact Hnodup.
  - intros s _ Hin. inversion Hin.
  - lia.
  - assert (Hslot : forall (i : nat) (id : BucketID),
              ids !! i = Some id ->
              (i < length names)%nat /\ id = make_id node (Z.of_nat i)).
    { intros i id Hi. rewrite Hids in Hi. apply list_lookup_fmap_Some in Hi.
      destruct Hi as (j & -> & Hj). apply lookup_seq in Hj. cbn in Hj.
      destruct Hj as [-> Hj]. split; [exact Hj | reflexivity]. }
    exists ids, context'. split; [exact Hrun|].
    split; [rewrite Hids, length_map, length_seq; exact Hlen|].
    split; [|split; [|split]].
    + apply Forall_forall. intros id Hin. apply list_elem_of_lookup in Hin.
      destruct Hin as [i Hi]. destruct (Hslot i id Hi) as [Hlt ->].
      unfold IsNullBucketId, IsNullId. apply Z.eqb_neq, make_id_nonzero; lia.
    + intros i id Hi. destruct (Hslot i id Hi) as [Hlt ->].
      rewrite Bits_node_id_make_id, Bits_index_make_id by lia. split; reflexivity.
    + intros i name id Hname Hi. destruct (Hslot i id Hi) as [_ ->].
      unfold LocalGetBucketId, LocalGet, GetFromStorage.
      rewrite (Hbound i name Hname). reflexivity.
    + apply (LocalGetOrCreateBucketId_no_slot node (max_buckets_per_node config)
               (0 + length names) (rev names ++ []) extra context' Hinv).
      * lia.
      * rewrite app_nil_r. intros Hin. apply Hextra.
        apply list_elem_of_In, in_rev, list_elem_of_In. exact Hin.
Qed.

Lemma bucket_slots_run_out_witness :
  exists (ids : list BucketID) (context' : SharedMemoryContext),
    LocalGetOrCreateBucketIds ["a"; "b"]%string (sample_context 1 [11; 12] [0; 0])
      = Some (ids, context') /\
    length ids = 2%nat /\
    Forall (fun id => IsNullBucketId id = false) ids /\
    (forall (i : nat) (id : BucketID),
       ids !! i = Some id -> Bits.node_id id = 1 /\ Bits.index id = Z.of_nat i) /\
    (forall (i : nat) (name : string) (id : BucketID),
       ["a"; "b"]%string !! i = Some name -> ids !! i = Some id ->
       LocalGetBucketId name context' = Some (id, context')) /\
    LocalGetOrCreateBucketId "c" context' = Some (0, context').
Proof.
  apply (bucket_slots_run_out sample_config 1 (sample_context 1 [11; 12] [0; 0])
           ["a"; "b"]%string "c"%string).
  - cbn. lia.
  - lia.
  - reflexivity.
  - repeat constructor.
  - refine (bool_decide_unpack _ _). vm_compute. exact I.
  - reflexivity.
  - refine (bool_decide_unpack _ _). vm_compute. exact I.
Defined.

(** ** Closing and destroying a bucket *)

Lemma LocalDecrementRefcount_run (id : BucketID) (context : SharedMemoryContext)
    (info : BucketInfo) :
  LocalGetBucketInfoById (mdm context) id = Some info ->
  1 <= ref_count info < 2 ^ 31 ->
  LocalDecrementRefcount id context =
  Some (tt, with_bucket_info context (Bits.index id)
              (set_ref_count info (ref_count info - 1))).
Proof.
  intros Hinfo Hrc. unfold LocalDecrementRefcount, bind, get. rewrite Hinfo.
  rewrite to_i32_small by lia. unfold store_bucket_info, assert, ret.
  destruct (Z.geb_spec (ref_count info - 1) 0); [reflexivity | lia].
Qed.

Lemma Bucket_Close_invalid (this : Bucket) (c : Cluster) :
  Bucket_IsValid this = false ->
  Bucket_Close this c = Some ((HERMES_SUCCESS, this), c).
Proof. intros Hinv. unfold Bucket_Close. rewrite Hinv. reflexivity. Qed.

Lemma Bucket_IsValid_null (this : Bucket) : Bucket_IsValid (set_id_ this 0) = false.
Proof. reflexivity. Qed.

Lemma Bucket_Destroy_success_invalidates (this this' : Bucket) (c c' : Cluster) :
  Bucket_Destroy this c = Some ((HERMES_SUCCESS, this'), c') ->
  Bucket_IsValid this' = false.
Proof.
  unfold Bucket_Destroy, bind, ret.
  destruct (Bucket_IsValid this) eqn:Hvalid.
  - destruct (DestroyBucket _ _ _ c) as [[[|] c1]|]; intros Heq; try discriminate.
    injection Heq as <- _. reflexivity.
  - intros Heq. injection Heq as <- _. exact Hvalid.
Qed.

(** C10: on a valid handle [Close] decrements the ref-count of the bucket
    once, changes nothing else, and nulls the id of the handle; a second
    [Close] on that handle, a [Close] after a successful [Destroy], and a
    [Close] on any invalid handle return with the installation unchanged. *)
Theorem Bucket_Close_decrements_once
    (this : Bucket) (c : Cluster) (context : SharedMemoryContext) (info : BucketInfo) :
  Bucket_IsValid this = true ->
  0 < Bits.node_id (id_ this) ->
  c !! node_slot (Bits.node_id (id_ this)) = Some context ->
  LocalGetBucketInfoById (mdm context) (id_ this) = Some info ->
  1 <= ref_count info < 2 ^ 31 ->
  let c' := <[node_slot (Bits.node_id (id_ this)) :=
               with_bucket_info context (Bits.index (id_ this))
                 (set_ref_count info (ref_count info - 1))]> c in
  Bucket_Close this c = Some ((HERMES_SUCCESS, set_id_ this 0), c') /\
  bucket_ref_count c' (Bits.node_id (id_ this)) (id_ this) = Some (ref_count info - 1) /\
  Bucket_Close (set_id_ this 0) c' = Some ((HERMES_SUCCESS, set_id_ this 0), c') /\
  (forall (b : Bucket) (c0 : Cluster),
     Bucket_IsValid b = false -> Bucket_Close b c0 = Some ((HERMES_SUCCESS, b), c0)) /\
  (forall (b b' : Bucket) (c0 c1 : Cluster),
     Bucket_Destroy b c0 = Some ((HERMES_SUCCESS, b'), c1) ->
     Bucket_Close b' c1 = Some ((HERMES_SUCCESS, b'), c1)).
Proof.
  intros Hvalid Hnode Hctx Hinfo Hrc c'.
  assert (Hslot : (node_slot (Bits.node_id (id_ this)) < length c)%nat)
    by (apply lookup_lt_is_Some_1; eauto).
  split; [|split; [|split; [|split]]].
  - unfold Bucket_Close. rewrite Hvalid. unfold bind, DecrementRefcount.
    rewrite dispatch_on_target.
    rewrite (on_node_run _ _ c context _ tt Hnode Hctx
               (LocalDecrementRefcount_run _ _ _ Hinfo Hrc)).
    reflexivity.
  - unfold bucket_ref_count. subst c'. rewrite list_lookup_insert_eq by exact Hslot.
    unfold LocalGetBucketInfoById, LocalGetBucketInfoByIndex in *.
    destruct context as [m p t]. destruct m. cbn in *.
    rewrite list_lookup_insert_eq by (apply lookup_lt_is_Some_1; eauto). reflexivity.
  - apply Bucket_Close_invalid. reflexivity.
  - exact Bucket_Close_invalid.
  - intros b b' c0 c1 Hdestroy. apply Bucket_Close_invalid.
    exact (Bucket_Destroy_success_invalidates _ _ _ _ Hdestroy).
Qed.

Lemma Bucket_Close_decrements_once_witness :
  bucket_ref_count sample_open_cluster 3 (id_ sample_bucket) = Some 1 /\
  exists c',
    Bucket_Close sample_bucket sample_open_cluster =
      Some ((HERMES_SUCCESS, set_id_ sample_bucket 0), c') /\
    bucket_ref_count c' 3 (id_ sample_bucket) = Some 0 /\
    Bucket_Close (set_id_ sample_bucket 0) c' =
      Some ((HERMES_SUCCESS, set_id_ sample_bucket 0), c').
Proof.
  split; [vm_compute; reflexivity|].
  destruct (Bucket_Close_decrements_once sample_bucket sample_open_cluster
              sample_open_context sample_open_info) as (Hclose & Hcount & Hagain & _);
    try (vm_compute; reflexivity); [change (1 <= 1 < 2 ^ 31); lia|].
  eexists. split; [exact Hclose|]. split; [exact Hcount | exact Hagain].
Defined.

Lemma LocalDestroyBucket_in_use (name : string) (id : BucketID)
    (context : SharedMemoryContext) (info : BucketInfo) :
  LocalGetBucketInfoById (mdm context) id = Some info ->
  ref_count info <> 0 ->
  LocalDestroyBucket name id context = Some (false, context).
Proof.
  intros Hinfo Hrc. unfold LocalDestroyBucket, bind, get. rewrite Hinfo.
  destruct (Z.eqb_spec (ref_count info) 0); [contradiction | reflexivity].
Qed.

Lemma LocalDestroyBucket_true (name : string) (id : BucketID)
    (context context' : SharedMemoryContext) (info : BucketInfo) :
  LocalGetBucketInfoById (mdm context) id = Some info ->
  LocalDestroyBucket name id context = Some (true, context') ->
  ref_count info = 0.
Proof.
  intros Hinfo. unfold LocalDestroyBucket, bind, get. rewrite Hinfo.
  destruct (Z.eqb_spec (ref_count info) 0); [intros _; assumption | discriminate].
Qed.

(** C6: while the ref-count of a bucket is greater than zero, [Destroy]
    reports [BUCKET_IN_USE] and leaves the installation and the handle as
    they were; a [Destroy] that succeeds on a valid handle found the
    ref-count at zero. *)
Theorem Bucket_Destroy_refuses_in_use
    (this : Bucket) (c : Cluster) (context : SharedMemoryContext) (info : BucketInfo) :
  Bucket_IsValid this = true ->
  0 < Bits.node_id (id_ this) ->
  c !! node_slot (Bits.node_id (id_ this)) = Some context ->
  LocalGetBucketInfoById (mdm context) (id_ this) = Some info ->
  (0 < ref_count info ->
   Bucket_Destroy this c = Some ((BUCKET_IN_USE, this), c)) /\
  (forall (this' : Bucket) (c' : Cluster),
     Bucket_Destroy this c = Some ((HERMES_SUCCESS, this'), c') ->
     ref_count info = 0).
Proof.
  intros Hvalid Hnode Hctx Hinfo. split.
  - intros Hrc. unfold Bucket_Destroy. rewrite Hvalid. unfold bind, DestroyBucket.
    rewrite dispatch_on_target.
    rewrite (on_node_read _ _ c context false Hnode Hctx
               (LocalDestroyBucket_in_use _ _ _ _ Hinfo ltac:(lia))).
    reflexivity.
  - intros this' c'. unfold Bucket_Destroy. rewrite Hvalid. unfold bind, DestroyBucket.
    rewrite dispatch_on_target. unfold on_node.
    destruct (Z.leb_spec (Bits.node_id (id_ this)) 0); [lia|]. rewrite Hctx.
    destruct (LocalDestroyBucket _ _ context) as [[[|] context']|] eqn:Hlocal;
      try discriminate.
    intros _. exact (LocalDestroyBucket_true _ _ _ _ _ Hinfo Hlocal).
Qed.

Lemma Bucket_Destroy_refuses_in_use_witness :
  bucket_ref_count sample_open_cluster 3 (id_ sample_bucket) = Some 1 /\
  Bucket_Destroy sample_bucket sample_open_cluster =
    Some ((BUCKET_IN_USE, sample_bucket), sample_open_cluster).
Proof.
  split; [vm_compute; reflexivity|].
  apply (Bucket_Destroy_refuses_in_use sample_bucket sample_open_cluster
           sample_open_context sample_open_info);
    try (vm_compute; reflexivity).
Defined.

(** ** Attaching a blob and recovering its name *)

Lemma LocalAddBlobIdToBucket_run (bucket_id : BucketID) (blob_id : BlobID)
    (context : SharedMemoryContext) (info : BucketInfo) :
  LocalGetBucketInfoById (mdm context) bucket_id = Some info ->
  LocalAddBlobIdToBucket bucket_id blob_id context =
  Some (tt, with_bucket_info context (Bits.index bucket_id)
              (set_blobs info (blobs info ++ [blob_id]))).
Proof.
  intros Hinfo. unfold LocalAddBlobIdToBucket, bind, get. rewrite Hinfo. reflexivity.
Qed.

(** What the steps of [AttachBlobToBucket] leave alone. *)
Lemma allocate_keeps (x : SharedMemoryContext) (l : list (list BufferID)) :
  let x' := set_mdm x (set_id_lists (mdm x) l) in
  bucket_info (mdm x') = bucket_info (mdm x) /\
  id_lists (mdm x') = l /\
  blob_reverse_map (mdm x') = blob_reverse_map (mdm x).
Proof. destruct x as [m p t]. destruct m. cbn. auto. Qed.

Lemma put_blob_keeps (x : SharedMemoryContext) (key : string) (val : Z) :
  bucket_info (mdm (set_mdm x (PutToStorage (mdm x) key val kMapType_Blob)))
  = bucket_info (mdm x).
Proof. destruct x as [m p t]. destruct m. reflexivity. Qed.

Lemma with_bucket_info_keeps (x : SharedMemoryContext) (index : Z) (info : BucketInfo) :
  id_lists (mdm (with_bucket_info x index info)) = id_lists (mdm x) /\
  blob_reverse_map (mdm (with_bucket_info x index info)) = blob_reverse_map (mdm x) /\
  blob_map (mdm (with_bucket_info x index info)) = blob_map (mdm x).
Proof. destruct x as [m p t]. destruct m. cbn. auto. Qed.

Lemma LocalGetBlobNameFromId_missing (blob_id : BlobID) (context : SharedMemoryContext) :
  blob_reverse_map (mdm context) !! blob_id = None ->
  LocalGetBlobNameFromId blob_id context = Some (EmptyString, context).
Proof.
  intros Hnone. unfold LocalGetBlobNameFromId, bind, get, ret, ReverseGetFromStorage.
  rewrite Hnone. reflexivity.
Qed.

Section AttachBlob.
Context `{HermesParams}.

(** C2, as the code behaves on several nodes: the buffer-id list goes to
    the node that the blob name hashes to and the BlobID carries that
    node, but the name-to-id entry goes to the node that the internal
    name hashes to; when the two differ, [GetBlobNameFromId] asks the
    first node, finds nothing and returns the empty string. *)
Theorem AttachBlobToBucket_name_not_recovered
    (rpc : RpcContext) (blob_name : string) (bucket_id : BucketID)
    (buffer_ids : list BufferID) (is_swap_blob : bool) (c : Cluster)
    (octx kctx bctx : SharedMemoryContext) (binfo : BucketInfo) :
  1 <= HashString rpc blob_name < 2 ^ 31 ->
  0 < HashString rpc (MakeInternalBlobName blob_name bucket_id) ->
  HashString rpc (MakeInternalBlobName blob_name bucket_id)
    <> HashString rpc blob_name ->
  c !! node_slot (HashString rpc blob_name) = Some octx ->
  c !! node_slot (HashString rpc (MakeInternalBlobName blob_name bucket_id))
    = Some kctx ->
  0 < Bits.node_id bucket_id ->
  c !! node_slot (Bits.node_id bucket_id) = Some bctx ->
  LocalGetBucketInfoById (mdm bctx) bucket_id = Some binfo ->
  Z.of_nat (length (id_lists (mdm octx))) < 2 ^ 32 ->
  blob_reverse_map (mdm octx)
    !! new_blob_id (HashString rpc blob_name) is_swap_blob
         (Z.of_nat (length (id_lists (mdm octx)))) = None ->
  exists c',
    AttachBlobToBucket rpc blob_name bucket_id buffer_ids is_swap_blob c =
      Some (new_blob_id (HashString rpc blob_name) is_swap_blob
              (Z.of_nat (length (id_lists (mdm octx)))), c') /\
    GetBlobNodeId (new_blob_id (HashString rpc blob_name) is_swap_blob
                     (Z.of_nat (length (id_lists (mdm octx)))))
      = HashString rpc blob_name /\
    GetBufferIdList rpc (new_blob_id (HashString rpc blob_name) is_swap_blob
                           (Z.of_nat (length (id_lists (mdm octx))))) c'
      = Some (buffer_ids, c') /\
    GetBlobNameFromId rpc (new_blob_id (HashString rpc blob_name) is_swap_blob
                             (Z.of_nat (length (id_lists (mdm octx))))) c'
      = Some (EmptyString, c').
Proof.
  set (owner := HashString rpc blob_name).
  set (key := MakeInternalBlobName blob_name bucket_id).
  set (keeper := HashString rpc key).
  set (lists := id_lists (mdm octx)).
  set (blob_id := new_blob_id owner is_swap_blob (Z.of_nat (length lists))).
  set (so := node_slot owner). set (sk := node_slot keeper).
  set (sb := node_slot (Bits.node_id bucket_id)).
  intros Howner Hkeeper Hdiff Hoctx Hkctx Hbnode Hbctx Hbinfo Hlen Hfresh.
  assert (Hslots : sk <> so).
  { intros Heq. apply Hdiff. apply node_slot_inj; [lia | lia | exact Heq]. }
  assert (Hso : (so < length c)%nat) by (apply lookup_lt_is_Some_1; eauto).
  assert (Hsk : (sk < length c)%nat) by (apply lookup_lt_is_Some_1; eauto).
  assert (Hsb : (sb < length c)%nat) by (apply lookup_lt_is_Some_1; eauto).
  (* the buffer-id list goes to the owner of the blob name *)
  set (octx1 := set_mdm octx (set_id_lists (mdm octx) (lists ++ [buffer_ids]))).
  set (c1 := <[so := octx1]> c).
  destruct (allocate_keeps octx (lists ++ [buffer_ids])) as (Hb1 & Hl1 & Hr1).
  fold octx1 in Hb1, Hl1, Hr1.
  (* the name-to-id entry goes to the owner of the internal name *)
  set (kctx2 := set_mdm kctx (PutToStorage (mdm kctx) key blob_id kMapType_Blob)).
  set (c2 := <[sk := kctx2]> c1).
  assert (Hc1k : c1 !! sk = Some kctx)
    by (subst c1; rewrite list_lookup_insert_ne by congruence; exact Hkctx).
  assert (Hc2o : c2 !! so = Some octx1).
  { subst c2 c1. rewrite list_lookup_insert_ne by congruence.
    apply list_lookup_insert_eq. exact Hso. }
  (* the bucket's blob list is on the node of the bucket *)
  assert (Hb2 : exists bctx2,
             c2 !! sb = Some bctx2 /\
             bucket_info (mdm bctx2) = bucket_info (mdm bctx) /\
             (sb = so -> bctx2 = octx1)).
  { destruct (decide (sb = sk)) as [Heq|Hne].
    - exists kctx2. subst c2. rewrite Heq, list_lookup_insert_eq
        by (subst c1; rewrite length_insert; exact Hsk).
      split; [reflexivity|]. split; [|intros ->; contradiction].
      fold sb in Hbctx. rewrite Heq in Hbctx. fold sk in Hkctx.
      rewrite Hkctx in Hbctx. injection Hbctx as <-. apply put_blob_keeps.
    - destruct (decide (sb = so)) as [Heq|Hne'].
      + exists octx1. rewrite Heq. split; [exact Hc2o|]. split; [|reflexivity].
        fold sb in Hbctx. rewrite Heq in Hbctx. fold so in Hoctx.
        rewrite Hoctx in Hbctx. injection Hbctx as <-. exact Hb1.
      + exists bctx. subst c2 c1. rewrite !list_lookup_insert_ne by congruence.
        split; [exact Hbctx|]. split; [reflexivity | contradiction]. }
  destruct Hb2 as (bctx2 & Hc2b & Hbuckets & Hsame).
  assert (Hbinfo2 : LocalGetBucketInfoById (mdm bctx2) bucket_id = Some binfo).
  { unfold LocalGetBucketInfoById, LocalGetBucketInfoByIndex in *.
    rewrite Hbuckets. exact Hbinfo. }
  set (bctx3 := with_bucket_info bctx2 (Bits.index bucket_id)
                  (set_blobs binfo (blobs binfo ++ [blob_id]))).
  set (c3 := <[sb := bctx3]> c2).
  assert (Hc3o : exists octx3,
             c3 !! so = Some octx3 /\
             id_lists (mdm octx3) = lists ++ [buffer_ids] /\
             blob_reverse_map (mdm octx3) = blob_reverse_map (mdm octx)).
  { destruct (decide (sb = so)) as [Heq|Hne].
    - exists bctx3. subst c3. rewrite Heq, list_lookup_insert_eq
        by (subst c2 c1; rewrite !length_insert; exact Hso).
      split; [reflexivity|]. subst bctx3.
      destruct (with_bucket_info_keeps bctx2 (Bits.index bucket_id)
                  (set_blobs binfo (blobs binfo ++ [blob_id]))) as (-> & -> & _).
      rewrite (Hsame Heq). split; assumption.
    - exists octx1. subst c3. rewrite list_lookup_insert_ne by congruence.
      split; [exact Hc2o|]. split; assumption. }
  destruct Hc3o as (octx3 & Hc3o & Hl3 & Hr3).
  assert (Hnode : GetBlobNodeId blob_id = owner)
    by (apply GetBlobNodeId_new_blob_id; exact Howner).
  exists c3. split; [|split; [exact Hnode|split]].
  - unfold AttachBlobToBucket. fold owner. rewrite (to_i32_small owner) by lia.
    unfold bind at 1. unfold AllocateBufferIdList. rewrite dispatch_on_target.
    rewrite (to_u32_small owner) by lia.
    rewrite (on_node_run owner _ c octx octx1 (to_u32 (Z.of_nat (length lists))))
      by (lia || assumption || reflexivity).
    rewrite (to_u32_small (Z.of_nat (length lists))) by lia.
    fold (new_blob_id owner is_swap_blob (Z.of_nat (length lists))). fold blob_id.
    fold so c1. unfold bind at 1. unfold PutBlobId, PutId. fold key keeper.
    rewrite dispatch_on_target.
    rewrite (on_node_run keeper _ c1 kctx kctx2 tt) by (assumption || reflexivity).
    fold sk c2. unfold bind. unfold AddBlobIdToBucket. rewrite dispatch_on_target.
    rewrite (on_node_run (Bits.node_id bucket_id) _ c2 bctx2 bctx3 tt Hbnode Hc2b
               (LocalAddBlobIdToBucket_run _ _ _ _ Hbinfo2)).
    reflexivity.
  - unfold GetBufferIdList. rewrite dispatch_on_target, Hnode.
    apply (on_node_read owner _ c3 octx3); [lia | exact Hc3o |].
    unfold LocalGetBufferIdList. subst blob_id.
    rewrite new_blob_id_offset, Nat2Z.id by lia. rewrite Hl3.
    rewrite lookup_app_r by lia. rewrite Nat.sub_diag. reflexivity.
  - unfold GetBlobNameFromId. rewrite dispatch_on_target, Hnode.
    apply (on_node_read owner _ c3 octx3); [lia | exact Hc3o |].
    apply LocalGetBlobNameFromId_missing. rewrite Hr3. exact Hfresh.
Qed.
End AttachBlob.

Lemma AttachBlobToBucket_name_not_recovered_witness :
  @HashString sample_params sample_rpc "k" = 3 /\
  @HashString sample_params sample_rpc (MakeInternalBlobName "k" (2 ^ 32)) = 1 /\
  exists c',
    @AttachBlobToBucket sample_params sample_rpc "k" (2 ^ 32) [7; 8] false
      sample_cluster_c = Some (3 * 2 ^ 32, c') /\
    GetBlobNodeId (3 * 2 ^ 32) = 3 /\
    GetBufferIdList sample_rpc (3 * 2 ^ 32) c' = Some ([7; 8], c') /\
    GetBlobNameFromId sample_rpc (3 * 2 ^ 32) c' = Some (EmptyString, c').
Proof.
  split; [reflexivity|]. split; [vm_compute; reflexivity|].
  destruct (@AttachBlobToBucket_name_not_recovered sample_params sample_rpc "k"
              (2 ^ 32) [7; 8] false sample_cluster_c
              (nth 2 sample_cluster_c (sample_context 3 [] []))
              (nth 0 sample_cluster_c (sample_context 1 [] []))
              (nth 0 sample_cluster_c (sample_context 1 [] []))
              (nth 0 (bucket_info (mdm (nth 0 sample_cluster_c (sample_context 1 [] []))))
                 BucketInfo_zero))
    as (c' & Hattach & Hnode & Hlist & Hname).
  - vm_compute. split; [discriminate | reflexivity].
  - vm_compute. reflexivity.
  - vm_compute. discriminate.
  - vm_compute. reflexivity.
  - vm_compute. reflexivity.
  - vm_compute. reflexivity.
  - vm_compute. reflexivity.
  - vm_compute. reflexivity.
  - vm_compute. reflexivity.
  - vm_compute. reflexivity.
  - exists c'. split; [exact Hattach|]. split; [exact Hnode|].
    split; [exact Hlist | exact Hname].
Defined.

(** Where both names share an owner (on a single node they always do), the
    reverse lookup does return the blob name. *)
Lemma LocalGetBlobNameFromId_found (blob_id : BlobID) (context : SharedMemoryContext)
    (blob_name : string) (bucket_id : BucketID) :
  blob_reverse_map (mdm context) !! blob_id
    = Some (MakeInternalBlobName blob_name bucket_id) ->
  LocalGetBlobNameFromId blob_id context = Some (blob_name, context).
Proof.
  intros Hfound. unfold LocalGetBlobNameFromId, bind, get, ret, ReverseGetFromStorage.
  rewrite Hfound. unfold default, from_option, id. f_equal. f_equal.
  rewrite MakeInternalBlobName_prefix. unfold size. rewrite append_length, hex_prefix_length.
  change (2 * sizeof_BucketID)%nat with kBucketIdStringSize.
  destruct blob_name as [|x blob_name].
  - cbn [String.length]. destruct (Z.gtb_spec (Z.of_nat (kBucketIdStringSize + 0))
                                     (Z.of_nat kBucketIdStringSize)); [lia | reflexivity].
  - destruct (Z.gtb_spec (Z.of_nat (kBucketIdStringSize + String.length (String x blob_name)))
                (Z.of_nat kBucketIdStringSize)) as [_|Hle]; [|cbn [String.length] in Hle; lia].
    replace kBucketIdStringSize with (String.length (hex_prefix sizeof_BucketID bucket_id))
      by apply hex_prefix_length.
    apply substr_from_append.
Qed.

Lemma put_blob_reverse (x : SharedMemoryContext) (key : string) (val : Z) :
  blob_reverse_map (mdm (set_mdm x (PutToStorage (mdm x) key val kMapType_Blob))) !! val
  = Some key.
Proof.
  destruct x as [m p t]. destruct m. cbn. apply lookup_insert_eq.
Qed.

Section AttachBlobOneOwner.
Context `{HermesParams}.

Lemma AttachBlobToBucket_name_recovered_on_one_owner
    (rpc : RpcContext) (blob_name : string) (bucket_id : BucketID)
    (buffer_ids : list BufferID) (is_swap_blob : bool) (c : Cluster)
    (octx bctx : SharedMemoryContext) (binfo : BucketInfo) :
  1 <= HashString rpc blob_name < 2 ^ 31 ->
  HashString rpc (MakeInternalBlobName blob_name bucket_id)
    = HashString rpc blob_name ->
  c !! node_slot (HashString rpc blob_name) = Some octx ->
  0 < Bits.node_id bucket_id ->
  c !! node_slot (Bits.node_id bucket_id) = Some bctx ->
  LocalGetBucketInfoById (mdm bctx) bucket_id = Some binfo ->
  Z.of_nat (length (id_lists (mdm octx))) < 2 ^ 32 ->
  exists c',
    AttachBlobToBucket rpc blob_name bucket_id buffer_ids is_swap_blob c =
      Some (new_blob_id (HashString rpc blob_name) is_swap_blob
              (Z.of_nat (length (id_lists (mdm octx)))), c') /\
    GetBlobNameFromId rpc (new_blob_id (HashString rpc blob_name) is_swap_blob
                             (Z.of_nat (length (id_lists (mdm octx))))) c'
      = Some (blob_name, c').
Proof.
  set (owner := HashString rpc blob_name).
  set (key := MakeInternalBlobName blob_name bucket_id).
  set (lists := id_lists (mdm octx)).
  set (blob_id := new_blob_id owner is_swap_blob (Z.of_nat (length lists))).
  set (so := node_slot owner).
  set (sb := node_slot (Bits.node_id bucket_id)).
  intros Howner Hkeeper Hoctx Hbnode Hbctx Hbinfo Hlen.
  assert (Hso : (so < length c)%nat) by (apply lookup_lt_is_Some_1; eauto).
  set (octx1 := set_mdm octx (set_id_lists (mdm octx) (lists ++ [buffer_ids]))).
  set (c1 := <[so := octx1]> c).
  destruct (allocate_keeps octx (lists ++ [buffer_ids])) as (Hb1 & _ & _).
  fold octx1 in Hb1.
  set (octx2 := set_mdm octx1 (PutToStorage (mdm octx1) key blob_id kMapType_Blob)).
  set (c2 := <[so := octx2]> c1).
  assert (Hc1o : c1 !! so = Some octx1)
    by (subst c1; apply list_lookup_insert_eq; exact Hso).
  assert (Hc2o : c2 !! so = Some octx2)
    by (subst c2 c1; apply list_lookup_insert_eq; rewrite length_insert; exact Hso).
  assert (Hb2 : exists bctx2,
             c2 !! sb = Some bctx2 /\
             bucket_info (mdm bctx2) = bucket_info (mdm bctx) /\
             (sb = so -> bctx2 = octx2)).
  { destruct (decide (sb = so)) as [Heq|Hne].
    - exists octx2. rewrite Heq. split; [exact Hc2o|]. split; [|reflexivity].
      fold sb in Hbctx. rewrite Heq in Hbctx. fold so in Hoctx.
      rewrite Hoctx in Hbctx. injection Hbctx as <-.
      subst octx2. rewrite put_blob_keeps. exact Hb1.
    - exists bctx. subst c2 c1. rewrite !list_lookup_insert_ne by congruence.
      split; [exact Hbctx|]. split; [reflexivity | contradiction]. }
  destruct Hb2 as (bctx2 & Hc2b & Hbuckets & Hsame).
  assert (Hbinfo2 : LocalGetBucketInfoById (mdm bctx2) bucket_id = Some binfo).
  { unfold LocalGetBucketInfoById, LocalGetBucketInfoByIndex in *.
    rewrite Hbuckets. exact Hbinfo. }
  set (bctx3 := with_bucket_info bctx2 (Bits.index bucket_id)
                  (set_blobs binfo (blobs binfo ++ [blob_id]))).
  set (c3 := <[sb := bctx3]> c2).
  assert (Hc3o : exists octx3,
             c3 !! so = Some octx3 /\
             blob_reverse_map (mdm octx3) !! blob_id = Some key).
  { destruct (decide (sb = so)) as [Heq|Hne].
    - exists bctx3. subst c3. rewrite Heq, list_lookup_insert_eq
        by (subst c2 c1; rewrite !length_insert; exact Hso).
      split; [reflexivity|]. subst bctx3.
      destruct (with_bucket_info_keeps bctx2 (Bits.index bucket_id)
                  (set_blobs binfo (blobs binfo ++ [blob_id]))) as (_ & -> & _).
      rewrite (Hsame Heq). apply put_blob_reverse.
    - exists octx2. subst c3. rewrite list_lookup_insert_ne by congruence.
      split; [exact Hc2o | apply put_blob_reverse]. }
  destruct Hc3o as (octx3 & Hc3o & Hr3).
  exists c3. split.
  - unfold AttachBlobToBucket. fold owner. rewrite (to_i32_small owner) by lia.
    unfold bind at 1. unfold AllocateBufferIdList. rewrite dispatch_on_target.
    rewrite (to_u32_small owner) by lia.
    rewrite (on_node_run owner _ c octx octx1 (to_u32 (Z.of_nat (length lists))))
      by (lia || assumption || reflexivity).
    rewrite (to_u32_small (Z.of_nat (length lists))) by lia.
    fold (new_blob_id owner is_swap_blob (Z.of_nat (length lists))). fold blob_id.
    fold so c1. unfold bind at 1. unfold PutBlobId, PutId. fold key.
    rewrite dispatch_on_target. fold key in Hkeeper. rewrite Hkeeper.
    rewrite (on_node_run owner _ c1 octx1 octx2 tt) by (lia || assumption || reflexivity).
    fold so c2. unfold bind. unfold AddBlobIdToBucket. rewrite dispatch_on_target.
    rewrite (on_node_run (Bits.node_id bucket_id) _ c2 bctx2 bctx3 tt Hbnode Hc2b
               (LocalAddBlobIdToBucket_run _ _ _ _ Hbinfo2)).
    reflexivity.
  - unfold GetBlobNameFromId. rewrite dispatch_on_target.
    subst blob_id. rewrite GetBlobNodeId_new_blob_id by exact Howner.
    apply (on_node_read owner _ c3 octx3); [lia | exact Hc3o |].
    apply (LocalGetBlobNameFromId_found _ _ blob_name bucket_id). exact Hr3.
Qed.
End AttachBlobOneOwner.

(** * Further properties *)

(** ** Names as the code reads them *)

Lemma hex_digit_not_NUL (d : Z) : Ascii.eqb (hex_digit d) Ascii.zero = false.
Proof.
  unfold hex_digit.
  assert (Hall : Forall (fun c => Ascii.eqb c Ascii.zero = false)
                   (list_ascii_of_string "0123456789abcdef"))
    by (repeat constructor).
  destruct (nth_in_or_default (Z.to_nat d) (list_ascii_of_string "0123456789abcdef")
              "0"%char) as [Hin | ->]; [|reflexivity].
  rewrite Forall_forall in Hall. apply Hall, list_elem_of_In. exact Hin.
Qed.

Lemma c_str_hex_prefix (n : nat) (as_int : Z) (s : string) :
  c_str (hex_prefix n as_int +:+ s) = (hex_prefix n as_int +:+ c_str s)%string.
Proof.
  induction n as [|n IH]; cbn [hex_prefix].
  - rewrite !append_nil_l. reflexivity.
  - rewrite !append_cons. cbn [c_str]. rewrite !hex_digit_not_NUL, IH. reflexivity.
Qed.

(** The sixteen digits hold no NUL, so [internal_name.c_str()] is the
    internal name of [name.c_str()]: for a name without an embedded NUL it
    is the internal name itself. *)
Lemma c_str_MakeInternalBlobName (name : string) (id : BucketID) :
  c_str (MakeInternalBlobName name id) = MakeInternalBlobName (c_str name) id.
Proof. rewrite !MakeInternalBlobName_prefix. apply c_str_hex_prefix. Qed.

(** ** Internal blob names as keys *)

Lemma HexStringToU64_hex_prefix (id : Z) (name : string) :
  HexStringToU64 (hex_prefix sizeof_BucketID id +:+ name) = id mod 2 ^ 64.
Proof.
  unfold HexStringToU64.
  replace kBucketIdStringSize with (String.length (hex_prefix sizeof_BucketID id))
    by apply hex_prefix_length.
  pose proof (HexStringToU64_loop_append (hex_prefix sizeof_BucketID id)
                EmptyString name 0) as Hloop.
  rewrite append_nil_l in Hloop. cbn [String.length] in Hloop. rewrite Hloop.
  assert (Hr : 0 <= 0 < 256 ^ (8 - Z.of_nat sizeof_BucketID))
    by (change (8 - Z.of_nat sizeof_BucketID) with 0; lia).
  rewrite (hex_fold_prefix id sizeof_BucketID (Nat.le_refl 8) 0 Hr).
  change (256 ^ Z.of_nat sizeof_BucketID) with (2 ^ 64). lia.
Qed.

Lemma MakeInternalBlobName_size (name : string) (id : BucketID) :
  size (MakeInternalBlobName name id) = Z.of_nat kBucketIdStringSize + size name.
Proof.
  rewrite MakeInternalBlobName_prefix. unfold size.
  rewrite append_length, hex_prefix_length. unfold kBucketIdStringSize. lia.
Qed.

Lemma MakeInternalBlobName_inj (name1 name2 : string) (id1 id2 : BucketID) :
  0 <= id1 < 2 ^ 64 -> 0 <= id2 < 2 ^ 64 ->
  MakeInternalBlobName name1 id1 = MakeInternalBlobName name2 id2 ->
  name1 = name2 /\ id1 = id2.
Proof.
  intros H1 H2 Heq. rewrite !MakeInternalBlobName_prefix in Heq. split.
  - apply (f_equal (substr_from kBucketIdStringSize)) in Heq.
    replace kBucketIdStringSize with (String.length (hex_prefix sizeof_BucketID id1))
      in Heq at 1 by apply hex_prefix_length.
    replace kBucketIdStringSize with (String.length (hex_prefix sizeof_BucketID id2))
      in Heq by apply hex_prefix_length.
    rewrite !substr_from_append in Heq. exact Heq.
  - apply (f_equal HexStringToU64) in Heq.
    rewrite !HexStringToU64_hex_prefix in Heq.
    rewrite !Z.mod_small in Heq by assumption. exact Heq.
Qed.

(** X1: The internal name is a faithful key: two pairs of a blob name and a
    64-bit bucket id that get the same internal name are the same pair, and
    the internal name is [kBucketIdStringSize] characters longer than the
    blob name. *)
Theorem MakeInternalBlobName_is_a_key (name1 name2 : string) (id1 id2 : BucketID) :
  0 <= id1 < 2 ^ 64 -> 0 <= id2 < 2 ^ 64 ->
  (MakeInternalBlobName name1 id1 = MakeInternalBlobName name2 id2 <->
   name1 = name2 /\ id1 = id2) /\
  size (MakeInternalBlobName name1 id1) = Z.of_nat kBucketIdStringSize + size name1.
Proof.
  intros H1 H2. split; [split|].
  - apply MakeInternalBlobName_inj; assumption.
  - intros [-> ->]. reflexivity.
  - apply MakeInternalBlobName_size.
Qed.

Lemma MakeInternalBlobName_is_a_key_witness :
  (MakeInternalBlobName "k" (2 ^ 32) = MakeInternalBlobName "k" (3 * 2 ^ 32) <->
   "k"%string = "k"%string /\ 2 ^ 32 = 3 * 2 ^ 32) /\
  size (MakeInternalBlobName "k" (2 ^ 32)) = Z.of_nat kBucketIdStringSize + size "k".
Proof. apply MakeInternalBlobName_is_a_key; lia. Defined.

(** ** Decoding the hex prefix *)

Lemma hextable_range (n : nat) : 0 <= nth n hextable 0 < 16.
Proof.
  assert (Hall : Forall (fun x => 0 <= x < 16) hextable).
  { refine (bool_decide_unpack _ _). vm_compute. exact I. }
  destruct (nth_in_or_default n hextable 0) as [Hin | ->]; [|lia].
  rewrite Forall_forall in Hall. apply Hall. apply list_elem_of_In. exact Hin.
Qed.

Lemma lor_u64 (a b : Z) : 0 <= a < 2 ^ 64 -> 0 <= b < 2 ^ 64 -> 0 <= Z.lor a b < 2 ^ 64.
Proof.
  intros Ha Hb. split; [apply Z.lor_nonneg; lia|].
  destruct (Z.eq_dec (Z.lor a b) 0) as [->|Hnz]; [lia|].
  apply Z.log2_lt_pow2; [pose proof (proj2 (Z.lor_nonneg a b)); lia|].
  rewrite Z.log2_lor by lia.
  apply Z.max_lub_lt.
  - destruct (Z.eq_dec a 0) as [->|]; [cbn; lia|]. apply Z.log2_lt_pow2; lia.
  - destruct (Z.eq_dec b 0) as [->|]; [cbn; lia|]. apply Z.log2_lt_pow2; lia.
Qed.

Lemma hex_step_range (result : Z) (c : ascii) : 0 <= hex_step result c < 2 ^ 64.
Proof.
  unfold hex_step. apply lor_u64.
  - unfold to_u64. apply Z.mod_pos_bound. lia.
  - pose proof (hextable_range (char_code c)). lia.
Qed.

Lemma HexStringToU64_loop_range (s : string) (n : nat) :
  forall (i : nat) (result : Z),
    0 <= result < 2 ^ 64 -> 0 <= HexStringToU64_loop s i n result < 2 ^ 64.
Proof.
  induction n as [|n IH]; intros i result Hr; cbn [HexStringToU64_loop]; [exact Hr|].
  apply IH. apply hex_step_range.
Qed.

(** X2: on a string that begins with [kBucketIdStringSize] characters below
    128, where the loop stays inside the string and indexes the table from
    0, [HexStringToU64] reads these characters only: what follows them does
    not change the result, which is a 64-bit value. *)
Theorem HexStringToU64_reads_the_prefix (prefix rest rest' : string) :
  String.length prefix = kBucketIdStringSize ->
  seven_bit prefix = true ->
  HexStringToU64 (prefix +:+ rest) = HexStringToU64 (prefix +:+ rest') /\
  0 <= HexStringToU64 (prefix +:+ rest) < 2 ^ 64.
Proof.
  intros Hlen _. split.
  - unfold HexStringToU64. rewrite <- Hlen.
    pose proof (HexStringToU64_loop_append prefix EmptyString rest 0) as H1.
    pose proof (HexStringToU64_loop_append prefix EmptyString rest' 0) as H2.
    rewrite append_nil_l in H1, H2. cbn [String.length] in H1, H2.
    rewrite H1, H2. reflexivity.
  - apply HexStringToU64_loop_range. lia.
Qed.

Lemma HexStringToU64_reads_the_prefix_witness :
  HexStringToU64 ("00000000DEADbeef" +:+ "blob")
    = HexStringToU64 ("00000000DEADbeef" +:+ "another") /\
  0 <= HexStringToU64 ("00000000DEADbeef" +:+ "blob") < 2 ^ 64.
Proof. apply HexStringToU64_reads_the_prefix; reflexivity. Defined.

(** ** Swap records as lists *)

(** X3: For a list of [SwapBlobMembers_Count] entries, going to the record
    with [VecToSwapBlob] and back with [SwapBlobToVec] returns the list
    with its node-id entry cut to 32 bits and the other entries as they
    were. *)
Theorem VecToSwapBlob_back_to_vec (vec : list BufferID) :
  length vec = SwapBlobMembers_Count ->
  SwapBlobToVec (VecToSwapBlob vec) =
  <[SwapBlobMembers_NodeId := to_u32 (nth SwapBlobMembers_NodeId vec 0)]> vec.
Proof.
  intros Hlen. unfold VecToSwapBlob. rewrite Hlen, Nat.eqb_refl.
  destruct vec as [|a [|b [|c [|d [|e vec]]]]]; try discriminate Hlen. reflexivity.
Qed.

Lemma VecToSwapBlob_back_to_vec_witness :
  SwapBlobToVec (VecToSwapBlob [2 ^ 32 + 3; 4096; 100; 7]) = [3; 4096; 100; 7].
Proof.
  apply (VecToSwapBlob_back_to_vec [2 ^ 32 + 3; 4096; 100; 7]). reflexivity.
Defined.

(** ** Searching a target list *)

(** X4: [FindTargetIdFromDeviceId] returns the first target of the list whose
    device is the one asked for, and the null id when no target has it. *)
Theorem FindTargetIdFromDeviceId_first_match (bits_device_id : TargetID -> Z)
    (targets : list TargetID) (device_id : Z) :
  (exists (before after : list TargetID) (target : TargetID),
     targets = before ++ target :: after /\
     Forall (fun t => bits_device_id t <> device_id) before /\
     bits_device_id target = device_id /\
     FindTargetIdFromDeviceId bits_device_id targets device_id = target) \/
  (Forall (fun t => bits_device_id t <> device_id) targets /\
   IsNullTargetId (FindTargetIdFromDeviceId bits_device_id targets device_id) = true).
Proof.
  induction targets as [|t rest IH]; cbn [FindTargetIdFromDeviceId].
  - right. split; [constructor | reflexivity].
  - destruct (Z.eqb_spec (bits_device_id t) device_id) as [Heq|Hne].
    + left. exists [], rest, t. split; [reflexivity|]. split; [constructor|].
      split; [exact Heq | reflexivity].
    + destruct IH as [(before & after & target & -> & Hbefore & Hdev & Hfind) | [Hall Hnull]].
      * left. exists (t :: before), after, target. split; [reflexivity|].
        split; [constructor; assumption|]. split; assumption.
      * right. split; [constructor; assumption | exact Hnull].
Qed.

(** ** The ring of nodes *)

(** X5: On a ring of [num_nodes] nodes the next node and the previous node of
    a node are nodes of the ring, and each undoes the other. *)
Theorem GetNextNode_GetPreviousNode_inverse (rpc : RpcContext) (c : Cluster) :
  1 <= node_id rpc <= num_nodes rpc ->
  num_nodes rpc + 1 < 2 ^ 31 ->
  exists next prev : Z,
    GetNextNode rpc c = Some (next, c) /\
    GetPreviousNode rpc c = Some (prev, c) /\
    1 <= next <= num_nodes rpc /\ 1 <= prev <= num_nodes rpc /\
    GetPreviousNode {| node_id := next; num_nodes := num_nodes rpc |} c
      = Some (node_id rpc, c) /\
    GetNextNode {| node_id := prev; num_nodes := num_nodes rpc |} c
      = Some (node_id rpc, c).
Proof.
  intros Hid Hn. exists (ring_next rpc), (ring_prev rpc).
  assert (Hnext : 1 <= ring_next rpc <= num_nodes rpc).
  { unfold ring_next. destruct (Z.eqb_spec (node_id rpc) (num_nodes rpc)); lia. }
  assert (Hprev : 1 <= ring_prev rpc <= num_nodes rpc).
  { unfold ring_prev. destruct (Z.eqb_spec (node_id rpc) 1); lia. }
  split; [apply GetNextNode_run; assumption|].
  split; [apply GetPreviousNode_run; assumption|].
  split; [exact Hnext|]. split; [exact Hprev|]. split.
  - rewrite GetPreviousNode_run by (cbn; lia). f_equal. f_equal.
    unfold ring_prev, ring_next. cbn [node_id num_nodes].
    destruct (Z.eqb_spec (node_id rpc) (num_nodes rpc)) as [Hlast|Hmid].
    + rewrite Z.eqb_refl. lia.
    + destruct (Z.eqb_spec (node_id rpc + 1) 1); lia.
  - rewrite GetNextNode_run by (cbn; lia). f_equal. f_equal.
    unfold ring_prev, ring_next. cbn [node_id num_nodes].
    destruct (Z.eqb_spec (node_id rpc) 1) as [Hfirst|Hmid].
    + rewrite Z.eqb_refl. lia.
    + destruct (Z.eqb_spec (node_id rpc - 1) (num_nodes rpc)); lia.
Qed.

Lemma GetNextNode_GetPreviousNode_inverse_witness :
  exists next prev : Z,
    GetNextNode {| node_id := 3; num_nodes := 3 |} sample_cluster3
      = Some (next, sample_cluster3) /\
    GetPreviousNode {| node_id := 3; num_nodes := 3 |} sample_cluster3
      = Some (prev, sample_cluster3) /\
    next = 1 /\ prev = 2.
Proof.
  destruct (GetNextNode_GetPreviousNode_inverse {| node_id := 3; num_nodes := 3 |}
              sample_cluster3) as (next & prev & Hnext & Hprev & _);
    [cbn; lia | cbn; lia |].
  exists next, prev. split; [exact Hnext|]. split; [exact Hprev|].
  vm_compute in Hnext, Hprev. split; congruence.
Defined.

(** ** Reading and writing the directory *)

Lemma GetFromStorage_PutToStorage (m : MetadataManager) (key : string) (val : Z)
    (map_type : MapType) :
  GetFromStorage (PutToStorage m key val map_type) key map_type = val.
Proof.
  destruct m, map_type; cbn; rewrite lookup_insert_eq; reflexivity.
Qed.

Lemma GetFromStorage_DeleteFromStorage (m : MetadataManager) (key : string)
    (map_type : MapType) :
  GetFromStorage (DeleteFromStorage m key map_type) key map_type = 0.
Proof.
  destruct m, map_type; cbn; rewrite lookup_delete_eq; reflexivity.
Qed.

Lemma GetFromStorage_PutToStorage_other (m : MetadataManager) (key key' : string)
    (val : Z) (map_type map_type' : MapType) :
  key' <> key \/ map_type' <> map_type ->
  GetFromStorage (PutToStorage m key val map_type) key' map_type'
  = GetFromStorage m key' map_type'.
Proof.
  intros Hother. destruct m, map_type, map_type'; cbn;
    try reflexivity; (destruct Hother as [Hk | Ht]; [|contradiction]);
    rewrite lookup_insert_ne by congruence; reflexivity.
Qed.

Lemma GetFromStorage_DeleteFromStorage_other (m : MetadataManager) (key key' : string)
    (map_type map_type' : MapType) :
  key' <> key \/ map_type' <> map_type ->
  GetFromStorage (DeleteFromStorage m key map_type) key' map_type'
  = GetFromStorage m key' map_type'.
Proof.
  intros Hother. destruct m, map_type, map_type'; cbn;
    try reflexivity; (destruct Hother as [Hk | Ht]; [|contradiction]);
    rewrite lookup_delete_ne by congruence; reflexivity.
Qed.

Lemma mdm_set_mdm (context : SharedMemoryContext) (m : MetadataManager) :
  mdm (set_mdm context m) = m.
Proof. reflexivity. Qed.

Lemma insert_pointwise (c : Cluster) (i : nat) (v : SharedMemoryContext) (s : nat) :
  (i < length c)%nat ->
  <[i := v]> c !! s = if decide (s = i) then Some v else c !! s.
Proof.
  intros Hi. destruct (decide (s = i)) as [->|Hne].
  - apply list_lookup_insert_eq. exact Hi.
  - apply list_lookup_insert_ne. congruence.
Qed.

Section DirectoryFacts.
Context `{HermesParams}.

(** A lookup reads the map of the owner of the key and changes nothing. *)
Lemma GetId_eq (rpc : RpcContext) (name : string) (map_type : MapType) (c : Cluster) :
  GetId rpc name map_type c =
  if HashString rpc name <=? 0 then None
  else match c !! node_slot (HashString rpc name) with
       | Some context => Some (GetFromStorage (mdm context) name map_type, c)
       | None => None
       end.
Proof.
  unfold GetId. rewrite dispatch_on_target. unfold on_node, LocalGet.
  destruct (HashString rpc name <=? 0); [reflexivity|].
  destruct (c !! node_slot (HashString rpc name)) as [context|] eqn:Hctx; [|reflexivity].
  rewrite list_insert_id by exact Hctx. reflexivity.
Qed.

Lemma PutId_eq (rpc : RpcContext) (name : string) (id : Z) (map_type : MapType)
    (c : Cluster) (context : SharedMemoryContext) :
  0 < HashString rpc name ->
  c !! node_slot (HashString rpc name) = Some context ->
  PutId rpc name id map_type c =
  Some (tt, <[node_slot (HashString rpc name) :=
               set_mdm context (PutToStorage (mdm context) name id map_type)]> c).
Proof.
  intros Hpos Hctx. unfold PutId. rewrite dispatch_on_target.
  apply (on_node_run _ _ c context); [exact Hpos | exact Hctx | reflexivity].
Qed.

Lemma DeleteId_eq (rpc : RpcContext) (name : string) (map_type : MapType)
    (c : Cluster) (context : SharedMemoryContext) :
  0 < HashString rpc name ->
  c !! node_slot (HashString rpc name) = Some context ->
  DeleteId rpc name map_type c =
  Some (tt, <[node_slot (HashString rpc name) :=
               set_mdm context (DeleteFromStorage (mdm context) name map_type)]> c).
Proof.
  intros Hpos Hctx. unfold DeleteId. rewrite dispatch_on_target.
  apply (on_node_run _ _ c context); [exact Hpos | exact Hctx | reflexivity].
Qed.

(** A lookup after a change of one node that kept the binding looked up. *)
Lemma GetId_after (rpc : RpcContext) (name : string) (map_type : MapType)
    (c : Cluster) (s : nat) (x x' : SharedMemoryContext) :
  c !! s = Some x ->
  GetFromStorage (mdm x') name map_type = GetFromStorage (mdm x) name map_type ->
  GetId rpc name map_type (<[s := x']> c) =
  match GetId rpc name map_type c with
  | Some (v, _) => Some (v, <[s := x']> c)
  | None => None
  end.
Proof.
  intros Hx Hsame. rewrite !GetId_eq.
  destruct (HashString rpc name <=? 0); [reflexivity|].
  assert (Hs : (s < length c)%nat) by (apply lookup_lt_is_Some_1; eauto).
  rewrite insert_pointwise by exact Hs.
  destruct (decide (node_slot (HashString rpc name) = s)) as [->|Hne].
  - rewrite Hx, Hsame. reflexivity.
  - destruct (c !! node_slot (HashString rpc name)); reflexivity.
Qed.

End DirectoryFacts.


(** ** What attaching a blob changes *)

Section AttachRun.
Context `{HermesParams}.

Lemma AttachBlobToBucket_run
    (rpc : RpcContext) (blob_name : string) (bucket_id : BucketID)
    (buffer_ids : list BufferID) (is_swap_blob : bool) (c : Cluster)
    (octx kctx bctx : SharedMemoryContext) (binfo : BucketInfo) :
  1 <= HashString rpc blob_name < 2 ^ 31 ->
  0 < HashString rpc (MakeInternalBlobName blob_name bucket_id) ->
  c !! node_slot (HashString rpc blob_name) = Some octx ->
  c !! node_slot (HashString rpc (MakeInternalBlobName blob_name bucket_id))
    = Some kctx ->
  0 < Bits.node_id bucket_id ->
  c !! node_slot (Bits.node_id bucket_id) = Some bctx ->
  LocalGetBucketInfoById (mdm bctx) bucket_id = Some binfo ->
  Z.of_nat (length (id_lists (mdm octx))) < 2 ^ 32 ->
  exists c',
    AttachBlobToBucket rpc blob_name bucket_id buffer_ids is_swap_blob c =
      Some (new_blob_id (HashString rpc blob_name) is_swap_blob
              (Z.of_nat (length (id_lists (mdm octx)))), c') /\
    length c' = length c /\
    forall (s : nat) (x : SharedMemoryContext),
      c !! s = Some x ->
      exists z,
        c' !! s = Some z /\
        AttachEffect (node_slot (HashString rpc blob_name))
          (node_slot (HashString rpc (MakeInternalBlobName blob_name bucket_id)))
          (node_slot (Bits.node_id bucket_id))
          (MakeInternalBlobName blob_name bucket_id)
          (new_blob_id (HashString rpc blob_name) is_swap_blob
             (Z.of_nat (length (id_lists (mdm octx)))))
          buffer_ids bucket_id binfo s x z.
Proof.
  set (owner := HashString rpc blob_name).
  set (key := MakeInternalBlobName blob_name bucket_id).
  set (keeper := HashString rpc key).
  set (lists := id_lists (mdm octx)).
  set (blob_id := new_blob_id owner is_swap_blob (Z.of_nat (length lists))).
  set (so := node_slot owner). set (sk := node_slot keeper).
  set (sb := node_slot (Bits.node_id bucket_id)).
  intros Howner Hkeeper Hoctx Hkctx Hbnode Hbctx Hbinfo Hlen.
  assert (Hso : (so < length c)%nat) by (apply lookup_lt_is_Some_1; eauto).
  assert (Hsk : (sk < length c)%nat) by (apply lookup_lt_is_Some_1; eauto).
  assert (Hsb : (sb < length c)%nat) by (apply lookup_lt_is_Some_1; eauto).
  set (g1 := fun x : SharedMemoryContext =>
               set_mdm x (set_id_lists (mdm x) (id_lists (mdm x) ++ [buffer_ids]))).
  set (g2 := fun x : SharedMemoryContext =>
               set_mdm x (PutToStorage (mdm x) key blob_id kMapType_Blob)).
  set (g3 := fun x : SharedMemoryContext =>
               with_bucket_info x (Bits.index bucket_id)
                 (set_blobs binfo (blobs binfo ++ [blob_id]))).
  set (h1 := fun (s : nat) (x : SharedMemoryContext) =>
               if decide (s = so) then g1 x else x).
  set (h2 := fun (s : nat) (x : SharedMemoryContext) =>
               if decide (s = sk) then g2 x else x).
  set (h3 := fun (s : nat) (x : SharedMemoryContext) =>
               if decide (s = sb) then g3 x else x).
  set (c1 := <[so := g1 octx]> c).
  set (c2 := <[sk := g2 (h1 sk kctx)]> c1).
  set (c3 := <[sb := g3 (h2 sb (h1 sb bctx))]> c2).
  assert (P1 : forall s x, c !! s = Some x -> c1 !! s = Some (h1 s x)).
  { intros s x Hx. subst c1 h1. cbn beta. rewrite insert_pointwise by exact Hso.
    destruct (decide (s = so)) as [->|_]; [|exact Hx].
    rewrite Hoctx in Hx. injection Hx as <-. reflexivity. }
  assert (P2 : forall s x, c !! s = Some x -> c2 !! s = Some (h2 s (h1 s x))).
  { intros s x Hx. subst c2. rewrite insert_pointwise
      by (subst c1; rewrite length_insert; exact Hsk).
    unfold h2. destruct (decide (s = sk)) as [->|_]; [|apply P1; exact Hx].
    rewrite Hkctx in Hx. injection Hx as <-. reflexivity. }
  assert (P3 : forall s x, c !! s = Some x -> c3 !! s = Some (h3 s (h2 s (h1 s x)))).
  { intros s x Hx. subst c3. rewrite insert_pointwise
      by (subst c2 c1; rewrite !length_insert; exact Hsb).
    unfold h3. destruct (decide (s = sb)) as [->|_]; [|apply P2; exact Hx].
    rewrite Hbctx in Hx. injection Hx as <-. reflexivity. }
  assert (Hkeep : forall s x, bucket_info (mdm (h2 s (h1 s x))) = bucket_info (mdm x)).
  { intros s x. unfold h2, h1, g2, g1.
    destruct (decide (s = sk)), (decide (s = so)); destruct x as [m p t]; destruct m;
      reflexivity. }
  exists c3. split; [|split; [subst c3 c2 c1; rewrite !length_insert; reflexivity|]].
  - unfold AttachBlobToBucket. fold owner. rewrite (to_i32_small owner) by lia.
    unfold bind at 1. unfold AllocateBufferIdList. rewrite dispatch_on_target.
    rewrite (to_u32_small owner) by lia.
    rewrite (on_node_run owner _ c octx (g1 octx) (to_u32 (Z.of_nat (length lists))))
      by (lia || assumption || reflexivity).
    rewrite (to_u32_small (Z.of_nat (length lists))) by lia.
    fold (new_blob_id owner is_swap_blob (Z.of_nat (length lists))). fold blob_id.
    fold so c1. unfold bind at 1. unfold PutBlobId, PutId. fold key keeper.
    rewrite dispatch_on_target.
    rewrite (on_node_run keeper _ c1 (h1 sk kctx) (g2 (h1 sk kctx)) tt)
      by (assumption || reflexivity || (apply P1; exact Hkctx)).
    fold sk c2. unfold bind. unfold AddBlobIdToBucket. rewrite dispatch_on_target.
    rewrite (on_node_run (Bits.node_id bucket_id) _ c2 (h2 sb (h1 sb bctx))
               (g3 (h2 sb (h1 sb bctx))) tt Hbnode (P2 _ _ Hbctx)).
    + reflexivity.
    + apply LocalAddBlobIdToBucket_run.
      unfold LocalGetBucketInfoById, LocalGetBucketInfoByIndex in *.
      rewrite Hkeep. exact Hbinfo.
  - intros s x Hx. exists (h3 s (h2 s (h1 s x))). split; [apply P3; exact Hx|].
    unfold AttachEffect. fold so sk sb.
    unfold h3, h2, h1, g3, g2, g1, with_bucket_info.
    destruct (decide (s = sb)), (decide (s = sk)), (decide (s = so));
      destruct x as [m p t]; destruct m; cbn;
      rewrite ?lookup_insert_eq; repeat split; reflexivity.
Qed.

(** X7: After [AttachBlobToBucket] the blob is found by its name, the BlobID
    gives back the attached buffer-id list, and the BlobID is the last entry
    of the bucket's blob list; this holds on any number of nodes. *)
Theorem AttachBlobToBucket_then_lookups
    (rpc : RpcContext) (blob_name : string) (bucket_id : BucketID)
    (buffer_ids : list BufferID) (is_swap_blob : bool) (c : Cluster)
    (octx kctx bctx : SharedMemoryContext) (binfo : BucketInfo) :
  1 <= HashString rpc blob_name < 2 ^ 31 ->
  0 < HashString rpc (MakeInternalBlobName blob_name bucket_id) ->
  c !! node_slot (HashString rpc blob_name) = Some octx ->
  c !! node_slot (HashString rpc (MakeInternalBlobName blob_name bucket_id))
    = Some kctx ->
  0 < Bits.node_id bucket_id ->
  c !! node_slot (Bits.node_id bucket_id) = Some bctx ->
  LocalGetBucketInfoById (mdm bctx) bucket_id = Some binfo ->
  Z.of_nat (length (id_lists (mdm octx))) < 2 ^ 32 ->
  exists (blob_id : BlobID) (c' : Cluster),
    AttachBlobToBucket rpc blob_name bucket_id buffer_ids is_swap_blob c
      = Some (blob_id, c') /\
    IsNullBlobId blob_id = false /\
    GetBlobId rpc blob_name bucket_id c' = Some (blob_id, c') /\
    GetBufferIdList rpc blob_id c' = Some (buffer_ids, c') /\
    bucket_blobs c' (Bits.node_id bucket_id) bucket_id
      = Some (blobs binfo ++ [blob_id]).
Proof.
  intros Howner Hkeeper Hoctx Hkctx Hbnode Hbctx Hbinfo Hlen.
  destruct (AttachBlobToBucket_run rpc blob_name bucket_id buffer_ids is_swap_blob c
              octx kctx bctx binfo) as (c' & Hrun & _ & Heffect); try assumption.
  set (blob_id := new_blob_id (HashString rpc blob_name) is_swap_blob
                    (Z.of_nat (length (id_lists (mdm octx))))) in *.
  assert (Hnode : GetBlobNodeId blob_id = HashString rpc blob_name)
    by (apply GetBlobNodeId_new_blob_id; exact Howner).
  exists blob_id, c'. split; [exact Hrun|]. split; [|split; [|split]].
  - unfold IsNullBlobId, IsNullId. apply Z.eqb_neq. intros Hzero.
    rewrite Hzero in Hnode. change (GetBlobNodeId 0) with 0 in Hnode. lia.
  - destruct (Heffect _ _ Hkctx) as (z & Hz & _ & _ & _ & _ & _ & Hmap & _).
    unfold GetBlobId. rewrite GetId_eq.
    destruct (Z.leb_spec (HashString rpc (MakeInternalBlobName blob_name bucket_id)) 0);
      [lia|].
    rewrite Hz. unfold GetFromStorage. rewrite Hmap.
    destruct (decide _) as [_|Hne]; [|contradiction].
    rewrite lookup_insert_eq. reflexivity.
  - destruct (Heffect _ _ Hoctx) as (z & Hz & _ & _ & _ & _ & Hlists & _).
    unfold GetBufferIdList. rewrite dispatch_on_target, Hnode.
    apply (on_node_read _ _ c' z); [lia | exact Hz |].
    unfold LocalGetBufferIdList. subst blob_id.
    rewrite new_blob_id_offset, Nat2Z.id by lia. rewrite Hlists.
    destruct (decide _) as [_|Hne]; [|contradiction].
    rewrite lookup_app_r by lia. rewrite Nat.sub_diag. reflexivity.
  - destruct (Heffect _ _ Hbctx) as (z & Hz & _ & _ & _ & _ & _ & _ & _ & Hinfo).
    unfold bucket_blobs. rewrite Hz.
    unfold LocalGetBucketInfoById, LocalGetBucketInfoByIndex in *. rewrite Hinfo.
    destruct (decide _) as [_|Hne]; [|contradiction].
    rewrite list_lookup_insert_eq by (apply lookup_lt_is_Some_1; eauto).
    reflexivity.
Qed.

(** X8: [AttachBlobToBucket] leaves every other binding of the directory as
    it was: each bucket name, and each blob name of any bucket other than
    the one attached, resolves after the call to what it resolved to
    before.  The blob names have no embedded NUL: [GetBlobId] hands the
    internal name to [GetId] as [c_str()]. *)
Theorem AttachBlobToBucket_keeps_other_bindings
    (rpc : RpcContext) (blob_name : string) (bucket_id : BucketID)
    (buffer_ids : list BufferID) (is_swap_blob : bool) (c : Cluster)
    (octx kctx bctx : SharedMemoryContext) (binfo : BucketInfo) :
  c_str blob_name = blob_name ->
  1 <= HashString rpc blob_name < 2 ^ 31 ->
  0 < HashString rpc (MakeInternalBlobName blob_name bucket_id) ->
  c !! node_slot (HashString rpc blob_name) = Some octx ->
  c !! node_slot (HashString rpc (MakeInternalBlobName blob_name bucket_id))
    = Some kctx ->
  0 < Bits.node_id bucket_id ->
  c !! node_slot (Bits.node_id bucket_id) = Some bctx ->
  LocalGetBucketInfoById (mdm bctx) bucket_id = Some binfo ->
  Z.of_nat (length (id_lists (mdm octx))) < 2 ^ 32 ->
  0 <= bucket_id < 2 ^ 64 ->
  exists (blob_id : BlobID) (c' : Cluster),
    AttachBlobToBucket rpc blob_name bucket_id buffer_ids is_swap_blob c
      = Some (blob_id, c') /\
    (forall (rpc' : RpcContext) (name : string),
       GetBucketId rpc' name c' =
       match GetBucketId rpc' name c with
       | Some (id, _) => Some (id, c')
       | None => None
       end) /\
    (forall (rpc' : RpcContext) (name : string) (bucket : BucketID),
       c_str name = name ->
       0 <= bucket < 2 ^ 64 ->
       name <> blob_name \/ bucket <> bucket_id ->
       GetBlobId rpc' name bucket c' =
       match GetBlobId rpc' name bucket c with
       | Some (id, _) => Some (id, c')
       | None => None
       end).
Proof.
  intros _ Howner Hkeeper Hoctx Hkctx Hbnode Hbctx Hbinfo Hlen Hbucket.
  destruct (AttachBlobToBucket_run rpc blob_name bucket_id buffer_ids is_swap_blob c
              octx kctx bctx binfo) as (c' & Hrun & Hlength & Heffect); try assumption.
  set (blob_id := new_blob_id (HashString rpc blob_name) is_swap_blob
                    (Z.of_nat (length (id_lists (mdm octx))))) in *.
  assert (Hsame : forall (rpc' : RpcContext) (key : string) (map_type : MapType),
             key <> MakeInternalBlobName blob_name bucket_id \/ map_type <> kMapType_Blob ->
             GetId rpc' key map_type c' =
             match GetId rpc' key map_type c with
             | Some (id, _) => Some (id, c')
             | None => None
             end).
  { intros rpc' key map_type Hother. rewrite !GetId_eq.
    destruct (HashString rpc' key <=? 0); [reflexivity|].
    destruct (c !! node_slot (HashString rpc' key)) as [x|] eqn:Hx.
    - destruct (Heffect _ _ Hx) as (z & Hz & _ & _ & Hbmap & Hvmap & _ & Hmap & _).
      rewrite Hz. f_equal. f_equal.
      destruct x as [m p t], z as [m' p' t']; destruct m, m'; cbn in *.
      destruct map_type; cbn.
      + rewrite Hbmap. reflexivity.
      + rewrite Hvmap. reflexivity.
      + rewrite Hmap. destruct (decide _); [|reflexivity].
        destruct Hother as [Hk|Ht]; [|contradiction].
        rewrite lookup_insert_ne by congruence. reflexivity.
    - apply lookup_ge_None in Hx. rewrite <- Hlength in Hx.
      apply lookup_ge_None in Hx. rewrite Hx. reflexivity. }
  exists blob_id, c'. split; [exact Hrun|]. split.
  - intros rpc' name. apply Hsame. right. discriminate.
  - intros rpc' name bucket _ Hb Hother. apply Hsame. left. intros Heq.
    apply MakeInternalBlobName_inj in Heq; [|assumption|assumption].
    destruct Heq as [-> ->]. destruct Hother; contradiction.
Qed.

(** X9: [Bucket::BlobIsInSwap] tells, for a blob attached to the bucket of the
    handle, whether it was attached as a swap blob. *)
Theorem Bucket_BlobIsInSwap_after_attach
    (this : Bucket) (blob_name : string)
    (buffer_ids : list BufferID) (is_swap_blob : bool) (c : Cluster)
    (octx kctx bctx : SharedMemoryContext) (binfo : BucketInfo) :
  1 <= HashString (rpc_ this) blob_name < 2 ^ 31 ->
  0 < HashString (rpc_ this) (MakeInternalBlobName blob_name (id_ this)) ->
  c !! node_slot (HashString (rpc_ this) blob_name) = Some octx ->
  c !! node_slot (HashString (rpc_ this) (MakeInternalBlobName blob_name (id_ this)))
    = Some kctx ->
  0 < Bits.node_id (id_ this) ->
  c !! node_slot (Bits.node_id (id_ this)) = Some bctx ->
  LocalGetBucketInfoById (mdm bctx) (id_ this) = Some binfo ->
  Z.of_nat (length (id_lists (mdm octx))) < 2 ^ 32 ->
  exists (blob_id : BlobID) (c' : Cluster),
    AttachBlobToBucket (rpc_ this) blob_name (id_ this) buffer_ids is_swap_blob c
      = Some (blob_id, c') /\
    Bucket_BlobIsInSwap this blob_name c' = Some (is_swap_blob, c').
Proof.
  intros Howner Hkeeper Hoctx Hkctx Hbnode Hbctx Hbinfo Hlen.
  destruct (AttachBlobToBucket_run (rpc_ this) blob_name (id_ this) buffer_ids
              is_swap_blob c octx kctx bctx binfo)
    as (c' & Hrun & _ & Heffect); try assumption.
  eexists _, c'. split; [exact Hrun|].
  destruct (Heffect _ _ Hkctx) as (z & Hz & _ & _ & _ & _ & _ & Hmap & _).
  unfold Bucket_BlobIsInSwap, bind, GetBlobId. rewrite GetId_eq.
  destruct (Z.leb_spec
              (HashString (rpc_ this) (MakeInternalBlobName blob_name (id_ this))) 0);
    [lia|].
  rewrite Hz. unfold GetFromStorage. rewrite Hmap.
  destruct (decide _) as [_|Hne]; [|contradiction].
  rewrite lookup_insert_eq. unfold default, from_option, id, ret.
  rewrite BlobIsInSwap_new_blob_id by exact Howner. reflexivity.
Qed.

(** X10: Where the internal name has the owner of the blob name (on one node it
    always has), the BlobID gives back the blob name and the bucket id;
    for the empty blob name the bucket id comes back null. *)
Theorem AttachBlobToBucket_then_reverse_lookups
    (rpc : RpcContext) (blob_name : string) (bucket_id : BucketID)
    (buffer_ids : list BufferID) (is_swap_blob : bool) (c : Cluster)
    (octx bctx : SharedMemoryContext) (binfo : BucketInfo) :
  1 <= HashString rpc blob_name < 2 ^ 31 ->
  HashString rpc (MakeInternalBlobName blob_name bucket_id) = HashString rpc blob_name ->
  c !! node_slot (HashString rpc blob_name) = Some octx ->
  0 < Bits.node_id bucket_id ->
  c !! node_slot (Bits.node_id bucket_id) = Some bctx ->
  LocalGetBucketInfoById (mdm bctx) bucket_id = Some binfo ->
  Z.of_nat (length (id_lists (mdm octx))) < 2 ^ 32 ->
  0 <= bucket_id < 2 ^ 64 ->
  exists (blob_id : BlobID) (c' : Cluster),
    AttachBlobToBucket rpc blob_name bucket_id buffer_ids is_swap_blob c
      = Some (blob_id, c') /\
    GetBlobNameFromId rpc blob_id c' = Some (blob_name, c') /\
    GetBucketIdFromBlobId rpc blob_id c'
      = Some (if size blob_name >? 0 then bucket_id else 0, c').
Proof.
  intros Howner Hkeeper Hoctx Hbnode Hbctx Hbinfo Hlen Hbucket.
  destruct (AttachBlobToBucket_run rpc blob_name bucket_id buffer_ids is_swap_blob c
              octx octx bctx binfo) as (c' & Hrun & _ & Heffect);
    try assumption; try (rewrite Hkeeper; assumption || lia).
  set (blob_id := new_blob_id (HashString rpc blob_name) is_swap_blob
                    (Z.of_nat (length (id_lists (mdm octx))))) in *.
  assert (Hnode : GetBlobNodeId blob_id = HashString rpc blob_name)
    by (apply GetBlobNodeId_new_blob_id; exact Howner).
  destruct (Heffect _ _ Hoctx) as (z & Hz & _ & _ & _ & _ & _ & _ & Hrev & _).
  rewrite Hkeeper in Hrev. destruct (decide _) as [_|Hne] in Hrev; [|contradiction].
  exists blob_id, c'. split; [exact Hrun|]. split.
  - unfold GetBlobNameFromId. rewrite dispatch_on_target, Hnode.
    apply (on_node_read _ _ c' z); [lia | exact Hz |].
    apply (LocalGetBlobNameFromId_found _ _ blob_name bucket_id). exact Hrev.
  - unfold GetBucketIdFromBlobId. rewrite dispatch_on_target, Hnode.
    apply (on_node_read _ _ c' z); [lia | exact Hz |].
    unfold LocalGetBucketIdFromBlobId, bind, get, ret, ReverseGetFromStorage.
    rewrite Hrev. unfold default, from_option, id. f_equal. f_equal.
    rewrite MakeInternalBlobName_size.
    rewrite MakeInternalBlobName_prefix, HexStringToU64_hex_prefix.
    rewrite Z.mod_small by exact Hbucket.
    destruct (Z.gtb_spec (size blob_name) 0),
      (Z.gtb_spec (Z.of_nat kBucketIdStringSize + size blob_name)
         (Z.of_nat kBucketIdStringSize)); try reflexivity; lia.
Qed.
End AttachRun.

Lemma AttachBlobToBucket_then_lookups_witness :
  exists (blob_id : BlobID) (c' : Cluster),
    @AttachBlobToBucket sample_params sample_rpc "k" (2 ^ 32) [7; 8] false
      sample_cluster_c = Some (blob_id, c') /\
    IsNullBlobId blob_id = false /\
    @GetBlobId sample_params sample_rpc "k" (2 ^ 32) c' = Some (blob_id, c') /\
    GetBufferIdList sample_rpc blob_id c' = Some ([7; 8], c') /\
    bucket_blobs c' (Bits.node_id (2 ^ 32)) (2 ^ 32) = Some ([] ++ [blob_id]).
Proof.
  apply (@AttachBlobToBucket_then_lookups sample_params sample_rpc "k"
           (2 ^ 32) [7; 8] false sample_cluster_c
           (nth 2 sample_cluster_c (sample_context 3 [] []))
           (nth 0 sample_cluster_c (sample_context 1 [] []))
           (nth 0 sample_cluster_c (sample_context 1 [] []))
           (nth 0 (bucket_info (mdm (nth 0 sample_cluster_c (sample_context 1 [] []))))
              BucketInfo_zero)).
  - vm_compute. split; [discriminate | reflexivity].
  - vm_compute. reflexivity.
  - vm_compute. reflexivity.
  - vm_compute. reflexivity.
  - vm_compute. reflexivity.
  - vm_compute. reflexivity.
  - vm_compute. reflexivity.
  - vm_compute. reflexivity.
Defined.

Lemma AttachBlobToBucket_keeps_other_bindings_witness :
  exists (blob_id : BlobID) (c' : Cluster),
    @AttachBlobToBucket sample_params sample_rpc "k" (2 ^ 32) [7; 8] false
      sample_cluster_c = Some (blob_id, c') /\
    (forall (rpc' : RpcContext) (name : string),
       @GetBucketId sample_params rpc' name c' =
       match @GetBucketId sample_params rpc' name sample_cluster_c with
       | Some (id, _) => Some (id, c')
       | None => None
       end) /\
    (forall (rpc' : RpcContext) (name : string) (bucket : BucketID),
       c_str name = name ->
       0 <= bucket < 2 ^ 64 ->
       name <> "k" \/ bucket <> 2 ^ 32 ->
       @GetBlobId sample_params rpc' name bucket c' =
       match @GetBlobId sample_params rpc' name bucket sample_cluster_c with
       | Some (id, _) => Some (id, c')
       | None => None
       end).
Proof.
  apply (@AttachBlobToBucket_keeps_other_bindings sample_params sample_rpc "k"
           (2 ^ 32) [7; 8] false sample_cluster_c
           (nth 2 sample_cluster_c (sample_context 3 [] []))
           (nth 0 sample_cluster_c (sample_context 1 [] []))
           (nth 0 sample_cluster_c (sample_context 1 [] []))
           (nth 0 (bucket_info (mdm (nth 0 sample_cluster_c (sample_context 1 [] []))))
              BucketInfo_zero)).
  - reflexivity.
  - vm_compute. split; [discriminate | reflexivity].
  - vm_compute. reflexivity.
  - vm_compute. reflexivity.
  - vm_compute. reflexivity.
  - vm_compute. reflexivity.
  - vm_compute. reflexivity.
  - vm_compute. reflexivity.
  - vm_compute. reflexivity.
  - vm_compute. split; [discriminate | reflexivity].
Defined.

Lemma Bucket_BlobIsInSwap_after_attach_witness :
  exists (blob_id : BlobID) (c' : Cluster),
    @AttachBlobToBucket sample_params sample_rpc "k" (3 * 2 ^ 32) [7; 8] true
      sample_open_cluster = Some (blob_id, c') /\
    @Bucket_BlobIsInSwap sample_params sample_bucket "k" c' = Some (true, c').
Proof.
  apply (@Bucket_BlobIsInSwap_after_attach sample_params sample_bucket "k" [7; 8] true
           sample_open_cluster sample_open_context sample_open_context
           sample_open_context sample_open_info).
  - vm_compute. split; [discriminate | reflexivity].
  - vm_compute. reflexivity.
  - vm_compute. reflexivity.
  - vm_compute. reflexivity.
  - vm_compute. reflexivity.
  - vm_compute. reflexivity.
  - vm_compute. reflexivity.
  - vm_compute. reflexivity.
Defined.

Lemma AttachBlobToBucket_then_reverse_lookups_witness :
  exists (blob_id : BlobID) (c' : Cluster),
    @AttachBlobToBucket sample_params sample_rpc "k" (3 * 2 ^ 32) [7; 8] false
      sample_open_cluster = Some (blob_id, c') /\
    GetBlobNameFromId sample_rpc blob_id c' = Some ("k", c') /\
    GetBucketIdFromBlobId sample_rpc blob_id c' = Some (3 * 2 ^ 32, c').
Proof.
  apply (@AttachBlobToBucket_then_reverse_lookups sample_params sample_rpc "k"
           (3 * 2 ^ 32) [7; 8] false sample_open_cluster sample_open_context
           sample_open_context sample_open_info).
  - vm_compute. split; [discriminate | reflexivity].
  - vm_compute. reflexivity.
  - vm_compute. reflexivity.
  - vm_compute. reflexivity.
  - vm_compute. reflexivity.
  - vm_compute. reflexivity.
  - vm_compute. reflexivity.
  - vm_compute. split; [discriminate | reflexivity].
Defined.

(** X11: For a BlobID that the reverse map of its node does not hold,
    [GetBlobNameFromId] returns the empty string and [GetBucketIdFromBlobId]
    the null id, and neither changes the installation. *)
Theorem lookups_of_an_unknown_BlobID (rpc : RpcContext) (blob_id : BlobID)
    (c : Cluster) (context : SharedMemoryContext) :
  0 < GetBlobNodeId blob_id ->
  c !! node_slot (GetBlobNodeId blob_id) = Some context ->
  blob_reverse_map (mdm context) !! blob_id = None ->
  GetBlobNameFromId rpc blob_id c = Some (EmptyString, c) /\
  GetBucketIdFromBlobId rpc blob_id c = Some (0, c).
Proof.
  intros Hnode Hctx Hnone. split.
  - unfold GetBlobNameFromId. rewrite dispatch_on_target.
    apply (on_node_read _ _ c context); [exact Hnode | exact Hctx |].
    apply LocalGetBlobNameFromId_missing. exact Hnone.
  - unfold GetBucketIdFromBlobId. rewrite dispatch_on_target.
    apply (on_node_read _ _ c context); [exact Hnode | exact Hctx |].
    unfold LocalGetBucketIdFromBlobId, bind, get, ret, ReverseGetFromStorage.
    rewrite Hnone. reflexivity.
Qed.

Lemma lookups_of_an_unknown_BlobID_witness :
  GetBlobNameFromId sample_rpc (2 * 2 ^ 32 + 9) sample_cluster3
    = Some (EmptyString, sample_cluster3) /\
  GetBucketIdFromBlobId sample_rpc (2 * 2 ^ 32 + 9) sample_cluster3
    = Some (0, sample_cluster3).
Proof.
  apply (lookups_of_an_unknown_BlobID sample_rpc (2 * 2 ^ 32 + 9) sample_cluster3
           (sample_context 2 [21; 22] [-100; 50])).
  - vm_compute. reflexivity.
  - vm_compute. reflexivity.
  - vm_compute. reflexivity.
Defined.

(** ** Renaming *)

Section Renaming.
Context `{HermesParams}.

(** The two steps of a rename, [DeleteId] of the old key and [PutId] of the
    new one, seen through [GetId]. *)
Lemma delete_then_put (rpc : RpcContext) (old new : string) (id : Z)
    (map_type : MapType) (c : Cluster) (xo xn : SharedMemoryContext) :
  0 < HashString rpc old ->
  0 < HashString rpc new ->
  c !! node_slot (HashString rpc old) = Some xo ->
  c !! node_slot (HashString rpc new) = Some xn ->
  exists c' : Cluster,
    (DeleteId rpc old map_type ;;; PutId rpc new id map_type) c = Some (tt, c') /\
    length c' = length c /\
    (forall rpc' : RpcContext,
       HashString rpc' new = HashString rpc new ->
       GetId rpc' new map_type c' = Some (id, c')) /\
    (forall rpc' : RpcContext,
       old <> new ->
       HashString rpc' old = HashString rpc old ->
       GetId rpc' old map_type c' = Some (0, c')) /\
    (forall (rpc' : RpcContext) (name : string) (mt : MapType),
       (name <> old /\ name <> new) \/ mt <> map_type ->
       GetId rpc' name mt c' =
       match GetId rpc' name mt c with
       | Some (v, _) => Some (v, c')
       | None => None
       end).
Proof.
  intros Hold Hnew Hxo Hxn.
  set (so := node_slot (HashString rpc old)) in *.
  set (sn := node_slot (HashString rpc new)) in *.
  assert (Hso : (so < length c)%nat) by (apply lookup_lt_is_Some_1; eauto).
  assert (Hsn : (sn < length c)%nat) by (apply lookup_lt_is_Some_1; eauto).
  set (xo' := set_mdm xo (DeleteFromStorage (mdm xo) old map_type)).
  set (c1 := <[so := xo']> c).
  set (xn1 := if decide (sn = so) then xo' else xn).
  assert (Hxn1 : c1 !! sn = Some xn1).
  { subst c1 xn1. rewrite insert_pointwise by exact Hso.
    destruct (decide (sn = so)); [reflexivity | exact Hxn]. }
  set (xn' := set_mdm xn1 (PutToStorage (mdm xn1) new id map_type)).
  assert (Hsn1 : (sn < length c1)%nat) by (subst c1; rewrite length_insert; exact Hsn).
  exists (<[sn := xn']> c1).
  split; [|split; [|split; [|split]]].
  - unfold bind. rewrite (DeleteId_eq rpc old map_type c xo Hold Hxo).
    fold so xo' c1. apply PutId_eq; assumption.
  - subst c1. rewrite !length_insert. reflexivity.
  - intros rpc' Hagree. rewrite GetId_eq, Hagree.
    destruct (Z.leb_spec (HashString rpc new) 0); [lia|]. fold sn.
    rewrite list_lookup_insert_eq by exact Hsn1.
    subst xn'. rewrite mdm_set_mdm, GetFromStorage_PutToStorage. reflexivity.
  - intros rpc' Hdiff Hagree. rewrite GetId_eq, Hagree.
    destruct (Z.leb_spec (HashString rpc old) 0); [lia|]. fold so.
    rewrite insert_pointwise by exact Hsn1.
    destruct (decide (so = sn)) as [Heq|Hne].
    + subst xn' xn1. rewrite mdm_set_mdm.
      rewrite GetFromStorage_PutToStorage_other by (left; exact Hdiff).
      destruct (decide (sn = so)) as [_|Hne]; [|congruence].
      subst xo'. rewrite mdm_set_mdm, GetFromStorage_DeleteFromStorage. reflexivity.
    + subst c1. rewrite list_lookup_insert_eq by exact Hso.
      subst xo'. rewrite mdm_set_mdm, GetFromStorage_DeleteFromStorage. reflexivity.
  - intros rpc' name mt Hother.
    rewrite (GetId_after rpc' name mt c1 sn xn1 xn' Hxn1).
    + subst c1. rewrite (GetId_after rpc' name mt c so xo xo' Hxo).
      * destruct (GetId rpc' name mt c) as [[v ?]|]; reflexivity.
      * subst xo'. rewrite mdm_set_mdm.
        apply GetFromStorage_DeleteFromStorage_other. tauto.
    + subst xn'. rewrite mdm_set_mdm.
      apply GetFromStorage_PutToStorage_other. tauto.
Qed.

Lemma RenameBucket_on_target (rpc : RpcContext) (id : BucketID)
    (old_name new_name : string) (c : Cluster) (context : SharedMemoryContext) :
  0 < Bits.node_id id ->
  c !! node_slot (Bits.node_id id) = Some context ->
  RenameBucket rpc id old_name new_name c =
  LocalRenameBucket (handler_rpc rpc (Bits.node_id id)) id old_name new_name c.
Proof.
  intros Hnode Hctx. unfold RenameBucket, handler_rpc.
  destruct (Z.eqb_spec (Bits.node_id id) (node_id rpc)); [reflexivity|].
  unfold bind at 1. unfold RpcCall.
  rewrite (on_node_read _ _ c context tt Hnode Hctx); reflexivity.
Qed.

Lemma Bucket_Rename_run (this : Bucket) (new_name : string) (c : Cluster)
    (tctx xo xn : SharedMemoryContext) :
  let rpc := handler_rpc (rpc_ this) (Bits.node_id (id_ this)) in
  IsBucketNameTooLong new_name = false ->
  0 < Bits.node_id (id_ this) ->
  c !! node_slot (Bits.node_id (id_ this)) = Some tctx ->
  0 < HashString rpc (name_ this) ->
  c !! node_slot (HashString rpc (name_ this)) = Some xo ->
  0 < HashString rpc new_name ->
  c !! node_slot (HashString rpc new_name) = Some xn ->
  exists c' : Cluster,
    Bucket_Rename this new_name c = Some (HERMES_SUCCESS, c') /\
    length c' = length c /\
    (forall rpc' : RpcContext,
       HashString rpc' new_name = HashString rpc new_name ->
       GetBucketId rpc' new_name c' = Some (id_ this, c')) /\
    (forall rpc' : RpcContext,
       name_ this <> new_name ->
       HashString rpc' (name_ this) = HashString rpc (name_ this) ->
       GetBucketId rpc' (name_ this) c' = Some (0, c')) /\
    (forall (rpc' : RpcContext) (name : string),
       name <> name_ this -> name <> new_name ->
       GetBucketId rpc' name c' =
       match GetBucketId rpc' name c with
       | Some (id, _) => Some (id, c')
       | None => None
       end).
Proof.
  intros rpc Hfits Hnode Htctx Hold Hxo Hnew Hxn.
  destruct (delete_then_put rpc (name_ this) new_name (id_ this) kMapType_Bucket c xo xn)
    as (c' & Hrun & Hlen & Hn & Ho & Hothers); try assumption.
  exists c'. split; [|split; [exact Hlen|split; [exact Hn|split; [exact Ho|]]]].
  - unfold Bucket_Rename. rewrite Hfits. unfold bind at 1.
    rewrite (RenameBucket_on_target _ _ _ _ c tctx Hnode Htctx). fold rpc.
    unfold LocalRenameBucket, DeleteBucketId, PutBucketId. rewrite Hrun. reflexivity.
  - intros rpc' name H1 H2. apply Hothers. left. split; assumption.
Qed.

(** X12: [Bucket::Rename] with a name that fits removes the name of the
    handle from the bucket map and binds the new name to the id of the
    handle: afterwards the new name resolves to the bucket, the old one to
    the null id, and every other bucket name to what it resolved to before.
    The names have no embedded NUL: [RenameBucket] passes them on as
    [c_str()]. *)
Theorem Bucket_Rename_moves_the_name (this : Bucket) (new_name : string)
    (c : Cluster) (tctx xo xn : SharedMemoryContext) :
  let rpc := handler_rpc (rpc_ this) (Bits.node_id (id_ this)) in
  c_str (name_ this) = name_ this ->
  c_str new_name = new_name ->
  IsBucketNameTooLong new_name = false ->
  0 < Bits.node_id (id_ this) ->
  c !! node_slot (Bits.node_id (id_ this)) = Some tctx ->
  0 < HashString rpc (name_ this) ->
  c !! node_slot (HashString rpc (name_ this)) = Some xo ->
  0 < HashString rpc new_name ->
  c !! node_slot (HashString rpc new_name) = Some xn ->
  exists c' : Cluster,
    Bucket_Rename this new_name c = Some (HERMES_SUCCESS, c') /\
    (forall rpc' : RpcContext,
       HashString rpc' new_name = HashString rpc new_name ->
       GetBucketId rpc' new_name c' = Some (id_ this, c')) /\
    (forall rpc' : RpcContext,
       name_ this <> new_name ->
       HashString rpc' (name_ this) = HashString rpc (name_ this) ->
       GetBucketId rpc' (name_ this) c' = Some (0, c')) /\
    (forall (rpc' : RpcContext) (name : string),
       c_str name = name ->
       name <> name_ this -> name <> new_name ->
       GetBucketId rpc' name c' =
       match GetBucketId rpc' name c with
       | Some (id, _) => Some (id, c')
       | None => None
       end).
Proof.
  intros rpc _ _ Hfits Hnode Htctx Hold Hxo Hnew Hxn.
  destruct (Bucket_Rename_run this new_name c tctx xo xn)
    as (c' & Hrun & _ & Hn & Ho & Hothers); try assumption.
  exists c'. split; [exact Hrun|]. split; [exact Hn|]. split; [exact Ho|].
  intros rpc' name _. apply Hothers.
Qed.

(** X13: [Bucket::Rename] passes [name_] as the old name and never assigns it:
    a second [Rename] on the same handle deletes the original name once
    more, not the name the first one gave, so afterwards both new names
    resolve to the bucket.  The three names have no embedded NUL. *)
Theorem Bucket_Rename_twice_keeps_both_names (this : Bucket) (name1 name2 : string)
    (c : Cluster) (tctx x0 x1 x2 : SharedMemoryContext) :
  let rpc := handler_rpc (rpc_ this) (Bits.node_id (id_ this)) in
  c_str (name_ this) = name_ this ->
  c_str name1 = name1 ->
  c_str name2 = name2 ->
  IsBucketNameTooLong name1 = false ->
  IsBucketNameTooLong name2 = false ->
  name1 <> name_ this ->
  name1 <> name2 ->
  0 < Bits.node_id (id_ this) ->
  c !! node_slot (Bits.node_id (id_ this)) = Some tctx ->
  0 < HashString rpc (name_ this) ->
  c !! node_slot (HashString rpc (name_ this)) = Some x0 ->
  0 < HashString rpc name1 ->
  c !! node_slot (HashString rpc name1) = Some x1 ->
  0 < HashString rpc name2 ->
  c !! node_slot (HashString rpc name2) = Some x2 ->
  exists c1 c2 : Cluster,
    Bucket_Rename this name1 c = Some (HERMES_SUCCESS, c1) /\
    Bucket_Rename this name2 c1 = Some (HERMES_SUCCESS, c2) /\
    (forall rpc' : RpcContext,
       HashString rpc' name1 = HashString rpc name1 ->
       GetBucketId rpc' name1 c2 = Some (id_ this, c2)) /\
    (forall rpc' : RpcContext,
       HashString rpc' name2 = HashString rpc name2 ->
       GetBucketId rpc' name2 c2 = Some (id_ this, c2)).
Proof.
  intros rpc _ _ _ Hfits1 Hfits2 Hd0 Hd12 Hnode Htctx H0 Hx0 H1 Hx1 H2 Hx2.
  destruct (Bucket_Rename_run this name1 c tctx x0 x1)
    as (c1 & Hrun1 & Hlen1 & Hn1 & _ & _); try assumption.
  assert (Hin : forall (s : nat) (x : SharedMemoryContext),
            c !! s = Some x -> exists z, c1 !! s = Some z).
  { intros s x Hx. apply lookup_lt_is_Some_2. rewrite Hlen1.
    apply lookup_lt_is_Some_1. eauto. }
  destruct (Hin _ _ Htctx) as [tctx1 Htctx1].
  destruct (Hin _ _ Hx0) as [y0 Hy0].
  destruct (Hin _ _ Hx2) as [y2 Hy2].
  destruct (Bucket_Rename_run this name2 c1 tctx1 y0 y2)
    as (c2 & Hrun2 & _ & Hn2 & _ & Hothers2); try assumption.
  exists c1, c2. split; [exact Hrun1|]. split; [exact Hrun2|]. split; [|exact Hn2].
  intros rpc' Hagree. rewrite (Hothers2 rpc' name1 Hd0 Hd12).
  rewrite (Hn1 rpc' Hagree). reflexivity.
Qed.

(** X14: A name too long for its kind is refused by [Bucket::Rename] and
    [Bucket::RenameBlob] with the status of that kind, and the installation
    is left as it was, whether or not the blob to rename exists. *)
Theorem renaming_to_a_name_too_long_changes_nothing (this : Bucket)
    (old_name new_name : string) (c : Cluster) :
  (kMaxBucketNameSize - 1 <= size new_name ->
   Bucket_Rename this new_name c = Some (BUCKET_NAME_TOO_LONG, c)) /\
  (kMaxBlobNameSize - 1 <= size new_name ->
   Bucket_RenameBlob this old_name new_name c = Some (BLOB_NAME_TOO_LONG, c)).
Proof.
  split; intros Hlong.
  - unfold Bucket_Rename, IsBucketNameTooLong.
    rewrite (proj2 (IsNameTooLong_true_iff _ _) Hlong). reflexivity.
  - unfold Bucket_RenameBlob, IsBlobNameTooLong.
    rewrite (proj2 (IsNameTooLong_true_iff _ _) Hlong). reflexivity.
Qed.

(** X15: [Bucket::RenameBlob] of a blob the bucket holds moves the binding of
    its BlobID from the old to the new name; the blob names of other
    buckets, the other blob names of this one and all bucket names resolve
    as before.  The blob names have no embedded NUL: the internal names
    reach the maps as [c_str()]. *)
Theorem Bucket_RenameBlob_moves_the_binding (this : Bucket)
    (old_name new_name : string) (c : Cluster) (xo xn : SharedMemoryContext) :
  let rpc := rpc_ this in
  let old_key := MakeInternalBlobName old_name (id_ this) in
  let new_key := MakeInternalBlobName new_name (id_ this) in
  let blob_id := GetFromStorage (mdm xo) old_key kMapType_Blob in
  c_str old_name = old_name ->
  c_str new_name = new_name ->
  IsBlobNameTooLong new_name = false ->
  0 <= id_ this < 2 ^ 64 ->
  0 < HashString rpc old_key ->
  c !! node_slot (HashString rpc old_key) = Some xo ->
  blob_id <> 0 ->
  0 < HashString rpc new_key ->
  c !! node_slot (HashString rpc new_key) = Some xn ->
  exists c' : Cluster,
    Bucket_RenameBlob this old_name new_name c = Some (HERMES_SUCCESS, c') /\
    GetBlobId rpc new_name (id_ this) c' = Some (blob_id, c') /\
    (old_name <> new_name -> GetBlobId rpc old_name (id_ this) c' = Some (0, c')) /\
    (forall (rpc' : RpcContext) (name : string) (bucket : BucketID),
       c_str name = name ->
       0 <= bucket < 2 ^ 64 ->
       (name <> old_name /\ name <> new_name) \/ bucket <> id_ this ->
       GetBlobId rpc' name bucket c' =
       match GetBlobId rpc' name bucket c with
       | Some (id, _) => Some (id, c')
       | None => None
       end) /\
    (forall (rpc' : RpcContext) (name : string),
       GetBucketId rpc' name c' =
       match GetBucketId rpc' name c with
       | Some (id, _) => Some (id, c')
       | None => None
       end).
Proof.
  intros rpc old_key new_key blob_id _ _ Hfits Hid Hold Hxo Hblob Hnew Hxn.
  destruct (delete_then_put rpc old_key new_key blob_id kMapType_Blob c xo xn)
    as (c' & Hrun & _ & Hn & Ho & Hothers); try assumption.
  exists c'. split; [|split; [|split; [|split]]].
  - unfold Bucket_RenameBlob. rewrite Hfits. unfold bind at 1.
    unfold RenameBlob. unfold bind at 1. unfold GetBlobId. rewrite GetId_eq.
    fold rpc old_key.
    destruct (Z.leb_spec (HashString rpc old_key) 0); [lia|]. rewrite Hxo.
    fold blob_id. unfold IsNullBlobId, IsNullId.
    destruct (Z.eqb_spec blob_id 0) as [|_]; [contradiction|]. cbn [negb].
    unfold DeleteBlobId, PutBlobId. fold old_key new_key. rewrite Hrun. reflexivity.
  - apply Hn. reflexivity.
  - intros Hdiff. apply Ho; [|reflexivity].
    intros Heq. apply Hdiff.
    exact (proj1 (MakeInternalBlobName_inj _ _ _ _ Hid Hid Heq)).
  - intros rpc' name bucket _ Hbucket Hother. apply Hothers. left.
    split; intros Heq;
      destruct (MakeInternalBlobName_inj _ _ _ _ Hbucket Hid Heq) as [-> ->];
      destruct Hother as [[? ?]|?]; contradiction.
  - intros rpc' name. apply Hothers. right. discriminate.
Qed.

(** X16: [Bucket::RenameBlob] of a name without an embedded NUL that the
    bucket does not hold reports success and changes nothing. *)
Theorem Bucket_RenameBlob_of_an_unknown_blob (this : Bucket)
    (old_name new_name : string) (c : Cluster) (xo : SharedMemoryContext) :
  let old_key := MakeInternalBlobName old_name (id_ this) in
  c_str old_name = old_name ->
  IsBlobNameTooLong new_name = false ->
  0 < HashString (rpc_ this) old_key ->
  c !! node_slot (HashString (rpc_ this) old_key) = Some xo ->
  blob_map (mdm xo) !! old_key = None ->
  Bucket_RenameBlob this old_name new_name c = Some (HERMES_SUCCESS, c).
Proof.
  intros old_key _ Hfits Hold Hxo Hnone.
  unfold Bucket_RenameBlob. rewrite Hfits. unfold bind at 1.
  unfold RenameBlob. unfold bind at 1. unfold GetBlobId. rewrite GetId_eq.
  fold old_key.
  destruct (Z.leb_spec (HashString (rpc_ this) old_key) 0); [lia|]. rewrite Hxo.
  unfold GetFromStorage. rewrite Hnone. reflexivity.
Qed.
End Renaming.

Lemma Bucket_Rename_moves_the_name_witness :
  exists c' : Cluster,
    @Bucket_Rename sample_params sample_bucket "c" sample_open_cluster
      = Some (HERMES_SUCCESS, c') /\
    (forall rpc' : RpcContext,
       @HashString sample_params rpc' "c"
         = @HashString sample_params
             (handler_rpc (rpc_ sample_bucket) (Bits.node_id (id_ sample_bucket))) "c" ->
       @GetBucketId sample_params rpc' "c" c' = Some (id_ sample_bucket, c')) /\
    (forall rpc' : RpcContext,
       name_ sample_bucket <> "c"%string ->
       @HashString sample_params rpc' (name_ sample_bucket)
         = @HashString sample_params
             (handler_rpc (rpc_ sample_bucket) (Bits.node_id (id_ sample_bucket)))
             (name_ sample_bucket) ->
       @GetBucketId sample_params rpc' (name_ sample_bucket) c' = Some (0, c')) /\
    (forall (rpc' : RpcContext) (name : string),
       c_str name = name ->
       name <> name_ sample_bucket -> name <> "c"%string ->
       @GetBucketId sample_params rpc' name c' =
       match @GetBucketId sample_params rpc' name sample_open_cluster with
       | Some (id, _) => Some (id, c')
       | None => None
       end).
Proof.
  apply (@Bucket_Rename_moves_the_name sample_params sample_bucket "c"
           sample_open_cluster sample_open_context sample_open_context
           (nth 0 sample_open_cluster (sample_context 1 [] []))).
  - reflexivity.
  - reflexivity.
  - vm_compute. reflexivity.
  - vm_compute. reflexivity.
  - vm_compute. reflexivity.
  - vm_compute. reflexivity.
  - vm_compute. reflexivity.
  - vm_compute. reflexivity.
  - vm_compute. reflexivity.
Defined.

Lemma Bucket_Rename_twice_keeps_both_names_witness :
  exists c1 c2 : Cluster,
    @Bucket_Rename sample_params sample_bucket "c" sample_open_cluster
      = Some (HERMES_SUCCESS, c1) /\
    @Bucket_Rename sample_params sample_bucket "d" c1 = Some (HERMES_SUCCESS, c2) /\
    (forall rpc' : RpcContext,
       @HashString sample_params rpc' "c"
         = @HashString sample_params
             (handler_rpc (rpc_ sample_bucket) (Bits.node_id (id_ sample_bucket))) "c" ->
       @GetBucketId sample_params rpc' "c" c2 = Some (id_ sample_bucket, c2)) /\
    (forall rpc' : RpcContext,
       @HashString sample_params rpc' "d"
         = @HashString sample_params
             (handler_rpc (rpc_ sample_bucket) (Bits.node_id (id_ sample_bucket))) "d" ->
       @GetBucketId sample_params rpc' "d" c2 = Some (id_ sample_bucket, c2)).
Proof.
  apply (@Bucket_Rename_twice_keeps_both_names sample_params sample_bucket "c" "d"
           sample_open_cluster sample_open_context sample_open_context
           (nth 0 sample_open_cluster (sample_context 1 [] []))
           (nth 1 sample_open_cluster (sample_context 2 [] []))).
  - reflexivity.
  - reflexivity.
  - reflexivity.
  - vm_compute. reflexivity.
  - vm_compute. reflexivity.
  - discriminate.
  - discriminate.
  - vm_compute. reflexivity.
  - vm_compute. reflexivity.
  - vm_compute. reflexivity.
  - vm_compute. reflexivity.
  - vm_compute. reflexivity.
  - vm_compute. reflexivity.
  - vm_compute. reflexivity.
  - vm_compute. reflexivity.
Defined.

Lemma renaming_to_a_name_too_long_changes_nothing_witness :
  @Bucket_Rename sample_params sample_bucket (name_of_size 255) sample_open_cluster
    = Some (BUCKET_NAME_TOO_LONG, sample_open_cluster) /\
  @Bucket_RenameBlob sample_params sample_bucket "k" (name_of_size 63)
    sample_open_cluster = Some (BLOB_NAME_TOO_LONG, sample_open_cluster).
Proof.
  split.
  - apply (proj1 (@renaming_to_a_name_too_long_changes_nothing sample_params
                    sample_bucket "k" (name_of_size 255) sample_open_cluster)).
    vm_compute. discriminate.
  - apply (proj2 (@renaming_to_a_name_too_long_changes_nothing sample_params
                    sample_bucket "k" (name_of_size 63) sample_open_cluster)).
    vm_compute. discriminate.
Defined.

Lemma Bucket_RenameBlob_moves_the_binding_witness :
  GetFromStorage (mdm (nth 2 sample_blob_cluster (sample_context 3 [] [])))
    (MakeInternalBlobName "k" (3 * 2 ^ 32)) kMapType_Blob = 3 * 2 ^ 32 /\
  exists c' : Cluster,
    @Bucket_RenameBlob sample_params sample_bucket "k" "m" sample_blob_cluster
      = Some (HERMES_SUCCESS, c') /\
    @GetBlobId sample_params sample_rpc "m" (3 * 2 ^ 32) c'
      = Some (GetFromStorage (mdm (nth 2 sample_blob_cluster (sample_context 3 [] [])))
                (MakeInternalBlobName "k" (3 * 2 ^ 32)) kMapType_Blob, c') /\
    @GetBlobId sample_params sample_rpc "k" (3 * 2 ^ 32) c' = Some (0, c').
Proof.
  split; [vm_compute; reflexivity|].
  destruct (@Bucket_RenameBlob_moves_the_binding sample_params sample_bucket "k" "m"
              sample_blob_cluster
              (nth 2 sample_blob_cluster (sample_context 3 [] []))
              (nth 1 sample_blob_cluster (sample_context 2 [] [])))
    as (c' & Hrun & Hnew & Hold & _).
  - reflexivity.
  - reflexivity.
  - vm_compute. reflexivity.
  - vm_compute. split; [discriminate | reflexivity].
  - vm_compute. reflexivity.
  - vm_compute. reflexivity.
  - vm_compute. discriminate.
  - vm_compute. reflexivity.
  - vm_compute. reflexivity.
  - exists c'. split; [exact Hrun|]. split; [exact Hnew|].
    apply Hold. discriminate.
Defined.

Lemma Bucket_RenameBlob_of_an_unknown_blob_witness :
  @Bucket_RenameBlob sample_params sample_bucket "k" "m" sample_open_cluster
    = Some (HERMES_SUCCESS, sample_open_cluster).
Proof.
  apply (@Bucket_RenameBlob_of_an_unknown_blob sample_params sample_bucket "k" "m"
           sample_open_cluster sample_open_context).
  - reflexivity.
  - vm_compute. reflexivity.
  - vm_compute. reflexivity.
  - vm_compute. reflexivity.
  - vm_compute. reflexivity.
Defined.

(** ** Opening and closing a handle *)

Lemma with_bucket_info_back (context : SharedMemoryContext) (id : BucketID)
    (info info' : BucketInfo) :
  LocalGetBucketInfoById (mdm context) id = Some info ->
  with_bucket_info (with_bucket_info context (Bits.index id) info') (Bits.index id) info
  = context.
Proof.
  unfold LocalGetBucketInfoById, LocalGetBucketInfoByIndex, with_bucket_info.
  intros Hinfo. destruct context as [m p t]. destruct m.
  unfold set_mdm, set_slots. cbn in *.
  rewrite list_insert_insert_eq. rewrite list_insert_id by exact Hinfo. reflexivity.
Qed.

Section OpenClose.
Context `{HermesParams}.

(** X17: Opening a bucket that exists and closing the handle again leaves the
    whole installation as it was found: the constructor adds one to the
    ref-count of the bucket and [Close] takes it off. *)
Theorem Bucket_new_then_Close_restores (name : string) (h : RpcContext)
    (c : Cluster) (context : SharedMemoryContext) (info : BucketInfo) :
  let id := GetFromStorage (mdm context) name kMapType_Bucket in
  IsBucketNameTooLong name = false ->
  0 < HashString h name ->
  c !! node_slot (HashString h name) = Some context ->
  id <> 0 ->
  Bits.node_id id = HashString h name ->
  LocalGetBucketInfoById (mdm context) id = Some info ->
  0 <= ref_count info < 2 ^ 31 - 1 ->
  exists (this : Bucket) (c1 : Cluster),
    Bucket_new name h c = Some (inr this, c1) /\
    id_ this = id /\
    bucket_ref_count c1 (Bits.node_id id) id = Some (ref_count info + 1) /\
    Bucket_Close this c1 = Some ((HERMES_SUCCESS, set_id_ this 0), c).
Proof.
  intros id Hfits Howner Hctx Hid Hnode Hinfo Hrc.
  set (s := node_slot (HashString h name)) in *.
  assert (Hs : (s < length c)%nat) by (apply lookup_lt_is_Some_1; eauto).
  set (info1 := set_ref_count info (ref_count info + 1)).
  set (x1 := with_bucket_info context (Bits.index id) info1).
  assert (Hinfo1 : LocalGetBucketInfoById (mdm x1) id = Some info1)
    by (apply (with_bucket_info_lookup context id info); exact Hinfo).
  exists {| name_ := name; id_ := id; rpc_ := h |}, (<[s := x1]> c).
  split; [|split; [reflexivity|split]].
  - unfold Bucket_new. cbn [name_ rpc_]. rewrite Hfits. unfold bind.
    rewrite GetOrCreateBucketId_on_owner.
    rewrite (on_node_run _ _ c context x1 id Howner Hctx)
      by (apply LocalGetOrCreateBucketId_existing; assumption).
    unfold Bucket_IsValid, set_id_, IsNullBucketId, IsNullId. cbn [id_].
    destruct (Z.eqb_spec id 0) as [|_]; [contradiction|]. reflexivity.
  - unfold bucket_ref_count. rewrite Hnode. fold s.
    rewrite list_lookup_insert_eq by exact Hs. rewrite Hinfo1. reflexivity.
  - unfold Bucket_Close, Bucket_IsValid, IsNullBucketId, IsNullId. cbn [id_ rpc_].
    destruct (Z.eqb_spec id 0) as [|_]; [contradiction|]. cbn [negb].
    unfold bind, DecrementRefcount. rewrite dispatch_on_target, Hnode.
    assert (Hx1 : <[s := x1]> c !! s = Some x1)
      by (apply list_lookup_insert_eq; exact Hs).
    rewrite (on_node_run _ _ _ x1 context tt Howner Hx1).
    + fold s. rewrite list_insert_insert_eq. rewrite list_insert_id by exact Hctx.
      reflexivity.
    + rewrite (LocalDecrementRefcount_run id x1 info1 Hinfo1)
        by (subst info1; cbn; lia).
      subst x1 info1. cbn [ref_count set_ref_count].
      replace (set_ref_count (set_ref_count info (ref_count info + 1))
                 (ref_count info + 1 - 1)) with info
        by (destruct info; unfold set_ref_count; cbn; f_equal; lia).
      rewrite (with_bucket_info_back context id info) by exact Hinfo. reflexivity.
Qed.

(** X18: When the node that owns a new name, one without an embedded NUL,
    has handed out all its slots, the constructor throws [runtime_error]
    and the installation is unchanged. *)
Theorem Bucket_new_without_a_free_slot (name : string) (h : RpcContext)
    (c : Cluster) (context : SharedMemoryContext) :
  c_str name = name ->
  IsBucketNameTooLong name = false ->
  0 < HashString h name ->
  c !! node_slot (HashString h name) = Some context ->
  bucket_map (mdm context) !! name = None ->
  max_buckets (mdm context) <= num_buckets (mdm context) ->
  Bucket_new name h c = Some (inl runtime_error, c).
Proof.
  intros _ Hfits Howner Hctx Hnew Hfull.
  unfold Bucket_new. cbn [name_ rpc_]. rewrite Hfits. unfold bind.
  rewrite GetOrCreateBucketId_on_owner.
  rewrite (on_node_read _ _ c context 0 Howner Hctx); [reflexivity|].
  rewrite LocalGetOrCreateBucketId_new by (unfold GetFromStorage; rewrite Hnew; reflexivity).
  apply LocalGetNextFreeBucketId_exhausted. exact Hfull.
Qed.
End OpenClose.

Lemma Bucket_new_then_Close_restores_witness :
  exists (this : Bucket) (c1 : Cluster),
    @Bucket_new sample_params "b" sample_rpc sample_open_cluster = Some (inr this, c1) /\
    id_ this = 3 * 2 ^ 32 /\
    bucket_ref_count c1 3 (3 * 2 ^ 32) = Some 2 /\
    Bucket_Close this c1 = Some ((HERMES_SUCCESS, set_id_ this 0), sample_open_cluster).
Proof.
  apply (@Bucket_new_then_Close_restores sample_params "b" sample_rpc
           sample_open_cluster sample_open_context sample_open_info).
  - vm_compute. reflexivity.
  - vm_compute. reflexivity.
  - vm_compute. reflexivity.
  - vm_compute. discriminate.
  - vm_compute. reflexivity.
  - vm_compute. reflexivity.
  - vm_compute. split; [discriminate | reflexivity].
Defined.

Lemma Bucket_new_without_a_free_slot_witness :
  @Bucket_new sample_params "c" sample_rpc
    [set_mdm (sample_context 1 [11; 12] [0; 0])
       (InitMetadataManager
          {| capacities := [1000; 2000]; cfg_num_devices := 2;
             max_buckets_per_node := 0; max_vbuckets_per_node := 0;
             cfg_system_view_state_update_interval_ms := 100 |} 1)]
  = Some (inl runtime_error,
          [set_mdm (sample_context 1 [11; 12] [0; 0])
             (InitMetadataManager
                {| capacities := [1000; 2000]; cfg_num_devices := 2;
                   max_buckets_per_node := 0; max_vbuckets_per_node := 0;
                   cfg_system_view_state_update_interval_ms := 100 |} 1)]).
Proof.
  apply (@Bucket_new_without_a_free_slot sample_params "c" sample_rpc _
           (set_mdm (sample_context 1 [11; 12] [0; 0])
              (InitMetadataManager
                 {| capacities := [1000; 2000]; cfg_num_devices := 2;
                    max_buckets_per_node := 0; max_vbuckets_per_node := 0;
                    cfg_system_view_state_update_interval_ms := 100 |} 1))).
  - reflexivity.
  - vm_compute. reflexivity.
  - vm_compute. reflexivity.
  - vm_compute. reflexivity.
  - vm_compute. reflexivity.
  - vm_compute. discriminate.
Defined.

(** ** Reading the global system view *)

Lemma LocalGetGlobalDeviceCapacities_loop_run (global_svs : SystemViewState) (n : nat) :
  forall (i : nat) (result : list Z),
    (i + n <= length result)%nat ->
    (i + n <= length (bytes_available global_svs))%nat ->
    exists result' : list Z,
      LocalGetGlobalDeviceCapacities_loop i n global_svs result = Some result' /\
      length result' = length result /\
      (forall j, (i <= j < i + n)%nat ->
         result' !! j = bytes_available global_svs !! j) /\
      (forall j, ~ (i <= j < i + n)%nat -> result' !! j = result !! j).
Proof.
  induction n as [|n IH]; intros i result Hres Hbytes.
  - exists result. cbn. split; [reflexivity|]. split; [reflexivity|].
    split; [intros j Hj; lia | intros j _; reflexivity].
  - destruct (lookup_lt_is_Some_2 (bytes_available global_svs) i) as [v Hv]; [lia|].
    cbn [LocalGetGlobalDeviceCapacities_loop]. rewrite Hv.
    destruct (IH (S i) (<[i := v]> result)) as (result' & Hrun & Hlen & Hin & Hout);
      [rewrite length_insert; lia | lia |].
    exists result'. split; [exact Hrun|].
    rewrite length_insert in Hlen. split; [exact Hlen|]. split.
    + intros j Hj. destruct (decide (j = i)) as [->|Hne].
      * rewrite Hout by lia. rewrite list_lookup_insert_eq by lia. symmetry. exact Hv.
      * apply Hin. lia.
    + intros j Hj. rewrite Hout by lia. apply list_lookup_insert_ne. lia.
Qed.

Lemma LocalGetGlobalDeviceCapacities_run (context : SharedMemoryContext)
    (state : SystemViewState) :
  global_system_view_state (mdm context) = Some state ->
  (Z.to_nat (svs_num_devices state) <= length (bytes_available state))%nat ->
  LocalGetGlobalDeviceCapacities context =
  Some (take (Z.to_nat (svs_num_devices state)) (bytes_available state), context).
Proof.
  intros Hstate Hlen.
  unfold LocalGetGlobalDeviceCapacities, bind, GetGlobalSystemViewState.
  rewrite Hstate.
  set (n := Z.to_nat (svs_num_devices state)) in *.
  destruct (LocalGetGlobalDeviceCapacities_loop_run state (length (replicate n 0)) 0
              (replicate n 0)) as (result' & Hrun & Hlen' & Hin & _).
  { cbn. lia. }
  { rewrite length_replicate. cbn. exact Hlen. }
  rewrite Hrun. unfold ret. f_equal. f_equal.
  rewrite length_replicate in *.
  apply list_eq. intros j. destruct (decide (j < n)%nat) as [Hj|Hj].
  - rewrite Hin by lia. rewrite lookup_take_lt by exact Hj. reflexivity.
  - rewrite lookup_take_ge by lia. apply lookup_ge_None_2. lia.
Qed.

(** X19: [GetGlobalDeviceCapacities] returns, from any node, the first
    [num_devices] entries of [bytes_available] of the global view on the
    node that [global_system_view_state_node_id] names, and changes
    nothing. *)
Theorem GetGlobalDeviceCapacities_reads_the_global_view (rpc : RpcContext)
    (c : Cluster) (context gcontext : SharedMemoryContext) (state : SystemViewState) :
  0 < node_id rpc ->
  c !! node_slot (node_id rpc) = Some context ->
  0 < global_system_view_state_node_id (mdm context) ->
  c !! node_slot (global_system_view_state_node_id (mdm context)) = Some gcontext ->
  global_system_view_state (mdm gcontext) = Some state ->
  (Z.to_nat (svs_num_devices state) <= length (bytes_available state))%nat ->
  GetGlobalDeviceCapacities rpc c =
  Some (take (Z.to_nat (svs_num_devices state)) (bytes_available state), c).
Proof.
  intros Hself Hctx Hnode Hgctx Hstate Hlen.
  unfold GetGlobalDeviceCapacities, bind, Local.
  rewrite (on_node_read _ get c context context Hself Hctx) by reflexivity.
  unfold GetMetadataManagerFromContext.
  change (on_node (node_id rpc) LocalGetGlobalDeviceCapacities)
    with (Local rpc LocalGetGlobalDeviceCapacities).
  rewrite dispatch_on_target.
  apply (on_node_read _ _ c gcontext); [exact Hnode | exact Hgctx |].
  apply LocalGetGlobalDeviceCapacities_run; assumption.
Qed.

(** X20: Right after initialisation only node 1 holds the global view and every
    node names node 1 for it, so on every node of the installation
    [GetGlobalDeviceCapacities] returns the configured capacity of each of
    the [num_devices] devices. *)
Theorem GetGlobalDeviceCapacities_after_init (config : Config) (rpc : RpcContext)
    (c : Cluster) :
  freshly_initialised config c ->
  1 <= node_id rpc <= Z.of_nat (length c) ->
  GetGlobalDeviceCapacities rpc c =
  Some (map (fun i => nth i (capacities config) 0)
          (seq 0 (Z.to_nat (cfg_num_devices config))), c).
Proof.
  intros Hfresh Hnode.
  destruct (lookup_lt_is_Some_2 c (node_slot (node_id rpc))) as [context Hctx];
    [unfold node_slot; lia|].
  destruct (lookup_lt_is_Some_2 c (node_slot 1)) as [gcontext Hgctx];
    [unfold node_slot; cbn; lia|].
  pose proof (Hfresh _ _ Hctx) as Hm.
  pose proof (Hfresh _ _ Hgctx) as Hg.
  change (Z.of_nat (node_slot 1) + 1) with 1 in Hg.
  unfold GetGlobalDeviceCapacities, bind, Local.
  rewrite (on_node_read _ get c context context) by (lia || assumption || reflexivity).
  unfold GetMetadataManagerFromContext. rewrite Hm.
  cbn [global_system_view_state_node_id InitMetadataManager].
  change (on_node (node_id rpc) LocalGetGlobalDeviceCapacities)
    with (Local rpc LocalGetGlobalDeviceCapacities).
  rewrite dispatch_on_target.
  apply (on_node_read _ _ c gcontext); [lia | exact Hgctx |].
  rewrite (LocalGetGlobalDeviceCapacities_run gcontext (CreateSystemViewState config)).
  - unfold CreateSystemViewState. cbn [svs_num_devices bytes_available].
    rewrite take_ge by (rewrite length_map, length_seq; lia). reflexivity.
  - rewrite Hg. reflexivity.
  - unfold CreateSystemViewState. cbn [svs_num_devices bytes_available].
    rewrite length_map, length_seq. lia.
Qed.

Lemma GetGlobalDeviceCapacities_reads_the_global_view_witness :
  GetGlobalDeviceCapacities {| node_id := 2; num_nodes := 3 |} sample_cluster3
  = Some (take 2 [1000; 2000], sample_cluster3).
Proof.
  apply (GetGlobalDeviceCapacities_reads_the_global_view
           {| node_id := 2; num_nodes := 3 |} sample_cluster3
           (sample_context 2 [21; 22] [-100; 50]) (sample_context 1 [11; 12] [0; 0])
           {| svs_num_devices := 2; bytes_available := [1000; 2000] |}).
  - vm_compute. reflexivity.
  - vm_compute. reflexivity.
  - vm_compute. reflexivity.
  - vm_compute. reflexivity.
  - vm_compute. reflexivity.
  - cbn. lia.
Defined.

Lemma GetGlobalDeviceCapacities_after_init_witness :
  GetGlobalDeviceCapacities {| node_id := 3; num_nodes := 3 |} sample_cluster3
  = Some (map (fun i => nth i (capacities sample_config) 0)
            (seq 0 (Z.to_nat (cfg_num_devices sample_config))), sample_cluster3).
Proof.
  apply (GetGlobalDeviceCapacities_after_init sample_config
           {| node_id := 3; num_nodes := 3 |} sample_cluster3).
  - intros k context Hk.
    destruct k as [|[|[|k]]]; cbn in Hk; try discriminate;
      injection Hk as <-; reflexivity.
  - cbn. lia.
Defined.

(** ** Blob names the bucket does not hold *)

Section UnknownBlobName.
Context `{HermesParams}.
Variable ReleaseBuffers : RpcContext -> list BufferID -> St Cluster unit.
Variable LocalFreeBufferIdList : BlobID -> St SharedMemoryContext unit.
Variable LocalRemoveBlobFromBucketInfo :
  BucketID -> BlobID -> St SharedMemoryContext unit.
Variable LocalContainsBlob : BucketID -> BlobID -> St SharedMemoryContext bool.

(** X21: For a blob name without an embedded NUL that the bucket of the
    handle does not hold,
    [Bucket::ContainsBlob] and [Bucket::BlobIsInSwap] answer false and
    [Bucket::DeleteBlob] reports success; none of them changes the
    installation, and none reaches the buffers, the buffer-id lists or the
    blob list of the bucket. *)
Theorem unknown_blob_names_are_left_alone (this : Bucket) (name : string)
    (c : Cluster) (context : SharedMemoryContext) :
  let key := MakeInternalBlobName name (id_ this) in
  c_str name = name ->
  0 < HashString (rpc_ this) key ->
  c !! node_slot (HashString (rpc_ this) key) = Some context ->
  blob_map (mdm context) !! key = None ->
  Bucket_ContainsBlob LocalContainsBlob this name c = Some (false, c) /\
  Bucket_BlobIsInSwap this name c = Some (false, c) /\
  Bucket_DeleteBlob ReleaseBuffers LocalFreeBufferIdList LocalRemoveBlobFromBucketInfo
    this name c = Some (HERMES_SUCCESS, c).
Proof.
  intros key _ Hkey Hctx Hnone.
  assert (Hget : GetBlobId (rpc_ this) name (id_ this) c = Some (0, c)).
  { unfold GetBlobId. rewrite GetId_eq. fold key.
    destruct (Z.leb_spec (HashString (rpc_ this) key) 0); [lia|].
    rewrite Hctx. unfold GetFromStorage. rewrite Hnone. reflexivity. }
  split; [|split].
  - unfold Bucket_ContainsBlob, ContainsBlob, bind. rewrite Hget. reflexivity.
  - unfold Bucket_BlobIsInSwap, bind. rewrite Hget. reflexivity.
  - unfold Bucket_DeleteBlob, DestroyBlobByName, bind. rewrite Hget. reflexivity.
Qed.
End UnknownBlobName.

Lemma unknown_blob_names_are_left_alone_witness :
  @Bucket_ContainsBlob sample_params (fun _ _ => ret true) sample_bucket "k"
    sample_open_cluster = Some (false, sample_open_cluster) /\
  @Bucket_BlobIsInSwap sample_params sample_bucket "k" sample_open_cluster
    = Some (false, sample_open_cluster) /\
  @Bucket_DeleteBlob sample_params (fun _ _ => abort) (fun _ => abort)
    (fun _ _ => abort) sample_bucket "k" sample_open_cluster
    = Some (HERMES_SUCCESS, sample_open_cluster).
Proof.
  apply (@unknown_blob_names_are_left_alone sample_params (fun _ _ => abort)
           (fun _ => abort) (fun _ _ => abort) (fun _ _ => ret true)
           sample_bucket "k" sample_open_cluster sample_open_context).
  - reflexivity.
  - vm_compute. reflexivity.
  - vm_compute. reflexivity.
  - vm_compute. reflexivity.
Defined.

(** ** The balanced page mapper *)

Section MapperFacts.
Variable FileID : Type.
Variable FileID_default : FileID.
Variable file_hash_t : FileID -> Z.
Variable PAGE_SIZE : Z.
Hypothesis PAGE_SIZE_pos : 0 < PAGE_SIZE.

Lemma page_arithmetic (cur : Z) :
  0 <= cur ->
  let p := cur / PAGE_SIZE in
  let r := cur mod PAGE_SIZE in
  0 <= p /\ 0 <= r < PAGE_SIZE /\ cur = PAGE_SIZE * p + r /\
  (p + 1) * PAGE_SIZE - r = PAGE_SIZE * p + PAGE_SIZE - r /\
  (2 * p + 1) * PAGE_SIZE = 2 * (PAGE_SIZE * p) + PAGE_SIZE.
Proof.
  intros Hcur p r. split; [apply Z.div_pos; lia|].
  split; [apply Z.mod_pos_bound; lia|].
  split; [apply Z.div_mod; lia|]. split; ring.
Qed.

Lemma BalancedMapper_map_loop_run (file_op : FileStruct FileID) (file_hash : Z)
    (fuel : nat) :
  forall (size_mapped : Z) (mapper_return : list (FileStruct FileID * HermesStruct)),
    0 <= offset_ file_op -> 0 <= size_mapped ->
    2 * (offset_ file_op + size_ file_op) + PAGE_SIZE <= 2 ^ 64 ->
    (Z.to_nat (size_ file_op - size_mapped) <= fuel)%nat ->
    exists (pieces : list (FileStruct FileID * HermesStruct)) (e : Z),
      BalancedMapper_map_loop FileID FileID_default PAGE_SIZE fuel file_op file_hash
        size_mapped mapper_return = Some (mapper_return ++ pieces) /\
      chain_end (offset_ file_op + size_mapped) pieces = Some e /\
      offset_ file_op + size_ file_op <= e /\
      Forall (fun piece =>
                offset_ file_op + size_mapped <= offset_ (fst piece)
                  < offset_ file_op + size_ file_op /\
                piece_of_page PAGE_SIZE file_hash piece) pieces.
Proof.
  induction fuel as [|fuel IH]; intros size_mapped mapper_return Hoff Hsm Hroom Hfuel.
  - cbn [BalancedMapper_map_loop].
    destruct (Z.gtb_spec (size_ file_op) size_mapped); [lia|].
    exists [], (offset_ file_op + size_mapped). rewrite app_nil_r.
    split; [reflexivity|]. split; [reflexivity|]. split; [lia | constructor].
  - cbn [BalancedMapper_map_loop].
    destruct (Z.gtb_spec (size_ file_op) size_mapped) as [Hmore|Hdone].
    + destruct (Z.eqb_spec PAGE_SIZE 0); [lia|].
      set (cur := offset_ file_op + size_mapped) in *.
      rewrite (to_u64_small cur) by (subst cur; lia).
      destruct (page_arithmetic cur) as (Hp & Hr & Hcur & Hsize & Hend);
        [subst cur; lia|].
      set (p := cur / PAGE_SIZE) in *. set (r := cur mod PAGE_SIZE) in *.
      assert (Hq : 0 <= PAGE_SIZE * p) by (apply Z.mul_nonneg_nonneg; lia).
      rewrite (to_u64_small ((p + 1) * PAGE_SIZE - r)) by (subst cur; lia).
      set (hs := (p + 1) * PAGE_SIZE - r) in *.
      rewrite (to_u64_small (size_mapped + hs)) by (subst cur; lia).
      match goal with
      | |- context [BalancedMapper_map_loop _ _ _ _ _ _ _ (_ ++ [?x])] => set (piece := x)
      end.
      destruct (IH (size_mapped + hs) (mapper_return ++ [piece]))
        as (pieces & e & Hrun & Hchain & He & Hall); [lia | lia | lia | lia |].
      exists (piece :: pieces), e. rewrite Hrun, <- app_assoc.
      split; [reflexivity|]. split; [|split; [exact He|]].
      * cbn [chain_end]. subst piece. cbn [offset_ size_].
        rewrite Z.eqb_refl.
        replace (cur + hs) with (offset_ file_op + (size_mapped + hs))
          by (subst cur; lia).
        exact Hchain.
      * constructor.
        -- subst piece. cbn [fst offset_]. split; [subst cur; lia|].
           unfold piece_of_page. cbn [offset_ size_ hermes_offset_ hermes_size_ blob_name_].
           fold p r. split; [reflexivity|]. split; [reflexivity|].
           split; [lia|]. split; [lia | reflexivity].
        -- eapply Forall_impl; [exact Hall|]. cbn beta.
           intros piece' [Hrange Hshape]. split; [lia | exact Hshape].
    + exists [], (offset_ file_op + size_mapped). rewrite app_nil_r.
      split; [reflexivity|]. split; [reflexivity|]. split; [lia | constructor].
Qed.

(** X22: With [size_] turns or more, [BalancedMapper::map] returns: its pieces
    lie end to end from the offset of the request and reach its end or
    beyond, and every piece begins inside the request. *)
Theorem BalancedMapper_map_covers_the_request (file_op : FileStruct FileID)
    (fuel : nat) :
  0 <= offset_ file_op ->
  0 <= size_ file_op ->
  2 * (offset_ file_op + size_ file_op) + PAGE_SIZE <= 2 ^ 64 ->
  (Z.to_nat (size_ file_op) <= fuel)%nat ->
  exists (pieces : list (FileStruct FileID * HermesStruct)) (e : Z),
    BalancedMapper_map FileID FileID_default file_hash_t PAGE_SIZE fuel file_op
      = Some pieces /\
    chain_end (offset_ file_op) pieces = Some e /\
    offset_ file_op + size_ file_op <= e /\
    Forall (fun piece =>
              offset_ file_op <= offset_ (fst piece)
                < offset_ file_op + size_ file_op) pieces.
Proof.
  intros Hoff Hsize Hroom Hfuel.
  destruct (BalancedMapper_map_loop_run file_op (file_hash_t (file_id_ file_op)) fuel 0 [])
    as (pieces & e & Hrun & Hchain & He & Hall);
    [lia | lia | lia | rewrite Z.sub_0_r; exact Hfuel |].
  exists pieces, e. rewrite Z.add_0_r in Hchain.
  split; [exact Hrun|]. split; [exact Hchain|]. split; [exact He|].
  eapply Forall_impl; [exact Hall|]. cbn beta. intros piece [Hrange _]. lia.
Qed.

(** X23: A piece that begins in page [p] gets the name of page [p], the offset
    in that page, and a size that takes it to the end of page [2 * p]: a
    piece that begins beyond the first page ends beyond its own page. *)
Theorem BalancedMapper_map_piece_ends_with_page_2p (file_op : FileStruct FileID)
    (fuel : nat) (pieces : list (FileStruct FileID * HermesStruct)) :
  0 <= offset_ file_op ->
  2 * (offset_ file_op + size_ file_op) + PAGE_SIZE <= 2 ^ 64 ->
  (Z.to_nat (size_ file_op) <= fuel)%nat ->
  BalancedMapper_map FileID FileID_default file_hash_t PAGE_SIZE fuel file_op
    = Some pieces ->
  Forall (piece_of_page PAGE_SIZE (file_hash_t (file_id_ file_op))) pieces.
Proof.
  intros Hoff Hroom Hfuel Hmap.
  destruct (BalancedMapper_map_loop_run file_op (file_hash_t (file_id_ file_op)) fuel 0 [])
    as (pieces' & e & Hrun & _ & _ & Hall);
    [lia | lia | lia | rewrite Z.sub_0_r; exact Hfuel |].
  unfold BalancedMapper_map in Hmap. rewrite Hrun in Hmap. injection Hmap as <-.
  eapply Forall_impl; [exact Hall|]. cbn beta. intros piece [_ Hshape]. exact Hshape.
Qed.
End MapperFacts.

Lemma BalancedMapper_map_covers_the_request_witness :
  exists (pieces : list (FileStruct nat * HermesStruct)) (e : Z),
    BalancedMapper_map nat 0%nat Z.of_nat 4096 10
      {| file_id_ := 7%nat; offset_ := 4000; size_ := 10 |} = Some pieces /\
    chain_end 4000 pieces = Some e /\
    4000 + 10 <= e /\
    Forall (fun piece => 4000 <= offset_ (fst piece) < 4000 + 10) pieces.
Proof.
  apply (BalancedMapper_map_covers_the_request nat 0%nat Z.of_nat 4096 ltac:(lia)
           {| file_id_ := 7%nat; offset_ := 4000; size_ := 10 |} 10).
  - cbn. lia.
  - cbn. lia.
  - cbn. lia.
  - cbn. lia.
Defined.

Lemma BalancedMapper_map_piece_ends_with_page_2p_witness :
  Forall (piece_of_page 4096 7)
    [({| file_id_ := 0%nat; offset_ := 4096; size_ := 8192 |},
      {| blob_name_ := "7_1"; hermes_offset_ := 0; hermes_size_ := 8192 |})].
Proof.
  apply (BalancedMapper_map_piece_ends_with_page_2p nat 0%nat Z.of_nat 4096 ltac:(lia)
           {| file_id_ := 7%nat; offset_ := 4096; size_ := 10 |} 10).
  - cbn. lia.
  - cbn. lia.
  - cbn. lia.
  - vm_compute. reflexivity.
Defined.

Lemma append_cancel_l (a b c : string) : (a +:+ b)%string = (a +:+ c)%string -> b = c.
Proof.
  induction a as [|x a IH]; intros Heq.
  - rewrite !append_nil_l in Heq. exact Heq.
  - rewrite !append_cons in Heq. injection Heq as Heq. exact (IH Heq).
Qed.

Lemma to_string_inj (x y : Z) : 0 <= x -> 0 <= y -> to_string x = to_string y -> x = y.
Proof.
  intros Hx Hy Heq. unfold to_string in Heq.
  apply (inj pretty) in Heq. lia.
Qed.

Section MapperNames.
Variable FileID : Type.
Variable FileID_default : FileID.
Variable file_hash_t : FileID -> Z.
Variable PAGE_SIZE : Z.
Hypothesis PAGE_SIZE_pos : 0 < PAGE_SIZE.

Lemma chained_pieces_names (file_hash : Z)
    (pieces : list (FileStruct FileID * HermesStruct)) :
  forall (start e : Z),
    0 <= start ->
    chain_end start pieces = Some e ->
    Forall (piece_of_page PAGE_SIZE file_hash) pieces ->
    Forall (fun piece => start <= offset_ (fst piece)) pieces /\
    NoDup (map (fun piece => blob_name_ (snd piece)) pieces).
Proof.
  induction pieces as [|[file hermes] rest IH]; intros start e Hstart Hchain Hall.
  - split; constructor.
  - cbn [chain_end] in Hchain.
    destruct (Z.eqb_spec (offset_ file) start) as [Hoff|]; [|discriminate].
    destruct (proj1 (Forall_cons _ _ _) Hall) as [Hshape Hrest].
    destruct Hshape as (_ & _ & Hsize & Hend & Hname).
    destruct (IH (start + size_ file) e) as [Hfrom Hnodup];
      [lia | exact Hchain | exact Hrest |].
    split.
    + constructor; [cbn; lia|].
      eapply Forall_impl; [exact Hfrom|]. cbn beta. intros piece Hle. lia.
    + cbn [map snd]. constructor; [|exact Hnodup].
      intros Hin. apply list_elem_of_fmap in Hin.
      destruct Hin as ([file' hermes'] & Heq & Hin). cbn [snd] in Heq.
      rewrite Forall_forall in Hfrom, Hrest.
      pose proof (Hfrom _ Hin) as Hle. cbn [fst] in Hle.
      destruct (Hrest _ Hin) as (_ & _ & _ & _ & Hname').
      rewrite Hname, Hname' in Heq.
      apply append_cancel_l, append_cancel_l in Heq.
      assert (Hp : 0 <= offset_ file / PAGE_SIZE) by (apply Z.div_pos; lia).
      assert (Hp' : 0 <= offset_ file' / PAGE_SIZE) by (apply Z.div_pos; lia).
      apply to_string_inj in Heq; [|exact Hp | exact Hp'].
      assert (Hge : 2 * (offset_ file / PAGE_SIZE) + 1 <= offset_ file' / PAGE_SIZE).
      { apply Z.div_le_lower_bound; [lia|].
        rewrite Z.mul_comm. lia. }
      lia.
Qed.

(** X24: The pieces of one request get pairwise different blob names. *)
Theorem BalancedMapper_map_blob_names_differ (file_op : FileStruct FileID)
    (fuel : nat) (pieces : list (FileStruct FileID * HermesStruct)) :
  0 <= offset_ file_op ->
  2 * (offset_ file_op + size_ file_op) + PAGE_SIZE <= 2 ^ 64 ->
  (Z.to_nat (size_ file_op) <= fuel)%nat ->
  BalancedMapper_map FileID FileID_default file_hash_t PAGE_SIZE fuel file_op
    = Some pieces ->
  NoDup (map (fun piece => blob_name_ (snd piece)) pieces).
Proof.
  intros Hoff Hroom Hfuel Hmap.
  destruct (BalancedMapper_map_loop_run FileID FileID_default PAGE_SIZE PAGE_SIZE_pos
              file_op (file_hash_t (file_id_ file_op)) fuel 0 [])
    as (pieces' & e & Hrun & Hchain & _ & Hall);
    [lia | lia | lia | rewrite Z.sub_0_r; exact Hfuel |].
  unfold BalancedMapper_map in Hmap. rewrite Hrun in Hmap. injection Hmap as <-.
  rewrite Z.add_0_r in Hchain.
  refine (proj2 (chained_pieces_names (file_hash_t (file_id_ file_op)) pieces'
                   (offset_ file_op) e Hoff Hchain _)).
  eapply Forall_impl; [exact Hall|]. cbn beta. intros piece [_ Hshape]. exact Hshape.
Qed.
End MapperNames.

Lemma BalancedMapper_map_blob_names_differ_witness :
  NoDup ["7_0"; "7_1"; "7_3"]%string.
Proof.
  apply (BalancedMapper_map_blob_names_differ nat 0%nat Z.of_nat 16 ltac:(lia)
           {| file_id_ := 7%nat; offset_ := 10; size_ := 40 |} 40
           [({| file_id_ := 0%nat; offset_ := 10; size_ := 6 |},
             {| blob_name_ := "7_0"; hermes_offset_ := 10; hermes_size_ := 6 |});
            ({| file_id_ := 0%nat; offset_ := 16; size_ := 32 |},
             {| blob_name_ := "7_1"; hermes_offset_ := 0; hermes_size_ := 32 |});
            ({| file_id_ := 0%nat; offset_ := 48; size_ := 64 |},
             {| blob_name_ := "7_3"; hermes_offset_ := 0; hermes_size_ := 64 |})]).
  - cbn. lia.
  - cbn. lia.
  - cbn. lia.
  - vm_compute. reflexivity.
Defined.
